(** * PureBlog: the ORM and request-dispatch core

    A shallow embedding of [www/orm.py], [www/web_frame.py] and the response
    normaliser of [www/app.py], followed by the properties the specification
    states about them.

    Python objects are modelled as follows.
    - values that reach SQL arguments, limits and handler results: [PyVal];
    - exceptions: [Exn], raised through the state-and-error monad [M];
    - a class body ([attrs] of the metaclass): an association list in the
      iteration order of [attrs.items()];
    - a [Model] instance (a [dict] subclass): a [gmap] from field name to value;
    - list objects that are shared between caller and callee: cells of a heap;
    - the database driver and the default generators: an environment that
      answers each call, with every call recorded in a trace. *)

From Stdlib Require Import ZArith String List Ascii Lia.
From stdpp Require Import base option list strings pretty gmap.

Local Open Scope Z_scope.

#[local] Set Warnings "-clear-no-such-hyp".

(** ** Python values and exceptions *)

Module Py.

#[warnings="-register-all"]
Inductive PyVal : Type :=
| VNone
| VBool (b : bool)
| VInt (n : Z)
| VStr (s : string)
| VBytes (b : string)
| VTuple (items : list PyVal)
| VDict (items : list (string * PyVal))   (* keys are distinct *)
| VObj (id : nat).          (* any other object, identified by [id] *)

(** The exceptions the modelled code raises or lets through. Where Python
    formats a value into the message with [%s], the value is kept next to the
    message text instead of its rendering. *)
Inductive Exn : Type :=
| RuntimeError (msg : string)
| ValueError (msg : string) (culprit : PyVal)
| AttributeError (msg : string)
| KeyError (key : string)
| TypeError (msg : string)
| APIError (error data message : string)
| DriverError (code : nat)   (* raised by the database driver or the pool *)
| NonException (name : string).
    (* an instance of [BaseException] outside [Exception], such as
       [GeneratorExit], [KeyboardInterrupt] or [SystemExit] *)

(** [isinstance(e, Exception)] *)
Definition is_Exception (e : Exn) : bool :=
  match e with
  | NonException _ => false
  | _ => true
  end.

(** [isinstance(v, int)]: [bool] is a subclass of [int]. *)
Definition is_int (v : PyVal) : bool :=
  match v with
  | VInt _ | VBool _ => true
  | _ => false
  end.

(** [isinstance(v, tuple) and len(v) == 2] *)
Definition is_pair (v : PyVal) : bool :=
  match v with
  | VTuple [_; _] => true
  | _ => false
  end.

(** The integer an [int] instance stands for. *)
Definition int_value (v : PyVal) : Z :=
  match v with
  | VInt n => n
  | VBool true => 1
  | _ => 0
  end.

(** Truth value of a string: empty strings are false. *)
Definition str_truthy (s : string) : bool := negb (String.eqb s "").

(** [sep.join(parts)] *)
Definition join (sep : string) (parts : list string) : string :=
  String.concat sep parts.

(** [s.replace('?', '%s')] *)
Fixpoint replace_qmark (s : string) : string :=
  match s with
  | EmptyString => EmptyString
  | String c rest =>
      if Ascii.eqb c "?"%char then String "%" (String "s" (replace_qmark rest))
      else String c (replace_qmark rest)
  end.

(** [s.lower()] on the ASCII letters. *)
Definition lower_char (c : ascii) : ascii :=
  let n := nat_of_ascii c in
  if ((65 <=? n) && (n <=? 90))%nat then ascii_of_nat (n + 32) else c.

Fixpoint lower (s : string) : string :=
  match s with
  | EmptyString => EmptyString
  | String c rest => String (lower_char c) (lower rest)
  end.

(** [s.startswith(p)] *)
Definition startswith (s p : string) : bool := String.prefix p s.

(** [s[n:]] *)
Fixpoint drop_chars (n : nat) (s : string) : string :=
  match n, s with
  | O, _ => s
  | S n', String _ rest => drop_chars n' rest
  | S _, EmptyString => EmptyString
  end.

(** Number of occurrences of the character [c] in [s]. *)
Fixpoint count_char (c : ascii) (s : string) : nat :=
  match s with
  | EmptyString => O
  | String d rest => ((if Ascii.eqb d c then 1 else 0) + count_char c rest)%nat
  end.

End Py.

Import Py.

(** ** A state-and-error monad

    A computation takes the state and gives back a result or the exception
    that escaped, together with the state reached: what was done before an
    exception is raised stays done. *)

Definition M (S A : Type) : Type := S → (Exn + A) * S.

Definition ret {S A} (a : A) : M S A := λ s, (inr a, s).

Definition raise {S A} (e : Exn) : M S A := λ s, (inl e, s).

Definition bind {S A B} (m : M S A) (k : A → M S B) : M S B :=
  λ s, match m s with
       | (inr a, s') => k a s'
       | (inl e, s') => (inl e, s')
       end.

(** [try: body  except BaseException as e: handler e] *)
Definition try_except {S A} (body : M S A) (handler : Exn → M S A) : M S A :=
  λ s, match body s with
       | (inr a, s') => (inr a, s')
       | (inl e, s') => handler e s'
       end.

(** [try: body  except Exception as e: handler e]: what is not an
    [Exception] goes through. *)
Definition except_Exception {S A} (body : M S A) (handler : Exn → M S A)
    : M S A :=
  λ s, match body s with
       | (inr a, s') => (inr a, s')
       | (inl e, s') => if is_Exception e then handler e s' else (inl e, s')
       end.

Definition gets {S A} (f : S → A) : M S A := λ s, (inr (f s), s).

Definition modify {S} (f : S → S) : M S unit := λ s, (inr tt, f s).

Declare Scope py_scope.
Delimit Scope py_scope with py.
Notation "x <- m ;; k" := (bind m (λ x, k))
  (at level 100, m at next level, right associativity) : py_scope.
Notation "m ;;; k" := (bind m (λ _, k))
  (at level 100, right associativity) : py_scope.

(** [list(map(f, xs))] for an effectful [f]: the calls happen left to right. *)
Fixpoint mapM {S A B} (f : A → M S B) (xs : list A) : M S (list B) :=
  match xs with
  | [] => ret []
  | x :: rest =>
      (y <- f x;; ys <- mapM f rest;; ret (y :: ys))%py
  end.

(** ** The ORM ([www/orm.py]) *)

Module Orm.

(** *** Field descriptors *)

(** [Field.default]: a plain value ([None] when there is none) or a callable.
    A callable is modelled by the value it returns at each invocation, as a
    function of the number of generator invocations made so far. *)
Inductive FieldDefault : Type :=
| DValue (v : PyVal)
| DCallable (g : nat → PyVal).

Record Field : Type := mkField {
  cls_name : string;            (* [self.__class__.__name__] *)
  name : option string;         (* [None] unless a column name is given *)
  column_type : string;
  primary_key : bool;
  default : FieldDefault
}.

Definition show_opt (o : option string) : string :=
  match o with Some s => s | None => "None" end.

(** [Field.__str__] *)
Definition Field_str (f : Field) : string :=
  "<" +:+ cls_name f +:+ ", " +:+ column_type f +:+ ":" +:+ show_opt (name f) +:+ ">".

Definition StringField (name : option string) (primary_key : bool)
    (default : FieldDefault) (ddl : string) : Field :=
  mkField "StringField" name ddl primary_key default.

Definition BooleanField (name : option string) (default : FieldDefault) : Field :=
  mkField "BooleanField" name "boolean" false default.

Definition IntegerField (name : option string) (primary_key : bool)
    (default : FieldDefault) : Field :=
  mkField "IntegerField" name "biginit" primary_key default.

Definition FloatField (name : option string) (primary_key : bool)
    (default : FieldDefault) : Field :=
  mkField "FloatField" name "real" primary_key default.

Definition TextField (name : option string) (default : FieldDefault) : Field :=
  mkField "TextField" name "text" false default.

(** *** Class bodies *)

(** What a class body binds a name to: a [Field], or any other object, of
    which only the truth value and the [str()] rendering are observed. *)
Inductive AttrVal : Type :=
| AField (f : Field)
| AObj (truthy : bool) (str : string).

(** A string bound in the class body, such as [__table__ = 'users']. *)
Definition AStr (s : string) : AttrVal := AObj (str_truthy s) s.

Definition Attrs : Type := list (string * AttrVal).

(** [attrs.get(key, None)] *)
Fixpoint attrs_get (key : string) (attrs : Attrs) : option AttrVal :=
  match attrs with
  | [] => None
  | (k, v) :: rest => if String.eqb k key then Some v else attrs_get key rest
  end.

(** [attrs.get('__table__', None) or name], as formatted by [%s] *)
Definition table_name (name : string) (attrs : Attrs) : string :=
  match attrs_get "__table__" attrs with
  | Some (AField f) => Field_str f
  | Some (AObj true s) => s
  | Some (AObj false _) | None => name
  end.

(** The three accumulators of the scan over [attrs.items()]. *)
Record Scan : Type := mkScan {
  mappings : gmap string Field;
  fields : list string;
  primaryKey : option string
}.

Definition scan_init : Scan := mkScan ∅ [] None.

(** [if primaryKey:] on a variable that holds [None] or a [str]. *)
Definition primaryKey_truthy (o : option string) : bool :=
  match o with
  | Some k => str_truthy k
  | None => false
  end.

(** The loop [for k, v in attrs.items(): ...] of [ModelMetaclass.__new__]. *)
Fixpoint scan (items : Attrs) (st : Scan) : Exn + Scan :=
  match items with
  | [] => inr st
  | (k, AField v) :: rest =>
      let m := <[k := v]> (mappings st) in
      if primary_key v then
        if primaryKey_truthy (primaryKey st)
        then inl (RuntimeError ("Duplicate primary key for field: " +:+ k))
        else scan rest (mkScan m (fields st) (Some k))
      else scan rest (mkScan m (fields st ++ [k]) (primaryKey st))
  | (_, AObj _ _) :: rest => scan rest st
  end.

(** [attrs.pop(k)] for every [k] in [mappings.keys()] *)
Definition pop_mapped (m : gmap string Field) (attrs : Attrs) : Attrs :=
  filter (λ kv, m !! kv.1 = None) attrs.

(** [r"`%s`" % f] *)
Definition escape (f : string) : string := "`" +:+ f +:+ "`".

(** [create_args_string(num)]: the loop appends one ['?'] per round. *)
Definition create_args_string (num : nat) : string :=
  join ", " (fold_left (λ L _, L ++ ["?"%string]) (seq 0 num) []).

Definition select_template (tableName primaryKey : string)
    (escaped_fields : list string) : string :=
  "select `" +:+ primaryKey +:+ "`," +:+ join "," escaped_fields
    +:+ " from `" +:+ tableName +:+ "`".

(** [mappings.get(f).name or f]: [AttributeError] when [f] is not mapped. *)
Definition column_of (m : gmap string Field) (f : string) : Exn + string :=
  match m !! f with
  | None => inl (AttributeError "'NoneType' object has no attribute 'name'")
  | Some fld =>
      match name fld with
      | Some n => if str_truthy n then inr n else inr f
      | None => inr f
      end
  end.

(** [map(lambda f: '`%s`=?' % (mappings.get(f).name or f), fields)] *)
Fixpoint set_clauses (m : gmap string Field) (fs : list string)
    : Exn + list string :=
  match fs with
  | [] => inr []
  | f :: rest =>
      match column_of m f with
      | inl e => inl e
      | inr c =>
          match set_clauses m rest with
          | inl e => inl e
          | inr cs => inr (("`" +:+ c +:+ "`=?") :: cs)
          end
      end
  end.

Definition update_template (tableName primaryKey : string)
    (clauses : list string) : string :=
  "update `" +:+ tableName +:+ "` set " +:+ join ", " clauses
    +:+ " where `" +:+ primaryKey +:+ "`=?".

Definition delete_template (tableName primaryKey : string) : string :=
  "delete from `" +:+ tableName +:+ "` where `" +:+ primaryKey +:+ "`=?".

Definition insert_template (tableName primaryKey : string)
    (escaped_fields : list string) : string :=
  "insert into `" +:+ tableName +:+ "` (" +:+ join ", " escaped_fields
    +:+ ", `" +:+ primaryKey +:+ "`) values ("
    +:+ create_args_string (length escaped_fields + 1) +:+ ")".

(** The class attributes the metaclass installs. *)
Record Schema : Type := mkSchema {
  __mappings__ : gmap string Field;
  __table__ : string;
  __primary_key__ : string;
  __fields__ : list string;
  __select__ : string;
  __update__ : string;
  __delete__ : string;
  __insert__ : string;
  other_attrs : Attrs           (* what is left of [attrs] after the pops *)
}.

(** What [ModelMetaclass.__new__] returns. *)
Inductive Class : Type :=
| PlainClass (attrs : Attrs)    (* [type.__new__] on the untouched [attrs] *)
| ModelClass (s : Schema).

Definition ModelMetaclass_new (name : string) (attrs : Attrs) : Exn + Class :=
  if String.eqb name "Model" then inr (PlainClass attrs)
  else
    let tableName := table_name name attrs in
    match scan attrs scan_init with
    | inl e => inl e
    | inr st =>
        if negb (primaryKey_truthy (primaryKey st))
        then inl (RuntimeError "Priamry key not found.")
        else
          let pk := from_option id ""%string (primaryKey st) in
          let rest := pop_mapped (mappings st) attrs in
          let escaped_fields := map escape (fields st) in
          match set_clauses (mappings st) (fields st) with
          | inl e => inl e
          | inr clauses =>
              inr (ModelClass
                     (mkSchema (mappings st) tableName pk (fields st)
                        (select_template tableName pk escaped_fields)
                        (update_template tableName pk clauses)
                        (delete_template tableName pk)
                        (insert_template tableName pk escaped_fields)
                        rest))
          end
    end.

(** Names of the declared fields with, and without, the primary-key flag, in
    the order of [attrs.items()]. *)
Definition pk_names (attrs : Attrs) : list string :=
  omap (λ kv, match kv.2 with
              | AField f => if primary_key f then Some kv.1 else None
              | AObj _ _ => None
              end) attrs.

Definition nonkey_names (attrs : Attrs) : list string :=
  omap (λ kv, match kv.2 with
              | AField f => if primary_key f then None else Some kv.1
              | AObj _ _ => None
              end) attrs.

(** The declared fields as the scan stores them: a later binding of a name
    replaces an earlier one. *)
Definition declared_fields (attrs : Attrs) (m : gmap string Field)
    : gmap string Field :=
  fold_left (λ acc kv, match kv.2 with
                       | AField f => <[kv.1 := f]> acc
                       | AObj _ _ => acc
                       end) attrs m.

(** The column a field is stored in: [field.name or f]. *)
Definition column_name (m : gmap string Field) (f : string) : string :=
  match column_of m f with
  | inr c => c
  | inl _ => f
  end.

(** A binding of the class body under a Python identifier: the name is not
    empty. *)
Definition named : string * AttrVal → Prop := λ kv, kv.1 ≠ ""%string.

(** The schema the metaclass derives from the parts found by the scan. *)
Definition derived_schema (cname : string) (attrs : Attrs) (pk : string) : Schema :=
  let m := declared_fields attrs ∅ in
  let T := table_name cname attrs in
  let fs := nonkey_names attrs in
  mkSchema m T pk fs
    (select_template T pk (map escape fs))
    (update_template T pk (map (λ f, "`" +:+ column_name m f +:+ "`=?") fs))
    (delete_template T pk)
    (insert_template T pk (map escape fs))
    (pop_mapped m attrs).

(** A sample entity, used to run the definitions: a generated string key, a
    column without default, one with a static default and one stored under a
    column name of its own. *)
Definition sample_attrs : Attrs :=
  [ ("__table__"%string, AStr "users");
    ("id"%string,
     AField (StringField None true (DCallable (λ n, VInt (Z.of_nat n))) "varchar(50)"));
    ("email"%string, AField (StringField None false (DValue VNone) "varchar(50)"));
    ("admin"%string, AField (BooleanField None (DValue (VBool false))));
    ("name"%string,
     AField (StringField (Some "user_name"%string) false (DValue VNone) "varchar(50)")) ].

Definition sample_schema : Schema := derived_schema "User" sample_attrs "id".

(** *** Instances, the driver and the runtime state *)

(** A [Model] instance is a [dict]; attribute access goes through
    [__getattr__] and [__setattr__] to its items. Field names are taken not to
    clash with the methods of [dict] and [Model], as in every model of the
    repository. *)
Abbreviation Instance := (gmap string PyVal).

Abbreviation Row := (gmap string PyVal).

(** What each call into the pool and the driver answers. [None] is a normal
    return. During one [execute] or [select] no operation is called twice, so
    one answer per operation describes every behaviour of the driver. *)
Record Driver : Type := mkDriver {
  on_acquire : option Exn;                        (* [yield from __pool] *)
  on_begin : option Exn;                          (* [conn.begin()] *)
  on_cursor : option Exn;                         (* [conn.cursor(...)] *)
  on_execute : string → list PyVal → option Exn;  (* [cur.execute(sql, args)] *)
  rowcount : string → list PyVal → Z;             (* [cur.rowcount] afterwards *)
  on_fetch : string → list PyVal → Exn + list Row; (* the result set *)
  on_close : option Exn;                          (* [cur.close()] *)
  on_commit : option Exn;                         (* [conn.commit()] *)
  on_rollback : option Exn                        (* [conn.rollback()] *)
}.

Inductive Event : Type :=
| EvInfo (msg : string)
| EvDebug (key : string) (v : PyVal)      (* 'using default value for %s:%s' *)
| EvWarn (msg : string) (rows : Z)        (* [logging.warn(msg % rows)] *)
| EvAcquire
| EvRelease
| EvBegin
| EvCursor
| EvExecute (sql : string) (args : list PyVal)
| EvFetch (size : option nat)
| EvClose
| EvCommit
| EvRollback.

Record Runtime : Type := mkRuntime {
  self : Instance;                 (* the instance a method is called on *)
  ticks : nat;                     (* default generators invoked so far *)
  heap : gmap nat (list PyVal);    (* the list objects, by identity *)
  trace : list Event               (* what has been done, oldest first *)
}.

Definition emit (e : Event) : M Runtime unit :=
  modify (λ rt, mkRuntime (self rt) (ticks rt) (heap rt) (trace rt ++ [e])).

(** A call into the driver: recorded, then it returns or raises. *)
Definition driver_call (e : Event) (answer : option Exn) : M Runtime unit :=
  (emit e;;;
   match answer with
   | Some exn => raise exn
   | None => ret tt
   end)%py.

(** [log(sql)] *)
Definition log (sql : string) : M Runtime unit :=
  emit (EvInfo ("SQL:" +:+ sql)).

(** [with (yield from __pool) as conn: body]: the connection goes back to the
    pool on every way out of [body]. *)
Definition with_conn {A} (drv : Driver) (body : M Runtime A) : M Runtime A :=
  (driver_call EvAcquire (on_acquire drv);;;
   try_except (a <- body;; emit EvRelease;;; ret a)
              (λ e, emit EvRelease;;; raise e))%py.

Definition when (b : bool) (m : M Runtime unit) : M Runtime unit :=
  if b then m else ret tt.

(** [execute(sql, args, autocommit=True)] *)
Definition execute (drv : Driver) (sql : string) (args : list PyVal)
    (autocommit : bool) : M Runtime Z :=
  (log sql;;;
   with_conn drv
     (when (negb autocommit) (driver_call EvBegin (on_begin drv));;;
      try_except
        (driver_call EvCursor (on_cursor drv);;;
         let stmt := replace_qmark sql in
         driver_call (EvExecute stmt args) (on_execute drv stmt args);;;
         let affected := rowcount drv stmt args in
         driver_call EvClose (on_close drv);;;
         when (negb autocommit) (driver_call EvCommit (on_commit drv));;;
         ret affected)
        (λ e,
           when (negb autocommit) (driver_call EvRollback (on_rollback drv));;;
           raise e)))%py.

(** [select(sql, args, size=None)]; [if size:] is false for [None] and [0]. *)
Definition select (drv : Driver) (sql : string) (args : list PyVal)
    (size : option nat) : M Runtime (list Row) :=
  (log sql;;;
   with_conn drv
     (driver_call EvCursor (on_cursor drv);;;
      let stmt := replace_qmark sql in
      driver_call (EvExecute stmt args) (on_execute drv stmt args);;;
      emit (EvFetch size);;;
      rs <- match on_fetch drv stmt args with
            | inl e => raise e
            | inr rows =>
                match size with
                | Some (S n) => ret (take (S n) rows)
                | Some O | None => ret rows
                end
            end;;
      driver_call EvClose (on_close drv);;;
      emit (EvInfo "rows returned");;;
      ret rs))%py.

(** [Model.getValue]: [getattr(self, key, None)] *)
Definition getattr_or_None (inst : Instance) (key : string) : PyVal :=
  match inst !! key with
  | Some v => v
  | None => VNone
  end.

Definition getValue (key : string) : M Runtime PyVal :=
  gets (λ rt, getattr_or_None (self rt) key).

(** [setattr(self, key, value)], that is [self[key] = value] *)
Definition setattr (key : string) (value : PyVal) : M Runtime unit :=
  modify (λ rt, mkRuntime (<[key := value]> (self rt)) (ticks rt) (heap rt) (trace rt)).

(** Invoking a default generator. *)
Definition call_default (g : nat → PyVal) : M Runtime PyVal :=
  λ rt, (inr (g (ticks rt)),
         mkRuntime (self rt) (S (ticks rt)) (heap rt) (trace rt)).

(** [Model.getValueOrDefault] *)
Definition getValueOrDefault (cls : Schema) (key : string) : M Runtime PyVal :=
  (value <- getValue key;;
   match value with
   | VNone =>
       match __mappings__ cls !! key with
       | None => raise (KeyError key)
       | Some field =>
           match default field with
           | DValue VNone => ret VNone
           | DValue v =>
               emit (EvDebug key v);;; setattr key v;;; ret v
           | DCallable g =>
               v <- call_default g;;
               emit (EvDebug key v);;; setattr key v;;; ret v
           end
       end
   | _ => ret value
   end)%py.

(** [if rows != 1: logging.warn(msg % rows)] *)
Definition warn_unless_one (msg : string) (rows : Z) : M Runtime unit :=
  if Z.eqb rows 1 then ret tt else emit (EvWarn msg rows).

(** [Model.save] *)
Definition save (drv : Driver) (cls : Schema) : M Runtime unit :=
  (args <- mapM (getValueOrDefault cls) (__fields__ cls);;
   pk <- getValueOrDefault cls (__primary_key__ cls);;
   let args := args ++ [pk] in
   rows <- execute drv (__insert__ cls) args true;;
   warn_unless_one "failed to insert record: affected rows: %s" rows)%py.

(** [Model.update] *)
Definition update (drv : Driver) (cls : Schema) : M Runtime unit :=
  (args <- mapM getValue (__fields__ cls);;
   pk <- getValue (__primary_key__ cls);;
   let args := args ++ [pk] in
   rows <- execute drv (__update__ cls) args true;;
   warn_unless_one "failed to update by primary key: affected rows: %s" rows)%py.

(** [Model.remove] *)
Definition remove (drv : Driver) (cls : Schema) : M Runtime unit :=
  (pk <- getValue (__primary_key__ cls);;
   let args := [pk] in
   rows <- execute drv (__delete__ cls) args true;;
   warn_unless_one "failed to remove by primary key: affected rows: %s" rows)%py.

(** What [save], [update] and [remove] do once [execute] has run: a count is
    compared with 1 and at most logged, an exception passes through. *)
Definition after_execute (msg : string) (r : (Exn + Z) * Runtime)
    : (Exn + unit) * Runtime :=
  match r with
  | (inr rows, rt) => warn_unless_one msg rows rt
  | (inl e, rt) => (inl e, rt)
  end.

(** The columns a statement binds: the non-key fields, then the key. *)
Definition bound_columns (cls : Schema) : list string :=
  __fields__ cls ++ [__primary_key__ cls].

(** No ['?'] in a name. *)
Definition qfree (s : string) : Prop := count_char "?" s = O.

(** The runtime with further events in its trace. *)
Definition add_trace (rt : Runtime) (evs : list Event) : Runtime :=
  mkRuntime (self rt) (ticks rt) (heap rt) (trace rt ++ evs).

(** The first call of the [try] body of a non-autocommit [execute] that
    raises, with the calls made up to and including it; [None] when the
    cursor, the statement, the close and the commit all return. *)
Definition first_failure (drv : Driver) (stmt : string) (args : list PyVal)
    : option (Exn * list Event) :=
  match on_cursor drv with
  | Some e => Some (e, [EvCursor])
  | None =>
      match on_execute drv stmt args with
      | Some e => Some (e, [EvCursor; EvExecute stmt args])
      | None =>
          match on_close drv with
          | Some e => Some (e, [EvCursor; EvExecute stmt args; EvClose])
          | None =>
              match on_commit drv with
              | Some e =>
                  Some (e, [EvCursor; EvExecute stmt args; EvClose; EvCommit])
              | None => None
              end
          end
      end
  end.

(** A driver on which every call returns and every statement affects [n]
    rows, and one that has lost its connection: the statement fails and so
    does the rollback. *)
Definition steady_driver (n : Z) : Driver :=
  mkDriver None None None (λ _ _, None) (λ _ _, n) (λ _ _, inr []) None None None.

Definition lost_connection : Driver :=
  mkDriver None None None (λ _ _, Some (DriverError 1)) (λ _ _, 0)
    (λ _ _, inl (DriverError 1)) None None (Some (DriverError 2)).

(** A driver whose statement does not come back: the coroutine is closed
    while it waits for the database, which raises [GeneratorExit] there. *)
Definition closed_while_waiting : Driver :=
  mkDriver None None None (λ _ _, Some (NonException "GeneratorExit")) (λ _ _, 0)
    (λ _ _, inr []) None None None.

(** A runtime whose instance has only [email] set, and one list object. *)
Definition sample_runtime : Runtime :=
  mkRuntime {[ "email"%string := VStr "hi@example.com" ]} 0
    {[ 7%nat := [VStr "hi@example.com"] ]} [].

(** *** [Model.findAll] *)

(** Truth value of an argument that is [None] or a [str]. *)
Definition opt_truthy (o : option string) : bool :=
  match o with
  | Some s => str_truthy s
  | None => false
  end.

(** [args = []]: a new list object. *)
Definition new_list : M Runtime nat :=
  λ rt, let l := fresh (dom (heap rt)) in
        (inr l, mkRuntime (self rt) (ticks rt) (<[l := []]> (heap rt)) (trace rt)).

(** [args.extend(vs)] on the list object [l]; [append] is the case of one
    value. *)
Definition list_extend (l : nat) (vs : list PyVal) : M Runtime unit :=
  modify (λ rt, mkRuntime (self rt) (ticks rt)
                  (alter (λ xs, xs ++ vs) l (heap rt)) (trace rt)).

(** The items of the list object [l]. *)
Definition list_items (l : nat) : M Runtime (list PyVal) :=
  gets (λ rt, match heap rt !! l with Some xs => xs | None => [] end).

(** [findAll(cls, where=None, args=None, orderBy=..., limit=...)]; [args] is
    [None] or a reference to the caller's list. Each result row stands for the
    instance built from it. *)
Definition findAll (drv : Driver) (cls : Schema) (where_ : option string)
    (args : option nat) (orderBy : option string) (limit : PyVal)
    : M Runtime (list Instance) :=
  (let sql := [__select__ cls] in
   let sql := if opt_truthy where_
              then sql ++ ["where"%string; from_option id ""%string where_]
              else sql in
   args <- match args with
           | None => new_list
           | Some l => ret l
           end;;
   let sql := if opt_truthy orderBy
              then sql ++ ["order by"%string; from_option id ""%string orderBy]
              else sql in
   sql <- match limit with
          | VNone => ret sql
          | _ =>
              let sql := sql ++ ["limit"%string] in
              if is_int limit then
                list_extend args [limit];;; ret (sql ++ ["?"%string])
              else
                match limit with
                | VTuple [a; b] =>
                    list_extend args [a; b];;; ret (sql ++ ["?,?"%string])
                | _ => raise (ValueError "Invalid limit value: %s" limit)
                end
          end;;
   items <- list_items args;;
   rs <- select drv (join " " sql) items None;;
   ret rs)%py.

(** The statement of [findAll] before the limit: the select template, the
    filter and the ordering. *)
Definition query_parts (cls : Schema) (where_ orderBy : option string)
    : list string :=
  [__select__ cls]
  ++ (if opt_truthy where_
      then ["where"%string; from_option id ""%string where_] else [])
  ++ (if opt_truthy orderBy
      then ["order by"%string; from_option id ""%string orderBy] else []).

(** The values a well-formed limit stands for: a row cap, or an offset and a
    count. *)
Definition limit_values (limit : PyVal) : option (list PyVal) :=
  if is_int limit then Some [limit]
  else match limit with
       | VTuple [a; b] => Some [a; b]
       | _ => None
       end.

(** The placeholders that go with them. *)
Definition limit_placeholders (limit : PyVal) : string :=
  if is_int limit then "?" else "?,?".

(** The runtime in which the list object [l] holds [items]. *)
Definition set_list (rt : Runtime) (l : nat) (items : list PyVal) : Runtime :=
  mkRuntime (self rt) (ticks rt) (<[l := items]> (heap rt)) (trace rt).

(** *** [Model.find] and [Model.findNumber] *)

(** [find(cls, pk)]: [None] when no row comes back, else the instance built
    from the first row. *)
Definition find (drv : Driver) (cls : Schema) (pk : PyVal)
    : M Runtime (option Instance) :=
  (rs <- select drv
           (__select__ cls +:+ " where `" +:+ __primary_key__ cls +:+ "`=?")
           [pk] (Some 1%nat);;
   match rs with
   | [] => ret None
   | r :: _ => ret (Some r)
   end)%py.

(** [findNumber(cls, selectField, where=None, args=None)]; [args] is [None]
    or a reference to a list, and [select] turns [None] and the empty list
    into no arguments. The subscript [rs[0]['_num_']] raises [KeyError] when
    the row has no such column. *)
Definition findNumber (drv : Driver) (cls : Schema) (selectField : string)
    (where_ : option string) (args : option nat) : M Runtime PyVal :=
  (let sql := ["select " +:+ selectField +:+ " _num_ from `"
               +:+ __table__ cls +:+ "`"] in
   let sql := if opt_truthy where_
              then sql ++ ["where"%string; from_option id ""%string where_]
              else sql in
   items <- match args with
            | None => ret []
            | Some l => list_items l
            end;;
   rs <- select drv (join " " sql) items (Some 1%nat);;
   match rs with
   | [] => ret VNone
   | r :: _ =>
       match r !! "_num_"%string with
       | Some v => ret v
       | None => raise (KeyError "_num_")
       end
   end)%py.

(** Recognisers of events. *)
Definition is_acquire (e : Event) : bool :=
  match e with EvAcquire => true | _ => false end.

Definition is_release (e : Event) : bool :=
  match e with EvRelease => true | _ => false end.

Definition is_transaction_call (e : Event) : bool :=
  match e with EvBegin | EvCommit | EvRollback => true | _ => false end.

Definition is_driver_call (e : Event) : bool :=
  match e with
  | EvInfo _ | EvDebug _ _ | EvWarn _ _ => false
  | _ => true
  end.

(** The events a run has added to the trace. *)
Definition new_events (before after : Runtime) : list Event :=
  drop (length (trace before)) (trace after).

(** A driver that differs from [drv] in what begin, commit and rollback
    answer. *)
Definition with_transaction_answers (drv : Driver)
    (b c r : option Exn) : Driver :=
  mkDriver (on_acquire drv) b (on_cursor drv) (on_execute drv) (rowcount drv)
    (on_fetch drv) (on_close drv) c r.

(** The driver answers the statement [sql] on [args] with the rows [rows],
    every call returning. *)
Definition serves (drv : Driver) (sql : string) (args : list PyVal)
    (rows : list Row) : Prop :=
  on_acquire drv = None ∧ on_cursor drv = None
  ∧ on_execute drv (replace_qmark sql) args = None
  ∧ on_fetch drv (replace_qmark sql) args = inr rows
  ∧ on_close drv = None.

(** A class attribute that is a [Field]. *)
Definition is_field (v : AttrVal) : bool :=
  match v with AField _ => true | AObj _ _ => false end.

(** A driver that answers every query with the rows [rows]. *)
Definition serving (rows : list Row) : Driver :=
  mkDriver None None None (λ _ _, None) (λ _ _, 0) (λ _ _, inr rows)
    None None None.

End Orm.

(** ** The part of aiohttp the code builds its answers with

    aiohttp is not part of the repository. [web.Response] is modelled after its
    signature: the parameters [body=None], [status=200], [reason=None],
    [text=None], [headers=None], [content_type=None] and [charset=None] are
    all keyword-only. So are the parameters of [web.HTTPBadRequest]
    ([headers], [reason], [body], [text], [content_type]): a call with a
    positional argument raises [TypeError]. [web.HTTPFound] takes the location
    as its positional parameter. *)

Module Aiohttp.

Inductive StreamResponse : Type :=
| HTTPBadRequest (msg : string)
| HTTPFound (location : string)
| Response (status : Z) (body : string) (content_type : string).

(** [web.Response] called with the arguments [positional] and the keywords
    [body], [status] and [text], where given. *)
Definition web_Response (positional : list PyVal)
    (body : option string) (status : option Z) (text : option string)
    : Exn + StreamResponse :=
  match positional with
  | _ :: _ =>
      inl (TypeError "__init__() takes 1 positional argument but more were given")
  | [] =>
      let st := from_option id 200 status in
      match body, text with
      | Some _, Some _ =>
          inl (ValueError "body and text are not allowed together" VNone)
      | Some b, None => inr (Response st b "application/octet-stream")
      | None, Some t => inr (Response st t "text/plain")
      | None, None => inr (Response st "" "application/octet-stream")
      end
  end.

(** [web.HTTPBadRequest] called with the arguments [positional] and the
    keyword [text], where given; without a text the body is the status
    line. *)
Definition web_HTTPBadRequest (positional : list PyVal) (text : option string)
    : Exn + StreamResponse :=
  match positional with
  | _ :: _ =>
      inl (TypeError "__init__() takes 1 positional argument but more were given")
  | [] => inr (HTTPBadRequest (from_option id "400: Bad Request" text))
  end.

(** [resp.content_type = ct] *)
Definition set_content_type (ct : string) (r : StreamResponse) : StreamResponse :=
  match r with
  | Response st b _ => Response st b ct
  | other => other
  end.

End Aiohttp.

(** What a handler, or the dispatcher in its place, hands to the response
    middleware: a response object or any other Python value. *)
Inductive RetVal : Type :=
| RStream (r : Aiohttp.StreamResponse)
| RPy (v : PyVal).

(** ** Route binding ([www/web_frame.py]) *)

Module WebFrame.

Inductive ParamKind : Type :=
| POSITIONAL_ONLY
| POSITIONAL_OR_KEYWORD
| VAR_POSITIONAL
| KEYWORD_ONLY
| VAR_KEYWORD.

#[global] Instance ParamKind_eq_dec : EqDecision ParamKind.
Proof. solve_decision. Defined.

(** One entry of [inspect.signature(fn).parameters]. *)
Record Param : Type := mkParam {
  pname : string;
  kind : ParamKind;
  has_default : bool          (* [param.default != inspect.Parameter.empty] *)
}.

(** A keyword argument: a value, or the request object itself. *)
Inductive KwVal : Type :=
| KwV (v : PyVal)
| KwRequest.

(** A URL handler: its signature and what a call with the keyword arguments
    [kw] does. *)
Record Fn : Type := mkFn {
  parameters : list Param;
  run : gmap string KwVal → Exn + RetVal
}.

Definition is_kind (k : ParamKind) (p : Param) : bool :=
  bool_decide (kind p = k).

Definition get_required_kw_args (fn : Fn) : list string :=
  map pname
    (List.filter (λ p, is_kind KEYWORD_ONLY p && negb (has_default p))
       (parameters fn)).

Definition get_named_kw_args (fn : Fn) : list string :=
  map pname (List.filter (is_kind KEYWORD_ONLY) (parameters fn)).

Definition has_named_kw_args (fn : Fn) : bool :=
  existsb (is_kind KEYWORD_ONLY) (parameters fn).

Definition has_var_kw_arg (fn : Fn) : bool :=
  existsb (is_kind VAR_KEYWORD) (parameters fn).

(** The loop of [has_request_arg], with its flag [found]. *)
Fixpoint has_request_arg_loop (ps : list Param) (found : bool) : Exn + bool :=
  match ps with
  | [] => inr found
  | p :: rest =>
      if String.eqb (pname p) "request" then has_request_arg_loop rest true
      else if found && negb (is_kind VAR_POSITIONAL p)
                    && negb (is_kind KEYWORD_ONLY p)
                    && negb (is_kind VAR_KEYWORD p)
      then inl (ValueError
                  "request parameter must be the last named parameter in function: %s%s"
                  VNone)
      else has_request_arg_loop rest found
  end.

Definition has_request_arg (fn : Fn) : Exn + bool :=
  has_request_arg_loop (parameters fn) false.

Record RequestHandler : Type := mkRequestHandler {
  _func : Fn;
  _has_request_arg : bool;
  _has_var_kw_arg : bool;
  _has_named_kw_args : bool;
  _named_kw_args : list string;
  _required_kw_args : list string
}.

(** [RequestHandler.__init__] *)
Definition RequestHandler_init (fn : Fn) : Exn + RequestHandler :=
  match has_request_arg fn with
  | inl e => inl e
  | inr req =>
      inr (mkRequestHandler fn req (has_var_kw_arg fn) (has_named_kw_args fn)
             (get_named_kw_args fn) (get_required_kw_args fn))
  end.

(** What the dispatcher reads of a request. The body parsers and
    [parse.parse_qs] are given by their results. *)
Record Request : Type := mkRequest {
  method : string;
  content_type : string;
  json : Exn + PyVal;                      (* [yield from request.json()] *)
  post : Exn + list (string * PyVal);      (* the items of [request.post()] *)
  query_string : string;
  parse_qs : list (string * (string * list string));
      (* the items of [parse_qs(qs, True)]: a key, its first value, the others *)
  match_info : list (string * string)      (* [request.match_info.items()] *)
}.

(** [kw[k] = v] for each item in turn; from the empty [kw], the [dict] made
    of the items. *)
Definition kw_update {V} (inj : V → KwVal) (items : list (string * V))
    (kw : gmap string KwVal) : gmap string KwVal :=
  fold_left (λ acc kv, <[kv.1 := inj kv.2]> acc) items kw.

(** [return web.HTTPBadRequest(msg)]: the call is evaluated first, and what
    it raises leaves [__call__]. *)
Definition bad_request {A} (msg : string) : Exn + (RetVal + A) :=
  match Aiohttp.web_HTTPBadRequest [VStr msg] None with
  | inl e => inl e
  | inr resp => inr (inl (RStream resp))
  end.

(** The first stage of [__call__]: an early answer where the call that
    builds it returns, or [kw], which stays [None] when the request brought
    no parameters. *)
Definition parse_request (h : RequestHandler) (request : Request)
    : Exn + (RetVal + option (gmap string KwVal)) :=
  if _has_var_kw_arg h || _has_named_kw_args h
     || negb (Nat.eqb (length (_required_kw_args h)) 0)
  then
    if String.eqb (method request) "POST" then
      if negb (str_truthy (content_type request))
      then bad_request "Missing Content-Type."
      else
        let ct := lower (content_type request) in
        if startswith ct "application/json" then
          match json request with
          | inl e => inl e
          | inr (VDict items) => inr (inr (Some (kw_update KwV items ∅)))
          | inr _ => bad_request "JSON body must be object."
          end
        else if startswith ct "application/x-www-form-urlencoded"
                || startswith ct "multipart/form-data"
        then
          match post request with
          | inl e => inl e
          | inr items => inr (inr (Some (kw_update KwV items ∅)))
          end
        else
          bad_request ("Unsupported Content-Type: " +:+ content_type request)
    else if String.eqb (method request) "GET" then
      if str_truthy (query_string request)
      then inr (inr (Some (kw_update (λ v, KwV (VStr v.1)) (parse_qs request) ∅)))
      else inr (inr None)
    else inr (inr None)
  else inr (inr None).

(** [copy]: the entries of [kw] under the named keyword arguments. *)
Definition keep_named (named : list string) (kw : gmap string KwVal)
    : gmap string KwVal :=
  fold_left (λ copy name, match kw !! name with
                          | Some v => <[name := v]> copy
                          | None => copy
                          end) named ∅.

(** The second stage: [kw] against [match_info] and the signature. *)
Definition reconcile (h : RequestHandler) (request : Request)
    (kw : option (gmap string KwVal)) : gmap string KwVal :=
  let kw :=
    match kw with
    | None => kw_update (λ v, KwV (VStr v)) (match_info request) ∅
    | Some kw =>
        let kw :=
          if negb (_has_var_kw_arg h)
             && negb (Nat.eqb (length (_named_kw_args h)) 0)
          then keep_named (_named_kw_args h) kw
          else kw in
        kw_update (λ v, KwV (VStr v)) (match_info request) kw
    end in
  if _has_request_arg h then <["request" := KwRequest]> kw else kw.

(** [for name in self._required_kw_args: if name not in kw: return ...]:
    the first required name that is not a key of [kw], if any. *)
Fixpoint check_required (required : list string) (kw : gmap string KwVal)
    : option string :=
  match required with
  | [] => None
  | name :: rest =>
      match kw !! name with
      | None => Some name
      | Some _ => check_required rest kw
      end
  end.

(** Everything [__call__] does before the handler is invoked: an early answer,
    or the keyword arguments of the invocation. *)
Definition bind_arguments (h : RequestHandler) (request : Request)
    : Exn + (RetVal + gmap string KwVal) :=
  match parse_request h request with
  | inl e => inl e
  | inr (inl early) => inr (inl early)
  | inr (inr kw) =>
      let kw := reconcile h request kw in
      match check_required (_required_kw_args h) kw with
      | Some name => bad_request ("Missing argument: " +:+ name)
      | None => inr (inr kw)
      end
  end.

(** [RequestHandler.__call__] *)
Definition RequestHandler_call (h : RequestHandler) (request : Request)
    : Exn + RetVal :=
  match bind_arguments h request with
  | inl e => inl e
  | inr (inl early) => inr early
  | inr (inr kw) =>
      match run (_func h) kw with
      | inr r => inr r
      | inl (APIError error data message) =>
          inr (RPy (VDict [("error", VStr error); ("data", VStr data);
                           ("message", VStr message)]))
      | inl e => inl e
      end
  end.

(** What [__call__] returns once the handler has run on [kw]. *)
Definition handler_outcome (h : RequestHandler) (kw : gmap string KwVal)
    : Exn + RetVal :=
  match run (_func h) kw with
  | inr r => inr r
  | inl (APIError error data message) =>
      inr (RPy (VDict [("error", VStr error); ("data", VStr data);
                       ("message", VStr message)]))
  | inl e => inl e
  end.

(** A handler of the repository, [api_create_comment(id, request, *, content)]
    on the route [/api/blogs/{id}/comments], with a body that carries one key
    more than the handler names. *)
Definition api_create_comment : Fn :=
  mkFn [mkParam "id" POSITIONAL_OR_KEYWORD false;
        mkParam "request" POSITIONAL_OR_KEYWORD false;
        mkParam "content" KEYWORD_ONLY false]
       (λ _, inr (RPy VNone)).

Definition create_comment_handler : RequestHandler :=
  mkRequestHandler api_create_comment true false true ["content"%string]
    ["content"%string].

Definition create_comment_request : Request :=
  mkRequest "POST" "application/json"
    (inr (VDict [("content"%string, VStr "hi"); ("extra"%string, VStr "x")]))
    (inr []) "" [] [("id"%string, "42"%string)].

(** The same request without the key [content]. *)
Definition comment_without_content : Request :=
  mkRequest "POST" "application/json"
    (inr (VDict [("extra"%string, VStr "x")]))
    (inr []) "" [] [("id"%string, "42"%string)].

(** *** Registration *)

(** A callable of a module: its signature and behaviour, and the attributes
    [__method__] and [__route__], [None] unless a decorator has set them. *)
Record Callable : Type := mkCallable {
  func : Fn;
  __method__ : option string;
  __route__ : option string
}.

(** The decorators [get(path)] and [post(path)], the latter as [post_]: the
    wrapper keeps the signature of the function ([functools.wraps]) and
    passes its arguments on. *)
Definition get (path : string) (c : Callable) : Callable :=
  mkCallable (func c) (Some "GET"%string) (Some path).

Definition post_ (path : string) (c : Callable) : Callable :=
  mkCallable (func c) (Some "POST"%string) (Some path).

(** A function as [def] leaves it. *)
Definition plain (fn : Fn) : Callable := mkCallable fn None None.

(** The calls [app.router.add_route(method, path, handler)] made so far. *)
Definition Router : Type := list (string * string * RequestHandler).

(** [add_route(app, fn)] *)
Definition add_route (fn : Callable) : M Router unit :=
  match __method__ fn, __route__ fn with
  | Some method, Some path =>
      match RequestHandler_init (func fn) with
      | inl e => raise e
      | inr h => modify (λ router, router ++ [(method, path, h)])
      end
  | _, _ => raise (ValueError "@get or @post not defined in %s." VNone)
  end.

(** An attribute of a module: a callable or anything else. *)
Inductive ModAttr : Type :=
| IsCallable (c : Callable)
| NotCallable.

(** A module, by [dir(mod)] and [getattr(mod, attr)]. *)
Definition PyModule : Type := list (string * ModAttr).

(** [s.rfind('.')], counted from [i]: the index of the last dot, if any. *)
Fixpoint rfind_dot_from (i : nat) (s : string) : option nat :=
  match s with
  | EmptyString => None
  | String c rest =>
      match rfind_dot_from (S i) rest with
      | Some n => Some n
      | None => if Ascii.eqb c "."%char then Some i else None
      end
  end.

(** [s[:n]] *)
Fixpoint take_chars (n : nat) (s : string) : string :=
  match n, s with
  | S n', String c rest => String c (take_chars n' rest)
  | _, _ => EmptyString
  end.

(** The name [add_routes] hands to [__import__]. *)
Definition import_name (module_name : string) : string :=
  match rfind_dot_from 0 module_name with
  | None => module_name
  | Some n => take_chars n module_name
  end.

(** Truth value of an attribute that is [None] or a [str]. *)
Definition attr_truthy (o : option string) : bool :=
  match o with
  | Some s => str_truthy s
  | None => false
  end.

(** The body of the loop over [dir(mod)]. *)
Definition register_attr (item : string * ModAttr) : M Router unit :=
  if startswith item.1 "_" then ret tt
  else
    match item.2 with
    | NotCallable => ret tt
    | IsCallable fn =>
        if attr_truthy (__method__ fn) && attr_truthy (__route__ fn)
        then add_route fn
        else ret tt
    end.

Fixpoint register_all (items : PyModule) : M Router unit :=
  match items with
  | [] => ret tt
  | item :: rest => (register_attr item;;; register_all rest)%py
  end.

(** [add_routes(app, module_name)]; [import_] stands for [__import__]. *)
Definition add_routes (import_ : string → Exn + PyModule)
    (module_name : string) : M Router unit :=
  match import_ (import_name module_name) with
  | inl e => raise e
  | inr module => register_all module
  end.

(** The attributes [add_routes] registers. *)
Definition is_route (item : string * ModAttr) : bool :=
  negb (startswith item.1 "_")
  && match item.2 with
     | IsCallable fn => attr_truthy (__method__ fn) && attr_truthy (__route__ fn)
     | NotCallable => false
     end.

(** The route an attribute gives rise to, when its handler is accepted. *)
Definition route_of (item : string * ModAttr)
    : option (string * string * RequestHandler) :=
  match item.2 with
  | IsCallable fn =>
      match __method__ fn, __route__ fn, RequestHandler_init (func fn) with
      | Some method, Some path, inr h => Some (method, path, h)
      | _, _, _ => None
      end
  | NotCallable => None
  end.

(** A parameter named [request], and a named positional parameter. *)
Definition is_request (p : Param) : bool := String.eqb (pname p) "request".

Definition is_positional (p : Param) : bool :=
  is_kind POSITIONAL_ONLY p || is_kind POSITIONAL_OR_KEYWORD p.

(** A handler of the repository without keyword parameters,
    [api_delete_comments(id, request)]. *)
Definition api_delete_comments : Fn :=
  mkFn [mkParam "id" POSITIONAL_OR_KEYWORD false;
        mkParam "request" POSITIONAL_OR_KEYWORD false]
       (λ _, inr (RPy VNone)).

End WebFrame.

(** ** The response middleware ([www/app.py]) *)

Module App.

Section ResponseFactory.

(** Collaborators outside the core: [json.dumps], the template engine,
    [str()], and the user the authentication middleware put on the request. *)
Variable json_dumps : list (string * PyVal) → string.
Variable render : PyVal → list (string * PyVal) → Exn + string.
Variable py_str : PyVal → string.
Variable request_user : PyVal.

(** [r.get('__template__')] *)
Fixpoint dict_get (key : string) (items : list (string * PyVal)) : PyVal :=
  match items with
  | [] => VNone
  | (k, v) :: rest => if String.eqb k key then v else dict_get key rest
  end.

(** [r[key] = v] *)
Fixpoint dict_set (key : string) (v : PyVal) (items : list (string * PyVal))
    : list (string * PyVal) :=
  match items with
  | [] => [(key, v)]
  | (k, w) :: rest =>
      if String.eqb k key then (k, v) :: rest else (k, w) :: dict_set key v rest
  end.

(** An [int] in the range of the HTTP status codes. *)
Definition is_status (v : PyVal) : bool :=
  is_int v && (100 <=? int_value v) && (int_value v <? 600).

Definition with_content_type (ct : string) (r : Exn + Aiohttp.StreamResponse)
    : Exn + option Aiohttp.StreamResponse :=
  match r with
  | inl e => inl e
  | inr resp => inr (Some (Aiohttp.set_content_type ct resp))
  end.

Definition returned (r : Exn + Aiohttp.StreamResponse)
    : Exn + option Aiohttp.StreamResponse :=
  match r with
  | inl e => inl e
  | inr resp => inr (Some resp)
  end.

(** The inner function [response] of [response_factory], applied to what the
    handler returned. [None] stands for falling off the end of the function. *)
Definition response_factory (r : RetVal) : Exn + option Aiohttp.StreamResponse :=
  match r with
  | RStream resp => inr (Some resp)
  | RPy (VBytes b) =>
      with_content_type "application/octet-stream"
        (Aiohttp.web_Response [] (Some b) None None)
  | RPy (VStr s) =>
      if startswith s "redirect:"
      then inr (Some (Aiohttp.HTTPFound (drop_chars 9 s)))
      else with_content_type "text/html;charset=utf-8"
             (Aiohttp.web_Response [] (Some s) None None)
  | RPy (VDict items) =>
      match dict_get "__template__" items with
      | VNone =>
          with_content_type "application/json;charset=utf-8"
            (Aiohttp.web_Response [] (Some (json_dumps items)) None None)
      | template =>
          let items := dict_set "__user__" request_user items in
          match render template items with
          | inl e => inl e
          | inr page =>
              with_content_type "text/html;charset=utf-8"
                (Aiohttp.web_Response [] (Some page) None None)
          end
      end
  | RPy v =>
      if is_status v then returned (Aiohttp.web_Response [v] None None None)
      else
        match v with
        | VTuple [t; m] =>
            if is_status t
            then returned (Aiohttp.web_Response [] None (Some (int_value t))
                             (Some (py_str m)))
            else with_content_type "text/plain;charset=utf-8"
                   (Aiohttp.web_Response [] (Some (py_str v)) None None)
        | _ => inr None
        end
  end.

End ResponseFactory.

End App.

(** ** Helpers of the handlers ([www/handlers.py]) and the authentication
    middleware ([www/app.py])

    Calls to [logging] are left out of this part. *)

Module Handlers.

Import Orm.

(** [s.replace(c, by)] for a one-character [c]. *)
Fixpoint replace_char (c : ascii) (by_ : string) (s : string) : string :=
  match s with
  | EmptyString => EmptyString
  | String d rest =>
      if Ascii.eqb d c then by_ +:+ replace_char c by_ rest
      else String d (replace_char c by_ rest)
  end.

(** [s.split(sep)] for a one-character [sep]: one piece more than there are
    separators. *)
Fixpoint split_on (sep : ascii) (s : string) : list string :=
  match s with
  | EmptyString => [EmptyString]
  | String d rest =>
      if Ascii.eqb d sep then EmptyString :: split_on sep rest
      else match split_on sep rest with
           | piece :: pieces => String d piece :: pieces
           | [] => [String d EmptyString]
           end
  end.

(** Truth value of a Python value; an object of another type is true. *)
Definition truthy (v : PyVal) : bool :=
  match v with
  | VNone => false
  | VBool b => b
  | VInt n => negb (Z.eqb n 0)
  | VStr s | VBytes s => str_truthy s
  | VTuple items => negb (Nat.eqb (length items) 0)
  | VDict items => negb (Nat.eqb (length items) 0)
  | VObj _ => true
  end.

Section Helpers.

(** The builtins and collaborators the helpers call: [int] on a [str]
    ([None] for [ValueError]), [str] on a value that is not a [str],
    [s.strip() == ''], the SHA-1 hex digest of the UTF-8 encoding, the secret
    of the session configuration, and the comparison of an integer with the
    clock, [n < time.time()]. *)
Variable py_int : string → option Z.
Variable py_str : PyVal → string.
Variable is_blank : string → bool.
Variable sha1_hex : string → string.
Variable _COOKIE_KEY : string.
Variable before_now : Z → bool.

(** [get_page_index(page_str)] for a [str] *)
Definition get_page_index (page_str : string) : Z :=
  let p := match py_int page_str with
           | Some n => n
           | None => 1
           end in
  if p <? 1 then 1 else p.

(** The escaping of one line in [text2html]. *)
Definition escape_line (s : string) : string :=
  replace_char ">" "&gt;" (replace_char "<" "&lt;" (replace_char "&" "&amp;" s)).

(** [text2html(text)] *)
Definition text2html (text : string) : string :=
  join ""
    (map (λ s, "<p>" +:+ escape_line s +:+ "</p>")
       (List.filter (λ s, negb (is_blank s)) (split_on "010" text))).

(** ['%s' % v] *)
Definition fmt (v : PyVal) : string :=
  match v with
  | VStr s => s
  | _ => py_str v
  end.

(** [user.key] on a model instance. *)
Definition attr (user : Instance) (key : string) : Exn + PyVal :=
  match user !! key with
  | Some v => inr v
  | None => inl (AttributeError ("'Model' object has no attribute '" +:+ key +:+ "'"))
  end.

(** The text whose digest signs a cookie. *)
Definition signed_text (uid passwd expires : string) : string :=
  uid +:+ "-" +:+ passwd +:+ "-" +:+ expires +:+ "-" +:+ _COOKIE_KEY.

(** [user2cookie(user, max_age)]; [deadline] is [int(time.time() + max_age)]
    as the clock gives it. Joining raises [TypeError] when [user.id] is not a
    [str]. *)
Definition user2cookie (user : Instance) (deadline : Z) : Exn + string :=
  let expires := pretty deadline in
  match attr user "id" with
  | inl e => inl e
  | inr uid =>
      match attr user "passwd" with
      | inl e => inl e
      | inr passwd =>
          let s := signed_text (fmt uid) (fmt passwd) expires in
          match uid with
          | VStr uid => inr (join "-" [uid; expires; sha1_hex s])
          | _ => inl (TypeError "sequence item 0: expected str instance")
          end
      end
  end.

(** The [try] body of [cookie2user]. *)
Definition cookie2user_body (drv : Driver) (User : Schema) (cookie_str : string)
    : M Runtime (option Instance) :=
  match split_on "-" cookie_str with
  | [uid; expires; sha1] =>
      match py_int expires with
      | None => raise (ValueError "invalid literal for int() with base 10: %s"
                         (VStr expires))
      | Some n =>
          if before_now n then ret None
          else
            (found <- find drv User (VStr uid);;
             match found with
             | None => ret None
             | Some user =>
                 match attr user "passwd" with
                 | inl e => raise e
                 | inr passwd =>
                     let s := signed_text uid (fmt passwd) expires in
                     if negb (String.eqb sha1 (sha1_hex s)) then ret None
                     else ret (Some (<["passwd"%string := VStr "******"]> user))
                 end
             end)%py
      end
  | _ => ret None
  end.

(** [cookie2user(cookie_str)]; the cookie is [None] or a [str]. *)
Definition cookie2user (drv : Driver) (User : Schema)
    (cookie_str : option string) : M Runtime (option Instance) :=
  match cookie_str with
  | None => ret None
  | Some c =>
      if negb (str_truthy c) then ret None
      else except_Exception (cookie2user_body drv User c) (λ _, ret None)
  end.

(** The function [auth] of [auth_factory] in [www/app.py]: [cookie] is
    [request.cookies.get(COOKIE_NAME)], [path] is [request.path], and the
    next handler is given the user the middleware has put on the request. An
    instance is a [dict], true when it is not empty; the log line of a user
    that is found reads [user.email]. *)
Definition auth (drv : Driver) (User : Schema) (cookie : option string)
    (path : string) (handler : option Instance → M Runtime RetVal)
    : M Runtime RetVal :=
  (user <- (if opt_truthy cookie
            then
              (user <- cookie2user drv User cookie;;
               match user with
               | Some u =>
                   if Nat.eqb (size u) 0 then ret None
                   else match attr u "email" with
                        | inl e => raise e
                        | inr _ => ret (Some u)
                        end
               | None => ret None
               end)
            else ret None);;
   if startswith path "/manage/" then
     match user with
     | None => ret (RStream (Aiohttp.HTTPFound "/signin"))
     | Some u =>
         match attr u "admin" with
         | inl e => raise e
         | inr admin =>
             if truthy admin then handler user
             else ret (RStream (Aiohttp.HTTPFound "/signin"))
         end
     end
   else handler user)%py.

End Helpers.

End Handlers.

(** * Properties *)

Import Orm.

(** ** The definitions at work *)

Example create_args_string_3 : create_args_string 3 = "?, ?, ?"%string.
Proof. reflexivity. Qed.

Example replace_qmark_insert :
  replace_qmark "insert into `t` (`a`, `id`) values (?, ?)"
  = "insert into `t` (`a`, `id`) values (%s, %s)"%string.
Proof. reflexivity. Qed.

Example sample_templates :
  __insert__ sample_schema
  = "insert into `users` (`email`, `admin`, `name`, `id`) values (?, ?, ?, ?)"%string
  ∧ __select__ sample_schema
    = "select `id`,`email`,`admin`,`name` from `users`"%string
  ∧ __delete__ sample_schema = "delete from `users` where `id`=?"%string.
Proof. repeat split. Qed.

Example no_primary_key :
  ModelMetaclass_new "Tag"
    [("label"%string, AField (StringField None false (DValue VNone) "varchar(50)"))]
  = inl (RuntimeError "Priamry key not found.").
Proof. reflexivity. Qed.

Example two_primary_keys :
  ModelMetaclass_new "Tag"
    [("id"%string, AField (IntegerField None true (DValue (VInt 0))));
     ("label"%string, AField (StringField None false (DValue VNone) "varchar(50)"));
     ("code"%string, AField (StringField None true (DValue VNone) "varchar(50)"))]
  = inl (RuntimeError "Duplicate primary key for field: code").
Proof. reflexivity. Qed.

(** The base class itself is left as it is. *)
Example base_class_untouched (attrs : Attrs) :
  ModelMetaclass_new "Model" attrs = inr (PlainClass attrs).
Proof. reflexivity. Qed.

(** ** Schema derivation *)

Section Derivation.

Implicit Types (attrs items : Attrs) (st : Scan) (m : gmap string Field).

Lemma str_truthy_named (k : string) : k ≠ ""%string → str_truthy k = true.
Proof.
  intros Hk. unfold str_truthy.
  destruct (String.eqb_spec k "") as [->|_]; [congruence | reflexivity].
Qed.

(** Once a primary key is held, the scan goes through exactly when no further
    field has the flag, and it stops at the first one that has it. *)
Lemma scan_holding_key items st :
  primaryKey_truthy (primaryKey st) = true →
  match pk_names items with
  | [] => scan items st
          = inr (mkScan (declared_fields items (mappings st))
                   (fields st ++ nonkey_names items) (primaryKey st))
  | k :: _ => scan items st
              = inl (RuntimeError ("Duplicate primary key for field: " +:+ k))
  end.
Proof.
  revert st. induction items as [|[k [f|t s]] items IH]; intros st Hst; simpl.
  - rewrite app_nil_r. by destruct st.
  - unfold pk_names, nonkey_names in *. simpl.
    destruct (primary_key f) eqn:Hf; simpl.
    + by rewrite Hst.
    + specialize (IH (mkScan (<[k:=f]> (mappings st)) (fields st ++ [k]) (primaryKey st)) Hst).
      simpl in IH. destruct (omap _ items) eqn:Hpk in IH |- *; [|exact IH].
      rewrite IH. by rewrite <- app_assoc.
  - apply IH, Hst.
Qed.

(** Before a primary key is held: the three outcomes of the scan. *)
Lemma scan_seeking_key items st :
  Forall named items →
  primaryKey_truthy (primaryKey st) = false →
  match pk_names items with
  | [] => scan items st
          = inr (mkScan (declared_fields items (mappings st))
                   (fields st ++ nonkey_names items) (primaryKey st))
  | [pk] => scan items st
            = inr (mkScan (declared_fields items (mappings st))
                     (fields st ++ nonkey_names items) (Some pk))
  | _ :: k2 :: _ =>
      scan items st
      = inl (RuntimeError ("Duplicate primary key for field: " +:+ k2))
  end.
Proof.
  intros Hnamed. revert st.
  induction Hnamed as [|[k [f|t s]] items Hk _ IH]; intros st Hst; simpl.
  - rewrite app_nil_r. by destruct st.
  - unfold pk_names, nonkey_names in *. simpl.
    destruct (primary_key f) eqn:Hf; simpl.
    + rewrite Hst.
      pose proof (scan_holding_key items
                    (mkScan (<[k:=f]> (mappings st)) (fields st) (Some k))) as Hrest.
      simpl in Hrest. unfold pk_names, nonkey_names in Hrest.
      specialize (Hrest (str_truthy_named k Hk)).
      destruct (omap _ items) eqn:Hpk in Hrest |- *; exact Hrest.
    + specialize (IH (mkScan (<[k:=f]> (mappings st)) (fields st ++ [k]) (primaryKey st)) Hst).
      simpl in IH.
      destruct (omap _ items) as [|k1 [|k2 ks]] eqn:Hpk in IH |- *;
        rewrite IH; try reflexivity; by rewrite <- app_assoc.
  - apply IH, Hst.
Qed.

Lemma declared_fields_mono items m f :
  is_Some (m !! f) → is_Some (declared_fields items m !! f).
Proof.
  revert m. induction items as [|[k [g|t s]] items IH]; intros m Hm; simpl;
    [done | | by apply IH].
  apply IH. destruct (decide (k = f)) as [->|Hne].
  - rewrite lookup_insert_eq. eauto.
  - by rewrite lookup_insert_ne.
Qed.

(** Every name in the non-key list is mapped. *)
Lemma nonkey_names_declared items m f :
  f ∈ nonkey_names items → is_Some (declared_fields items m !! f).
Proof.
  revert m. induction items as [|[k [g|t s]] items IH]; intros m Hf;
    unfold nonkey_names in *; simpl in *.
  - by apply elem_of_nil in Hf.
  - destruct (primary_key g); simpl in Hf.
    + by apply IH.
    + apply elem_of_cons in Hf as [->|Hf]; [|by apply IH].
      apply declared_fields_mono. rewrite lookup_insert_eq. eauto.
  - by apply IH.
Qed.

Lemma set_clauses_mapped m (fs : list string) :
  (∀ f, f ∈ fs → is_Some (m !! f)) →
  set_clauses m fs = inr (map (λ f, "`" +:+ column_name m f +:+ "`=?") fs).
Proof.
  induction fs as [|f fs IH]; intros Hfs; simpl; [done|].
  destruct (Hfs f) as [fld Hfld]; [by left|].
  rewrite IH; [|intros g Hg; apply Hfs; by right].
  unfold column_name, column_of. rewrite Hfld.
  destruct (name fld) as [n|]; [destruct (str_truthy n)|]; reflexivity.
Qed.

End Derivation.

(** The derivation has three outcomes, told apart by the flagged names. *)
Lemma ModelMetaclass_new_cases (cname : string) (attrs : Attrs) :
  cname ≠ "Model"%string →
  Forall named attrs →
  match pk_names attrs with
  | [] => ModelMetaclass_new cname attrs
          = inl (RuntimeError "Priamry key not found.")
  | [pk] => ModelMetaclass_new cname attrs
            = inr (ModelClass (derived_schema cname attrs pk))
  | _ :: k2 :: _ => ModelMetaclass_new cname attrs
                    = inl (RuntimeError ("Duplicate primary key for field: " +:+ k2))
  end.
Proof.
  intros Hname Hnamed. unfold ModelMetaclass_new.
  destruct (String.eqb_spec cname "Model") as [?|_]; [done|].
  pose proof (scan_seeking_key attrs scan_init Hnamed eq_refl) as Hscan.
  pose proof (Forall_forall named attrs) as [Hall _].
  specialize (Hall Hnamed).
  destruct (pk_names attrs) as [|pk [|k2 ks]] eqn:Hpk; rewrite Hscan; simpl;
    [done| |done].
  assert (pk ≠ ""%string) as Hpkne.
  { assert (pk ∈ pk_names attrs) as Hin by (rewrite Hpk; by left).
    unfold pk_names in Hin. apply list_elem_of_omap in Hin as [[k v] [Hkv Hsome]].
    simpl in Hsome. destruct v as [f|]; [|done]. destruct (primary_key f); [|done].
    injection Hsome as <-. by apply (Hall (k, AField f)). }
  rewrite (str_truthy_named pk Hpkne). simpl.
  rewrite set_clauses_mapped; [done|].
  intros f Hf. by apply nonkey_names_declared.
Qed.

(** A derived class is the schema of its one flagged field. *)
Lemma ModelClass_inv (cname : string) (attrs : Attrs) (cls : Schema) :
  Forall named attrs →
  ModelMetaclass_new cname attrs = inr (ModelClass cls) →
  ∃ pk, pk_names attrs = [pk] ∧ cls = derived_schema cname attrs pk.
Proof.
  intros Hnamed Hnew.
  assert (cname ≠ "Model"%string) as Hname.
  { intros ->. unfold ModelMetaclass_new in Hnew. simpl in Hnew. done. }
  pose proof (ModelMetaclass_new_cases cname attrs Hname Hnamed) as Hcases.
  destruct (pk_names attrs) as [|pk [|k2 ks]]; rewrite Hcases in Hnew; try done.
  exists pk. split; [done|]. by injection Hnew as <-.
Qed.

(** ** Running computations *)

Section Monad.

Context {S A B : Type}.

Lemma bind_returns (m : M S A) (k : A → M S B) s a s' :
  m s = (inr a, s') → bind m k s = k a s'.
Proof. intros Hm. unfold bind. by rewrite Hm. Qed.

(** Mapping over a list and then over one more element is mapping over the
    extended list. *)
Lemma mapM_snoc (f : A → M S B) (xs : list A) (x : A) s :
  mapM f (xs ++ [x]) s
  = (ys <- mapM f xs;; y <- f x;; ret (ys ++ [y]))%py s.
Proof.
  revert s. induction xs as [|a xs IH]; intros s; simpl.
  - unfold bind, ret. destruct (f x s) as [[e|y] s']; reflexivity.
  - unfold bind in *. destruct (f a s) as [[e|y] s1]; [reflexivity|].
    rewrite IH. destruct (mapM f xs s1) as [[e|ys] s2]; [reflexivity|].
    unfold ret. destruct (f x s2) as [[e|z] s3]; reflexivity.
Qed.

End Monad.

(** ** Binding the arguments of a statement *)

Section Binding.

Implicit Types (cls : Schema) (rt : Runtime) (cols : list string).

Lemma None_or_not (v : PyVal) : v = VNone ∨ v ≠ VNone.
Proof. destruct v; (by left) || (by right). Qed.

(** [getValue] reads the instance and changes nothing. *)
Lemma mapM_getValue cols rt :
  mapM getValue cols rt = (inr (map (getattr_or_None (self rt)) cols), rt).
Proof.
  induction cols as [|c cols IH]; simpl; [reflexivity|].
  unfold bind at 1. unfold getValue at 1, gets. simpl.
  unfold bind. by rewrite IH.
Qed.

(** One resolution with default fallback, on a mapped key. *)
Lemma getValueOrDefault_run cls key fld rt :
  __mappings__ cls !! key = Some fld →
  ∃ v rt',
    getValueOrDefault cls key rt = (inr v, rt')
    ∧ v = getattr_or_None (self rt') key
    ∧ (∀ k, k ≠ key → self rt' !! k = self rt !! k)
    ∧ (getattr_or_None (self rt) key ≠ VNone → rt' = rt)
    ∧ (getattr_or_None (self rt) key = VNone →
       match default fld with
       | DValue d => v = d ∧ ticks rt' = ticks rt
       | DCallable g => v = g (ticks rt) ∧ ticks rt' = Datatypes.S (ticks rt)
       end)
    ∧ heap rt' = heap rt.
Proof.
  intros Hfld. unfold getValueOrDefault, bind, getValue, gets.
  destruct (getattr_or_None (self rt) key) eqn:Hv;
    try (do 2 eexists; split; [reflexivity|];
         split; [by rewrite Hv|]; split; [done|]; split; [done|]; split; done).
  rewrite Hfld.
  destruct (default fld) as [d|g].
  - destruct d;
      try (do 2 eexists; split; [reflexivity|]; simpl;
           split; [unfold getattr_or_None; by rewrite ?lookup_insert_eq, ?Hv|];
           split; [intros k Hk; by rewrite lookup_insert_ne|];
           split; [done|]; split; done).
    do 2 eexists; split; [reflexivity|]. by rewrite Hv.
  - do 2 eexists; split; [reflexivity|]; simpl.
    split; [unfold getattr_or_None; by rewrite lookup_insert_eq|].
    split; [intros k Hk; by rewrite lookup_insert_ne|].
    split; [done|]; split; done.
Qed.

(** Resolving a list of distinct mapped columns: the values bound are the
    values the instance holds afterwards; what was set stays, what was not is
    taken from the default. *)
Lemma resolve_columns cls cols rt :
  NoDup cols →
  (∀ c, c ∈ cols → is_Some (__mappings__ cls !! c)) →
  ∃ rt',
    mapM (getValueOrDefault cls) cols rt
    = (inr (map (getattr_or_None (self rt')) cols), rt')
    ∧ (∀ k, k ∉ cols → self rt' !! k = self rt !! k)
    ∧ (∀ c, getattr_or_None (self rt) c ≠ VNone →
            getattr_or_None (self rt') c = getattr_or_None (self rt) c)
    ∧ (∀ c fld, c ∈ cols → getattr_or_None (self rt) c = VNone →
         __mappings__ cls !! c = Some fld →
         match default fld with
         | DValue d => getattr_or_None (self rt') c = d
         | DCallable g =>
             ∃ t, (ticks rt ≤ t < ticks rt')%nat ∧ getattr_or_None (self rt') c = g t
         end)
    ∧ heap rt' = heap rt
    ∧ (ticks rt ≤ ticks rt')%nat.
Proof.
  intros Hnd. revert rt. induction Hnd as [|c cols Hc Hnd IH]; intros rt Hmapped.
  - exists rt. simpl. split; [reflexivity|]. split; [done|]. split; [done|].
    split; [|done]. intros c fld Hin. by apply elem_of_nil in Hin.
  - destruct (Hmapped c) as [fld Hfld]; [by left|].
    destruct (getValueOrDefault_run cls c fld rt Hfld)
      as (v & rt1 & Hrun & Hv & Hother & Hset & Hunset & Hheap).
    destruct (IH rt1) as (rt' & Hrest & Hout & Hkeep & Hdef & Hheap' & Hticks).
    { intros d Hd. apply Hmapped. by right. }
    assert (ticks rt ≤ ticks rt1)%nat as Hticks1.
    { destruct (None_or_not (getattr_or_None (self rt) c)) as [Hn|Hn].
      - specialize (Hunset Hn). destruct (default fld); lia.
      - by rewrite (Hset Hn). }
    assert (∀ k, getattr_or_None (self rt) k ≠ VNone →
                 getattr_or_None (self rt1) k = getattr_or_None (self rt) k) as Hkeep1.
    { intros k Hk. destruct (decide (k = c)) as [->|Hne].
      - by rewrite (Hset Hk).
      - unfold getattr_or_None. by rewrite Hother. }
    exists rt'. simpl. rewrite (bind_returns _ _ _ _ _ Hrun).
    rewrite (bind_returns _ _ _ _ _ Hrest). unfold ret.
    split.
    { do 3 f_equal. rewrite Hv. unfold getattr_or_None. by rewrite Hout. }
    split.
    { intros k Hk. apply not_elem_of_cons in Hk as [Hkc Hk].
      rewrite Hout by done. by apply Hother. }
    split.
    { intros k Hk. rewrite Hkeep; [by apply Hkeep1|]. by rewrite Hkeep1. }
    split; [|split; [congruence|lia]].
    intros d fd Hd Hnone Hfd. apply elem_of_cons in Hd as [->|Hd].
    + assert (fd = fld) as -> by congruence.
      assert (getattr_or_None (self rt') c = v) as ->.
      { rewrite Hv. unfold getattr_or_None. by rewrite Hout. }
      specialize (Hunset Hnone). destruct (default fld) as [dv|g].
      * by destruct Hunset.
      * destruct Hunset as [-> Ht]. exists (ticks rt). split; [lia|done].
    + assert (d ≠ c) as Hne by (intros ->; done).
      assert (getattr_or_None (self rt1) d = VNone) as Hnone1.
      { unfold getattr_or_None in *. by rewrite Hother. }
      specialize (Hdef d fd Hd Hnone1 Hfd). destruct (default fd) as [dv|g]; [done|].
      destruct Hdef as (t & Ht & Hg). exists t. split; [lia|done].
Qed.

End Binding.

(** ** Placeholders in the statement templates *)

Section Placeholders.

Lemma count_char_app (c : ascii) (s1 s2 : string) :
  count_char c (s1 +:+ s2) = (count_char c s1 + count_char c s2)%nat.
Proof. induction s1 as [|d s1 IH]; simpl; [reflexivity|]. rewrite IH. lia. Qed.

(** A separator without [c] adds no occurrence of [c]. *)
Lemma count_char_join (c : ascii) (sep : string) (parts : list string) :
  count_char c sep = O →
  count_char c (join sep parts) = list_sum (map (count_char c) parts).
Proof.
  intros Hsep. unfold join.
  induction parts as [|p [|q parts] IH]; simpl in *; [reflexivity|lia|].
  rewrite !count_char_app, Hsep, IH. lia.
Qed.

Lemma qfree_escape (f : string) : qfree f → qfree (escape f).
Proof.
  unfold qfree, escape. intros Hf. rewrite !count_char_app, Hf. reflexivity.
Qed.

Lemma list_sum_zero (ns : list nat) : Forall (λ n, n = O) ns → list_sum ns = O.
Proof. induction 1 as [|n ns -> _ IH]; simpl; [reflexivity|exact IH]. Qed.

(** The loop of [create_args_string] builds [num] question marks. *)
Lemma create_args_loop (num : nat) (start : nat) (L : list string) :
  fold_left (λ L _, L ++ ["?"%string]) (seq start num) L
  = L ++ repeat "?"%string num.
Proof.
  revert start L. induction num as [|n IH]; intros start L; simpl.
  - by rewrite app_nil_r.
  - rewrite IH. by rewrite <- app_assoc.
Qed.

Lemma create_args_string_repeat (num : nat) :
  create_args_string num = join ", " (repeat "?"%string num).
Proof. unfold create_args_string. by rewrite create_args_loop. Qed.

Lemma repeat_as_map {A} (l : list A) :
  repeat "?"%string (length l) = map (λ _, "?"%string) l.
Proof. induction l as [|x l IH]; simpl; [reflexivity|]. by rewrite IH. Qed.

Lemma count_placeholders (num : nat) :
  count_char "?" (create_args_string num) = num.
Proof.
  rewrite create_args_string_repeat, count_char_join by reflexivity.
  induction num as [|n IH]; simpl; [reflexivity|]. by rewrite IH.
Qed.

End Placeholders.

(** ** The columns of a derived class *)

Section Columns.

Implicit Types (attrs : Attrs).

Lemma field_names_declared attrs x :
  x ∈ nonkey_names attrs ++ pk_names attrs → x ∈ attrs.*1.
Proof.
  intros Hx. apply elem_of_app in Hx as [Hx|Hx];
    apply list_elem_of_omap in Hx as ([k v] & Hkv & Hsome);
    apply list_elem_of_fmap; exists (k, v); split; try done;
    simpl in Hsome; destruct v as [f|]; try done;
    destruct (primary_key f); by simplify_eq.
Qed.

(** The keys of a [dict] are distinct, so the bound columns are. *)
Lemma field_names_NoDup attrs :
  NoDup attrs.*1 → NoDup (nonkey_names attrs ++ pk_names attrs).
Proof.
  induction attrs as [|[k v] attrs IH]; intros Hnd; [constructor|].
  apply NoDup_cons in Hnd as [Hk Hnd]. specialize (IH Hnd).
  pose proof (field_names_declared attrs k) as Hdecl.
  unfold nonkey_names, pk_names in *. simpl.
  destruct v as [f|]; [|exact IH]. destruct (primary_key f); simpl.
  - apply NoDup_app in IH as (Hn & Hdisj & Hp). apply NoDup_app.
    split; [done|]. split.
    + intros x Hx Hin. apply elem_of_cons in Hin as [->|Hin].
      * apply Hk, Hdecl, elem_of_app. by left.
      * by apply (Hdisj x).
    + apply NoDup_cons. split; [|done]. intros Hin.
      apply Hk, Hdecl, elem_of_app. by right.
  - apply NoDup_cons. split; [|done]. intros Hin. by apply Hk, Hdecl.
Qed.

Lemma pk_names_declared attrs (m : gmap string Field) f :
  f ∈ pk_names attrs → is_Some (declared_fields attrs m !! f).
Proof.
  revert m. induction attrs as [|[k [g|t s]] attrs IH]; intros m Hf;
    unfold pk_names in *; simpl in *.
  - by apply elem_of_nil in Hf.
  - destruct (primary_key g); simpl in Hf.
    + apply elem_of_cons in Hf as [->|Hf]; [|by apply IH].
      apply declared_fields_mono. rewrite lookup_insert_eq. eauto.
    + by apply IH.
  - by apply IH.
Qed.

(** The bound columns of a derived class are distinct and mapped. *)
Lemma derived_columns (cname : string) attrs (pk : string) :
  NoDup attrs.*1 →
  pk_names attrs = [pk] →
  let cls := derived_schema cname attrs pk in
  NoDup (bound_columns cls)
  ∧ ∀ c, c ∈ bound_columns cls → is_Some (__mappings__ cls !! c).
Proof.
  intros Hnd Hpk cls. unfold bound_columns, cls. simpl. split.
  - rewrite <- Hpk. by apply field_names_NoDup.
  - intros c Hc. apply elem_of_app in Hc as [Hc|Hc].
    + by apply nonkey_names_declared.
    + apply pk_names_declared. by rewrite Hpk.
Qed.

End Columns.

(** ** The derived class *)

(** In a [dict] a key is bound once, and [get] finds its value. *)
Lemma attrs_get_bound (attrs : Attrs) (k : string) (v : AttrVal) :
  NoDup attrs.*1 → (k, v) ∈ attrs → attrs_get k attrs = Some v.
Proof.
  induction attrs as [|[k' v'] attrs IH]; intros Hnd Hin.
  - by apply elem_of_nil in Hin.
  - rewrite fmap_cons in Hnd. apply NoDup_cons in Hnd as [Hk' Hnd]. simpl.
    apply elem_of_cons in Hin as [[= <- <-]|Hin].
    + by rewrite String.eqb_refl.
    + destruct (String.eqb_spec k' k) as [->|_]; [|by apply IH].
      exfalso. apply Hk'. apply list_elem_of_fmap. by exists (k, v).
Qed.

Lemma attrs_get_unbound (attrs : Attrs) (k : string) :
  (∀ v, (k, v) ∉ attrs) → attrs_get k attrs = None.
Proof.
  induction attrs as [|[k' v'] attrs IH]; intros Hout; simpl; [reflexivity|].
  destruct (String.eqb_spec k' k) as [->|_].
  - exfalso. apply (Hout v'). by left.
  - apply IH. intros v Hin. apply (Hout v). by right.
Qed.

(** C1. For a class body whose names are identifiers (hence non-empty), the
    metaclass derives a class exactly when one declared field carries the
    primary-key flag. With none it raises [RuntimeError] after the scan, with
    more than one it raises [RuntimeError] at the second such field. With
    exactly one it yields the table name (the class name, unless the class
    body binds [__table__] to a string that is not empty), the primary key,
    the non-key fields in declaration order and the four statement
    templates: the select over the key and the fields, the update with one
    clause per field under its column name, the delete by key, and the insert
    listing the fields and the key with one placeholder each. *)
Theorem derivation_iff_one_primary_key (cname : string) (attrs : Attrs) :
  cname ≠ "Model"%string →
  Forall named attrs →
  ((∃ s, ModelMetaclass_new cname attrs = inr (ModelClass s))
     ↔ length (pk_names attrs) = 1%nat)
  ∧ (pk_names attrs = [] →
     ModelMetaclass_new cname attrs = inl (RuntimeError "Priamry key not found."))
  ∧ (∀ k1 k2 ks, pk_names attrs = k1 :: k2 :: ks →
     ModelMetaclass_new cname attrs
     = inl (RuntimeError ("Duplicate primary key for field: " +:+ k2)))
  ∧ (∀ pk, pk_names attrs = [pk] →
     ∃ s, ModelMetaclass_new cname attrs = inr (ModelClass s)
       ∧ ((∀ v, ("__table__"%string, v) ∉ attrs) → __table__ s = cname)
       ∧ (NoDup attrs.*1 → ("__table__"%string, AStr "") ∈ attrs →
          __table__ s = cname)
       ∧ (∀ T, NoDup attrs.*1 → ("__table__"%string, AStr T) ∈ attrs →
               T ≠ ""%string → __table__ s = T)
       ∧ __primary_key__ s = pk
       ∧ __fields__ s = nonkey_names attrs
       ∧ __select__ s
         = "select `" +:+ pk +:+ "`,"
             +:+ join "," (map (λ f, "`" +:+ f +:+ "`") (nonkey_names attrs))
             +:+ " from `" +:+ __table__ s +:+ "`"
       ∧ __update__ s
         = "update `" +:+ __table__ s +:+ "` set "
             +:+ join ", "
                   (map (λ f,
                           "`" +:+ from_option
                                     (λ fld, match name fld with
                                             | Some n => if str_truthy n then n else f
                                             | None => f
                                             end) f (__mappings__ s !! f)
                               +:+ "`=?")
                      (nonkey_names attrs))
             +:+ " where `" +:+ pk +:+ "`=?"
       ∧ __delete__ s
         = "delete from `" +:+ __table__ s +:+ "` where `" +:+ pk +:+ "`=?"
       ∧ __insert__ s
         = "insert into `" +:+ __table__ s +:+ "` ("
             +:+ join ", " (map (λ f, "`" +:+ f +:+ "`") (nonkey_names attrs))
             +:+ ", `" +:+ pk +:+ "`) values ("
             +:+ join ", " (repeat "?"%string (length (nonkey_names attrs) + 1))
             +:+ ")").
Proof.
  intros Hname Hnamed.
  pose proof (ModelMetaclass_new_cases cname attrs Hname Hnamed) as Hcases.
  split; [|split; [|split]].
  - destruct (pk_names attrs) as [|pk [|k2 ks]]; rewrite Hcases; simpl; split;
      try done; try (intros [s Hs]; done); eauto.
  - intros Hpk. by rewrite Hpk in Hcases.
  - intros k1 k2 ks Hpk. by rewrite Hpk in Hcases.
  - intros pk Hpk. rewrite Hpk in Hcases.
    exists (derived_schema cname attrs pk). split; [exact Hcases|].
    unfold derived_schema.
    cbn [__table__ __primary_key__ __fields__ __select__ __update__ __delete__
         __insert__ __mappings__].
    split; [|split; [|split; [|split; [|split; [|split; [|split; [|split]]]]]]].
    + intros Hout. unfold table_name. by rewrite attrs_get_unbound.
    + intros Hnd Hin. unfold table_name.
      by rewrite (attrs_get_bound attrs "__table__" (AStr "") Hnd Hin).
    + intros T Hnd Hin HT. unfold table_name.
      rewrite (attrs_get_bound attrs "__table__" (AStr T) Hnd Hin).
      unfold AStr. by rewrite (str_truthy_named T HT).
    + reflexivity.
    + reflexivity.
    + reflexivity.
    + unfold update_template. do 5 f_equal. apply map_ext. intros f.
      unfold column_name, column_of.
      destruct (declared_fields attrs ∅ !! f) as [fld|]; [|reflexivity].
      simpl. destruct (name fld) as [n|]; [destruct (str_truthy n)|]; reflexivity.
    + reflexivity.
    + unfold insert_template.
      by rewrite create_args_string_repeat, length_map.
Qed.

Lemma derivation_iff_one_primary_key_witness :
  ("User"%string ≠ "Model"%string ∧ Forall named sample_attrs
   ∧ pk_names sample_attrs = ["id"%string])
  ∧ ((∃ s, ModelMetaclass_new "User" sample_attrs = inr (ModelClass s))
       ↔ length (pk_names sample_attrs) = 1%nat)
  ∧ ∃ s, ModelMetaclass_new "User" sample_attrs = inr (ModelClass s)
      ∧ __table__ s = "users"%string
      ∧ __primary_key__ s = "id"%string
      ∧ __fields__ s = ["email"; "admin"; "name"]%string
      ∧ __select__ s = "select `id`,`email`,`admin`,`name` from `users`"%string
      ∧ __update__ s
        = "update `users` set `email`=?, `admin`=?, `user_name`=? where `id`=?"%string
      ∧ __delete__ s = "delete from `users` where `id`=?"%string
      ∧ __insert__ s
        = "insert into `users` (`email`, `admin`, `name`, `id`) values (?, ?, ?, ?)"%string.
Proof.
  assert ("User"%string ≠ "Model"%string) as H1 by discriminate.
  assert (Forall named sample_attrs) as H2 by (repeat constructor; discriminate).
  assert (pk_names sample_attrs = ["id"%string]) as H3 by reflexivity.
  split; [by repeat split|].
  destruct (derivation_iff_one_primary_key "User" sample_attrs H1 H2)
    as (Hiff & _ & _ & Hone).
  split; [exact Hiff|].
  destruct (Hone "id"%string H3)
    as (s & Hnew & _ & _ & Htable & Hpk & Hfields & Hselect & Hupdate & Hdelete
        & Hinsert).
  assert (s = sample_schema) as ->.
  { assert (ModelMetaclass_new "User" sample_attrs = inr (ModelClass sample_schema))
      as Hsample by (vm_compute; reflexivity).
    rewrite Hsample in Hnew. by injection Hnew. }
  exists sample_schema. split; [exact Hnew|].
  split; [apply Htable; [compute_done|by left|discriminate]|].
  split; [exact Hpk|].
  split; [exact (eq_trans Hfields eq_refl)|].
  split; [exact (eq_trans Hselect eq_refl)|].
  split; [exact (eq_trans Hupdate eq_refl)|].
  split; [exact (eq_trans Hdelete eq_refl)|exact (eq_trans Hinsert eq_refl)].
Defined.

(** ** Saving *)

Lemma after_execute_bind (drv : Driver) (sql msg : string) (args : list PyVal)
    (rt : Runtime) :
  (rows <- execute drv sql args true;; warn_unless_one msg rows)%py rt
  = after_execute msg (execute drv sql args true rt).
Proof. unfold bind, after_execute. by destruct (execute _ _ _ _ _) as [[e|n] rt']. Qed.

(** [save] resolves the bound columns in order and hands the values to
    [execute] with the insert template. *)
Lemma save_run (drv : Driver) (cls : Schema) (rt : Runtime) :
  NoDup (bound_columns cls) →
  (∀ c, c ∈ bound_columns cls → is_Some (__mappings__ cls !! c)) →
  ∃ rt1,
    save drv cls rt
    = after_execute "failed to insert record: affected rows: %s"
        (execute drv (__insert__ cls)
           (map (getattr_or_None (self rt1)) (bound_columns cls)) true rt1)
    ∧ (∀ c, getattr_or_None (self rt) c ≠ VNone →
            getattr_or_None (self rt1) c = getattr_or_None (self rt) c)
    ∧ (∀ c fld, c ∈ bound_columns cls → getattr_or_None (self rt) c = VNone →
         __mappings__ cls !! c = Some fld →
         match default fld with
         | DValue d => getattr_or_None (self rt1) c = d
         | DCallable g =>
             ∃ t, (ticks rt ≤ t < ticks rt1)%nat ∧ getattr_or_None (self rt1) c = g t
         end).
Proof.
  intros Hnd Hmapped.
  destruct (resolve_columns cls (bound_columns cls) rt Hnd Hmapped)
    as (rt1 & Hrun & _ & Hkeep & Hdef & _ & _).
  exists rt1. split; [|split; [exact Hkeep|exact Hdef]].
  unfold bound_columns in Hrun. rewrite mapM_snoc in Hrun.
  unfold save. fold (bound_columns cls) in *.
  unfold bind at 1 2. unfold bind at 1 2 in Hrun.
  destruct (mapM (getValueOrDefault cls) (__fields__ cls) rt) as [[e|args] rta];
    [done|].
  destruct (getValueOrDefault cls (__primary_key__ cls) rta) as [[e|pk] rtb];
    [done|].
  unfold ret in Hrun. injection Hrun as Hargs ->.
  rewrite Hargs. apply after_execute_bind.
Qed.

(** ** Strings *)

Lemma append_cons (x : ascii) (a b : string) :
  String x a +:+ b = String x (a +:+ b).
Proof. reflexivity. Qed.

Lemma append_assoc (a b c : string) : (a +:+ b) +:+ c = a +:+ b +:+ c.
Proof.
  induction a as [|x a IH]; [reflexivity|]. by rewrite !append_cons, IH.
Qed.

Lemma join_snoc (sep : string) (parts : list string) (x : string) :
  parts ≠ [] → join sep (parts ++ [x]) = join sep parts +:+ sep +:+ x.
Proof.
  unfold join. induction parts as [|p [|q parts] IH]; intros Hne; [done| |].
  - reflexivity.
  - change (String.concat sep ((p :: q :: parts) ++ [x]))
      with (p +:+ sep +:+ String.concat sep ((q :: parts) ++ [x])).
    rewrite IH by done.
    change (String.concat sep (p :: q :: parts))
      with (p +:+ sep +:+ String.concat sep (q :: parts)).
    by rewrite !append_assoc.
Qed.

(** ** The driver calls of [execute] *)

Section Execute.

Implicit Types (drv : Driver) (rt : Runtime).

Ltac run_driver drv :=
  unfold execute, select, with_conn, try_except, bind, driver_call, emit, when,
    modify, raise, ret, log, add_trace;
  simpl;
  repeat match goal with
         | |- context [on_acquire drv] => destruct (on_acquire drv)
         | |- context [on_begin drv] => destruct (on_begin drv)
         | |- context [on_cursor drv] => destruct (on_cursor drv)
         | |- context [on_execute drv ?s ?a] => destruct (on_execute drv s a)
         | |- context [on_fetch drv ?s ?a] => destruct (on_fetch drv s a)
         | |- context [on_close drv] => destruct (on_close drv)
         | |- context [on_commit drv] => destruct (on_commit drv)
         | |- context [on_rollback drv] => destruct (on_rollback drv)
         end;
  simpl.

(** [execute] only talks to the driver: the instance, the generators and the
    list objects are as before. *)
Lemma execute_frame drv sql args autocommit rt :
  self (execute drv sql args autocommit rt).2 = self rt
  ∧ ticks (execute drv sql args autocommit rt).2 = ticks rt
  ∧ heap (execute drv sql args autocommit rt).2 = heap rt.
Proof. destruct autocommit; run_driver drv; done. Qed.

Lemma after_execute_frame (msg : string) (r : (Exn + Z) * Runtime) :
  self (after_execute msg r).2 = self r.2
  ∧ ticks (after_execute msg r).2 = ticks r.2
  ∧ heap (after_execute msg r).2 = heap r.2.
Proof.
  destruct r as [[e|n] rt]; simpl; [done|].
  unfold warn_unless_one. by destruct (n =? 1).
Qed.

(** A count is never turned into an exception. *)
Lemma after_execute_count (msg : string) (n : Z) rt :
  after_execute msg (inr n, rt)
  = (inr tt, if n =? 1 then rt else add_trace rt [EvWarn msg n]).
Proof. simpl. unfold warn_unless_one. by destruct (n =? 1). Qed.

(** Every run of a non-autocommit [execute], by what the driver answers. *)
Lemma execute_transaction_runs drv sql args rt :
  let stmt := replace_qmark sql in
  execute drv sql args false rt
  = match on_acquire drv with
    | Some e => (inl e, add_trace rt [EvInfo ("SQL:" +:+ sql); EvAcquire])
    | None =>
        match on_begin drv with
        | Some e =>
            (inl e, add_trace rt [EvInfo ("SQL:" +:+ sql); EvAcquire; EvBegin;
                                  EvRelease])
        | None =>
            match first_failure drv stmt args with
            | None =>
                (inr (rowcount drv stmt args),
                 add_trace rt ([EvInfo ("SQL:" +:+ sql); EvAcquire; EvBegin]
                               ++ [EvCursor; EvExecute stmt args; EvClose;
                                   EvCommit] ++ [EvRelease]))
            | Some (e, calls) =>
                (inl (from_option id e (on_rollback drv)),
                 add_trace rt ([EvInfo ("SQL:" +:+ sql); EvAcquire; EvBegin]
                               ++ calls ++ [EvRollback; EvRelease]))
            end
        end
    end.
Proof.
  intros stmt. unfold first_failure. subst stmt.
  run_driver drv; rewrite <- ?app_assoc; reflexivity.
Qed.

End Execute.

(** ** Saving through the insert template *)

(** C2. For a class the metaclass derives from a class body (a [dict], so its
    names are distinct), the insert template lists the non-key columns in
    declaration order and then the primary key, with one placeholder per
    listed column, and [save] hands [execute] one value per listed column in
    that order: the value the instance holds for the column once defaults are
    resolved. A value that was set is bound as it is; an unset column is bound
    to its static default or to what its generator returns. *)
Theorem save_binds_in_insert_order (cname : string) (attrs : Attrs)
    (cls : Schema) (drv : Driver) (rt : Runtime) :
  Forall named attrs →
  NoDup attrs.*1 →
  ModelMetaclass_new cname attrs = inr (ModelClass cls) →
  bound_columns cls = nonkey_names attrs ++ pk_names attrs
  ∧ __insert__ cls
    = "insert into `" +:+ __table__ cls +:+ "` ("
        +:+ join ", " (map escape (__fields__ cls))
        +:+ ", `" +:+ __primary_key__ cls +:+ "`) values ("
        +:+ join ", " (map (λ _, "?"%string) (bound_columns cls)) +:+ ")"
  ∧ (__fields__ cls ≠ [] →
     join ", " (map escape (__fields__ cls)) +:+ ", `" +:+ __primary_key__ cls +:+ "`"
     = join ", " (map escape (bound_columns cls)))
  ∧ (Forall qfree (__table__ cls :: bound_columns cls) →
     count_char "?" (__insert__ cls) = length (bound_columns cls))
  ∧ ∃ rt1,
      save drv cls rt
      = after_execute "failed to insert record: affected rows: %s"
          (execute drv (__insert__ cls)
             (map (getattr_or_None (self rt1)) (bound_columns cls)) true rt1)
      ∧ (∀ c, getattr_or_None (self rt) c ≠ VNone →
              getattr_or_None (self rt1) c = getattr_or_None (self rt) c)
      ∧ (∀ c fld, c ∈ bound_columns cls → getattr_or_None (self rt) c = VNone →
           __mappings__ cls !! c = Some fld →
           match default fld with
           | DValue d => getattr_or_None (self rt1) c = d
           | DCallable g =>
               ∃ t, (ticks rt ≤ t < ticks rt1)%nat
                    ∧ getattr_or_None (self rt1) c = g t
           end).
Proof.
  intros Hnamed Hnd Hnew.
  destruct (ModelClass_inv cname attrs cls Hnamed Hnew) as (pk & Hpk & ->).
  destruct (derived_columns cname attrs pk Hnd Hpk) as [Hnodup Hmapped].
  split; [|split; [|split; [|split]]].
  - unfold bound_columns. simpl. by rewrite Hpk.
  - unfold bound_columns. simpl. unfold insert_template.
    rewrite create_args_string_repeat, length_map.
    replace (length (nonkey_names attrs) + 1)%nat
      with (length (nonkey_names attrs ++ [pk])) by (rewrite length_app; reflexivity).
    by rewrite repeat_as_map.
  - unfold bound_columns. simpl. intros Hne. rewrite map_app. simpl.
    rewrite join_snoc; [reflexivity|]. by destruct (nonkey_names attrs).
  - unfold bound_columns.
    cbn [__table__ __fields__ __primary_key__ __insert__ derived_schema].
    intros Hq.
    apply Forall_cons in Hq as [HT Hq]. apply Forall_app in Hq as [Hfs Hk].
    rewrite Forall_singleton in Hk.
    unfold insert_template. rewrite !count_char_app, count_placeholders.
    rewrite count_char_join by reflexivity. rewrite HT, Hk, list_sum_zero.
    + rewrite length_map, length_app. simpl. lia.
    + apply Forall_map, Forall_map. eapply Forall_impl; [exact Hfs|].
      intros f Hf. by apply qfree_escape.
  - by apply save_run.
Qed.

Lemma save_binds_in_insert_order_witness :
  (Forall named sample_attrs
   ∧ NoDup sample_attrs.*1
   ∧ ModelMetaclass_new "User" sample_attrs = inr (ModelClass sample_schema))
  ∧ bound_columns sample_schema = nonkey_names sample_attrs ++ pk_names sample_attrs
  ∧ ∃ rt1,
      save (steady_driver 1) sample_schema sample_runtime
      = after_execute "failed to insert record: affected rows: %s"
          (execute (steady_driver 1) (__insert__ sample_schema)
             (map (getattr_or_None (self rt1)) (bound_columns sample_schema))
             true rt1).
Proof.
  assert (Forall named sample_attrs) as H1
    by (repeat constructor; discriminate).
  assert (NoDup sample_attrs.*1) as H2
    by compute_done.
  assert (ModelMetaclass_new "User" sample_attrs = inr (ModelClass sample_schema))
    as H3 by (vm_compute; reflexivity).
  split; [by repeat split|].
  destruct (save_binds_in_insert_order "User" sample_attrs sample_schema
              (steady_driver 1) sample_runtime H1 H2 H3)
    as (Hcols & _ & _ & _ & rt1 & Hsave & _).
  split; [exact Hcols|]. exists rt1. exact Hsave.
Defined.

(** ** Updating *)

(** [update] reads the bound columns off the instance and hands them to
    [execute] with the update template. *)
Lemma update_run (drv : Driver) (cls : Schema) (rt : Runtime) :
  update drv cls rt
  = after_execute "failed to update by primary key: affected rows: %s"
      (execute drv (__update__ cls)
         (map (getattr_or_None (self rt)) (bound_columns cls)) true rt).
Proof.
  unfold update. rewrite (bind_returns _ _ _ _ _ (mapM_getValue _ rt)).
  unfold bind at 1. unfold getValue at 1, gets.
  unfold bound_columns. rewrite map_app. apply after_execute_bind.
Qed.

Lemma list_sum_ones (ns : list nat) :
  Forall (λ n, n = 1%nat) ns → list_sum ns = length ns.
Proof. induction 1 as [|n ns -> _ IH]; simpl; [reflexivity|]. by rewrite IH. Qed.

(** One placeholder per set clause and one for the key. *)
Lemma count_update_placeholders (T pk : string) (cols : list string) :
  qfree T → qfree pk → Forall qfree cols →
  count_char "?" (update_template T pk (map (λ c, "`" +:+ c +:+ "`=?") cols))
  = (length cols + 1)%nat.
Proof.
  intros HT Hpk Hcols. unfold update_template.
  rewrite !count_char_app, count_char_join by reflexivity.
  rewrite HT, Hpk, list_sum_ones.
  - rewrite !length_map. simpl. lia.
  - apply Forall_map, Forall_map. eapply Forall_impl; [exact Hcols|].
    intros c Hc. simpl. rewrite !count_char_app, Hc. reflexivity.
Qed.

(** C3, as the code has it. [update] binds what the instance holds for the
    non-key fields in declared order and then for the primary key, and
    applies no default fallback of its own: a field that the instance does
    not hold is bound as [None], never as its declared default, no default
    generator is invoked and the instance is left as it was. What the
    instance holds includes a default that an earlier [save] has stored on
    it. *)
Theorem update_binds_set_values_only (drv : Driver) (cls : Schema) (rt : Runtime) :
  let args := map (getattr_or_None (self rt)) (bound_columns cls) in
  update drv cls rt
  = after_execute "failed to update by primary key: affected rows: %s"
      (execute drv (__update__ cls) args true rt)
  ∧ (∀ i c, bound_columns cls !! i = Some c →
            args !! i = Some (getattr_or_None (self rt) c))
  ∧ (∀ i f, __fields__ cls !! i = Some f → self rt !! f = None →
            args !! i = Some VNone)
  ∧ (∀ i f fld d, __fields__ cls !! i = Some f → self rt !! f = None →
       __mappings__ cls !! f = Some fld → default fld = DValue d → d ≠ VNone →
       args !! i ≠ Some d)
  ∧ self (update drv cls rt).2 = self rt
  ∧ ticks (update drv cls rt).2 = ticks rt.
Proof.
  intros args.
  assert (∀ i c, bound_columns cls !! i = Some c →
                 args !! i = Some (getattr_or_None (self rt) c)) as Hargs.
  { intros i c Hc. unfold args. by rewrite list_lookup_fmap, Hc. }
  assert (∀ i f, __fields__ cls !! i = Some f → self rt !! f = None →
                 args !! i = Some VNone) as Hunset.
  { intros i f Hf Hnone. rewrite (Hargs i f).
    - unfold getattr_or_None. by rewrite Hnone.
    - unfold bound_columns. by apply lookup_app_l_Some. }
  split; [apply update_run|]. split; [exact Hargs|]. split; [exact Hunset|].
  split.
  - intros i f fld d Hf Hnone _ _ Hd. rewrite (Hunset i f Hf Hnone). congruence.
  - rewrite update_run.
    destruct (after_execute_frame "failed to update by primary key: affected rows: %s"
                (execute drv (__update__ cls) args true rt)) as (Hs & Ht & _).
    destruct (execute_frame drv (__update__ cls) args true rt) as (Hs' & Ht' & _).
    fold args. split; congruence.
Qed.

(** C3 as the specification words it fails after [save]: [admin] was never
    set on the sample instance, [save] stores its declared default [False]
    on the instance, and the [update] that follows binds [False] for
    [admin]. *)
Lemma update_binds_default_stored_by_save :
  self sample_runtime !! "admin"%string = None
  ∧ (∃ fld, __mappings__ sample_schema !! "admin"%string = Some fld
            ∧ default fld = DValue (VBool false))
  ∧ __fields__ sample_schema !! 1%nat = Some "admin"%string
  ∧ ∃ args,
      update (steady_driver 1) sample_schema
        (save (steady_driver 1) sample_schema sample_runtime).2
      = after_execute "failed to update by primary key: affected rows: %s"
          (execute (steady_driver 1) (__update__ sample_schema) args true
             (save (steady_driver 1) sample_schema sample_runtime).2)
      ∧ args !! 1%nat = Some (VBool false).
Proof.
  split; [reflexivity|]. split; [by eexists|]. split; [reflexivity|].
  eexists. split; [apply update_run|]. reflexivity.
Qed.

(** C9. For a derived class the update template sets every non-key column,
    one clause and one placeholder each, and [update] binds one value per
    clause in the same order: a field that is not set on the instance is
    bound as [None] at the placeholder of its column. *)
Theorem update_sets_every_nonkey_column (cname : string) (attrs : Attrs)
    (cls : Schema) (drv : Driver) (rt : Runtime) :
  Forall named attrs →
  ModelMetaclass_new cname attrs = inr (ModelClass cls) →
  let clause := λ f, "`" +:+ column_name (__mappings__ cls) f +:+ "`=?" in
  let args := map (getattr_or_None (self rt)) (bound_columns cls) in
  __fields__ cls = nonkey_names attrs
  ∧ __update__ cls
    = "update `" +:+ __table__ cls +:+ "` set "
        +:+ join ", " (map clause (__fields__ cls))
        +:+ " where `" +:+ __primary_key__ cls +:+ "`=?"
  ∧ (qfree (__table__ cls) → qfree (__primary_key__ cls) →
     Forall qfree (map (column_name (__mappings__ cls)) (__fields__ cls)) →
     count_char "?" (__update__ cls) = length args)
  ∧ update drv cls rt
    = after_execute "failed to update by primary key: affected rows: %s"
        (execute drv (__update__ cls) args true rt)
  ∧ (∀ i f, __fields__ cls !! i = Some f →
       map clause (__fields__ cls) !! i = Some (clause f)
       ∧ args !! i = Some (getattr_or_None (self rt) f)
       ∧ (self rt !! f = None → args !! i = Some VNone)).
Proof.
  intros Hnamed Hnew clause args.
  destruct (ModelClass_inv cname attrs cls Hnamed Hnew) as (pk & Hpk & ->).
  split; [reflexivity|]. split; [reflexivity|]. split; [|split].
  - cbn [__table__ __fields__ __primary_key__ __update__ __mappings__ derived_schema].
    intros HT Hk Hcols. unfold args, bound_columns.
    cbn [__fields__ __primary_key__ derived_schema].
    rewrite length_map, length_app. simpl length.
    rewrite <- (length_map (column_name (declared_fields attrs ∅)) (nonkey_names attrs)).
    rewrite <- (count_update_placeholders _ pk _ HT Hk Hcols).
    by rewrite map_map.
  - apply update_run.
  - intros i f Hf.
    assert (args !! i = Some (getattr_or_None (self rt) f)) as Hi.
    { unfold args, bound_columns. rewrite list_lookup_fmap.
      by rewrite (lookup_app_l_Some _ _ _ _ Hf). }
    split; [by rewrite list_lookup_fmap, Hf|]. split; [exact Hi|].
    intros Hnone. rewrite Hi. unfold getattr_or_None. by rewrite Hnone.
Qed.

Lemma update_sets_every_nonkey_column_witness :
  (Forall named sample_attrs
   ∧ ModelMetaclass_new "User" sample_attrs = inr (ModelClass sample_schema))
  ∧ __update__ sample_schema
    = "update `users` set `email`=?, `admin`=?, `user_name`=? where `id`=?"%string
  ∧ update (steady_driver 1) sample_schema sample_runtime
    = after_execute "failed to update by primary key: affected rows: %s"
        (execute (steady_driver 1) (__update__ sample_schema)
           [VStr "hi@example.com"; VNone; VNone; VNone] true sample_runtime).
Proof.
  assert (Forall named sample_attrs) as H1 by (repeat constructor; discriminate).
  assert (ModelMetaclass_new "User" sample_attrs = inr (ModelClass sample_schema))
    as H2 by (vm_compute; reflexivity).
  split; [by split|].
  destruct (update_sets_every_nonkey_column "User" sample_attrs sample_schema
              (steady_driver 1) sample_runtime H1 H2)
    as (_ & Htemplate & _ & Hupdate & _).
  split; [exact Htemplate|exact Hupdate].
Defined.

(** ** Soft failures *)

Lemma remove_run (drv : Driver) (cls : Schema) (rt : Runtime) :
  remove drv cls rt
  = after_execute "failed to remove by primary key: affected rows: %s"
      (execute drv (__delete__ cls)
         [getattr_or_None (self rt) (__primary_key__ cls)] true rt).
Proof.
  unfold remove. unfold bind at 1. unfold getValue at 1, gets.
  apply after_execute_bind.
Qed.

Lemma after_execute_cases (msg : string) (r : Exn + Z) (rt2 : Runtime) :
  after_execute msg (r, rt2)
  = match r with
    | inr n => (inr tt, if n =? 1 then rt2 else add_trace rt2 [EvWarn msg n])
    | inl e => (inl e, rt2)
    end.
Proof. destruct r as [e|n]; [reflexivity|apply after_execute_count]. Qed.

(** C5. [save], [update] and [remove] each make one call to [execute], and
    whatever row count that call returns, the operation returns normally: a
    count other than 1 adds a warning to the log and nothing else. Only an
    exception of [execute] itself reaches the caller. *)
Theorem persistence_soft_failure (cname : string) (attrs : Attrs)
    (cls : Schema) (drv : Driver) (rt : Runtime) :
  Forall named attrs →
  NoDup attrs.*1 →
  ModelMetaclass_new cname attrs = inr (ModelClass cls) →
  (∃ args rt1, ∀ r rt2,
      execute drv (__insert__ cls) args true rt1 = (r, rt2) →
      save drv cls rt
      = match r with
        | inr n =>
            (inr tt,
             if n =? 1 then rt2
             else add_trace rt2
                    [EvWarn "failed to insert record: affected rows: %s" n])
        | inl e => (inl e, rt2)
        end)
  ∧ (∃ args, ∀ r rt2,
      execute drv (__update__ cls) args true rt = (r, rt2) →
      update drv cls rt
      = match r with
        | inr n =>
            (inr tt,
             if n =? 1 then rt2
             else add_trace rt2
                    [EvWarn "failed to update by primary key: affected rows: %s" n])
        | inl e => (inl e, rt2)
        end)
  ∧ (∃ args, ∀ r rt2,
      execute drv (__delete__ cls) args true rt = (r, rt2) →
      remove drv cls rt
      = match r with
        | inr n =>
            (inr tt,
             if n =? 1 then rt2
             else add_trace rt2
                    [EvWarn "failed to remove by primary key: affected rows: %s" n])
        | inl e => (inl e, rt2)
        end).
Proof.
  intros Hnamed Hnd Hnew.
  destruct (ModelClass_inv cname attrs cls Hnamed Hnew) as (pk & Hpk & ->).
  destruct (derived_columns cname attrs pk Hnd Hpk) as [Hnodup Hmapped].
  split; [|split].
  - destruct (save_run drv _ rt Hnodup Hmapped) as (rt1 & Hsave & _).
    eexists _, rt1. intros r rt2 Hexec.
    rewrite Hsave, Hexec. apply after_execute_cases.
  - eexists. intros r rt2 Hexec.
    rewrite update_run, Hexec. apply after_execute_cases.
  - eexists. intros r rt2 Hexec.
    rewrite remove_run, Hexec. apply after_execute_cases.
Qed.

Lemma persistence_soft_failure_witness :
  (Forall named sample_attrs
   ∧ NoDup sample_attrs.*1
   ∧ ModelMetaclass_new "User" sample_attrs = inr (ModelClass sample_schema))
  ∧ (save (steady_driver 0) sample_schema sample_runtime).1 = inr tt
  ∧ (update (steady_driver 2) sample_schema sample_runtime).1 = inr tt
  ∧ (remove (steady_driver (-1)) sample_schema sample_runtime).1 = inr tt.
Proof.
  assert (Forall named sample_attrs) as H1 by (repeat constructor; discriminate).
  assert (NoDup sample_attrs.*1) as H2 by compute_done.
  assert (ModelMetaclass_new "User" sample_attrs = inr (ModelClass sample_schema))
    as H3 by (vm_compute; reflexivity).
  split; [by repeat split|].
  split; [|split].
  - destruct (persistence_soft_failure "User" sample_attrs sample_schema
                (steady_driver 0) sample_runtime H1 H2 H3)
      as ((args & rt1 & Hsave) & _ & _).
    destruct (execute (steady_driver 0) (__insert__ sample_schema) args true rt1)
      as [r rt2] eqn:Hexec.
    rewrite (Hsave r rt2 eq_refl).
    revert Hexec. unfold execute, with_conn, try_except, bind, driver_call, emit,
      when, modify, raise, ret, log. simpl. intros [= <- <-]. reflexivity.
  - destruct (persistence_soft_failure "User" sample_attrs sample_schema
                (steady_driver 2) sample_runtime H1 H2 H3)
      as (_ & (args & Hupdate) & _).
    destruct (execute (steady_driver 2) (__update__ sample_schema) args true
                sample_runtime) as [r rt2] eqn:Hexec.
    rewrite (Hupdate r rt2 eq_refl).
    revert Hexec. unfold execute, with_conn, try_except, bind, driver_call, emit,
      when, modify, raise, ret, log. simpl. intros [= <- <-]. reflexivity.
  - destruct (persistence_soft_failure "User" sample_attrs sample_schema
                (steady_driver (-1)) sample_runtime H1 H2 H3)
      as (_ & _ & (args & Hremove)).
    destruct (execute (steady_driver (-1)) (__delete__ sample_schema) args true
                sample_runtime) as [r rt2] eqn:Hexec.
    rewrite (Hremove r rt2 eq_refl).
    revert Hexec. unfold execute, with_conn, try_except, bind, driver_call, emit,
      when, modify, raise, ret, log. simpl. intros [= <- <-]. reflexivity.
Defined.

(** ** Transactions *)

(** C4, as the code has it. When the connection is acquired and [begin]
    returns, a non-autocommit [execute] calls begin, cursor, the statement,
    close and commit in this order and returns the affected-row count if none
    of them raises. When the cursor, the statement, the close or the commit
    raises, rollback is called before anything reaches the caller; the
    original exception is re-raised if the rollback returns, and the
    exception of the rollback takes its place if the rollback raises. *)
Theorem execute_transaction (drv : Driver) (sql : string) (args : list PyVal)
    (rt : Runtime) :
  on_acquire drv = None →
  on_begin drv = None →
  let stmt := replace_qmark sql in
  let opened := [EvInfo ("SQL:" +:+ sql); EvAcquire; EvBegin] in
  (first_failure drv stmt args = None →
   execute drv sql args false rt
   = (inr (rowcount drv stmt args),
      add_trace rt (opened ++ [EvCursor; EvExecute stmt args; EvClose; EvCommit]
                    ++ [EvRelease])))
  ∧ (∀ e calls, first_failure drv stmt args = Some (e, calls) →
       on_rollback drv = None →
       execute drv sql args false rt
       = (inl e, add_trace rt (opened ++ calls ++ [EvRollback; EvRelease])))
  ∧ (∀ e calls e', first_failure drv stmt args = Some (e, calls) →
       on_rollback drv = Some e' →
       execute drv sql args false rt
       = (inl e', add_trace rt (opened ++ calls ++ [EvRollback; EvRelease]))).
Proof.
  intros Hacq Hbegin stmt opened.
  pose proof (execute_transaction_runs drv sql args rt) as Hrun.
  simpl in Hrun. rewrite Hacq, Hbegin in Hrun. fold stmt in Hrun.
  split; [|split].
  - intros Hok. by rewrite Hok in Hrun.
  - intros e calls Hfail Hrb. by rewrite Hfail, Hrb in Hrun.
  - intros e calls e' Hfail Hrb. by rewrite Hfail, Hrb in Hrun.
Qed.

Lemma execute_transaction_witness :
  (on_acquire (steady_driver 1) = None ∧ on_begin (steady_driver 1) = None)
  ∧ execute (steady_driver 1) "delete from `users` where `id`=?" [VInt 7] false
      sample_runtime
    = (inr 1,
       add_trace sample_runtime
         [EvInfo "SQL:delete from `users` where `id`=?"; EvAcquire; EvBegin;
          EvCursor; EvExecute "delete from `users` where `id`=%s" [VInt 7];
          EvClose; EvCommit; EvRelease]).
Proof.
  split; [by split|].
  apply (execute_transaction (steady_driver 1) "delete from `users` where `id`=?"
           [VInt 7] sample_runtime eq_refl eq_refl).
  reflexivity.
Defined.

(** C4 as the specification words it fails when the rollback raises: the
    statement raises [DriverError 1], the rollback is called and raises
    [DriverError 2], and the caller gets the latter. *)
Lemma execute_rollback_error_replaces_original :
  let sql := "delete from `users` where `id`=?"%string in
  let run := execute lost_connection sql [VInt 7] false sample_runtime in
  first_failure lost_connection (replace_qmark sql) [VInt 7]
  = Some (DriverError 1,
          [EvCursor; EvExecute "delete from `users` where `id`=%s" [VInt 7]])
  ∧ trace run.2
    = [EvInfo "SQL:delete from `users` where `id`=?"; EvAcquire; EvBegin;
       EvCursor; EvExecute "delete from `users` where `id`=%s" [VInt 7];
       EvRollback; EvRelease]
  ∧ run.1 = inl (DriverError 2)
  ∧ run.1 ≠ inl (DriverError 1).
Proof. repeat split. discriminate. Qed.

(** ** Finding *)

Section FindAll.

Implicit Types (drv : Driver) (cls : Schema) (rt : Runtime) (limit : PyVal).

(** [select] leaves the list objects alone. *)
Lemma select_frame drv sql args size rt :
  heap (select drv sql args size rt).2 = heap rt.
Proof.
  unfold select, with_conn, try_except, bind, driver_call, emit, modify, raise,
    ret, log. simpl.
  destruct (on_acquire drv), (on_cursor drv),
    (on_execute drv (replace_qmark sql) args),
    (on_fetch drv (replace_qmark sql) args), (on_close drv),
    size as [[|n]|]; reflexivity.
Qed.

(** With a well-formed limit, [findAll] extends the list object that holds
    the arguments and then runs the query on its items. *)
Lemma findAll_limited drv cls (where_ orderBy : option string) limit rt
    (l : nat) (xs vs : list PyVal) :
  limit_values limit = Some vs →
  heap rt !! l = Some xs →
  findAll drv cls where_ (Some l) orderBy limit rt
  = select drv
      (join " " (query_parts cls where_ orderBy
                 ++ ["limit"%string; limit_placeholders limit]))
      (xs ++ vs) None (set_list rt l (xs ++ vs)).
Proof.
  intros Hvs Hl.
  assert (alter (λ ys, ys ++ vs) l (heap rt) = <[l := xs ++ vs]> (heap rt)) as Halter.
  { apply map_eq. intros k. destruct (decide (l = k)) as [<-|Hne].
    - by rewrite lookup_alter_eq, lookup_insert_eq, Hl.
    - by rewrite lookup_alter_ne, lookup_insert_ne. }
  unfold findAll, query_parts, limit_values, limit_placeholders, set_list in *.
  destruct (opt_truthy where_), (opt_truthy orderBy);
    destruct limit as [| | | | |[|a [|b [|c items]]]| |]; simpl in Hvs; try done;
    injection Hvs as <-;
    unfold bind, ret, list_extend, list_items, modify, gets; simpl;
    rewrite Halter, lookup_insert_eq;
    by destruct (select _ _ _ _ _) as [[e|rs] rt'].
Qed.

(** Without a list from the caller, the arguments go into a new list. *)
Lemma findAll_limited_fresh drv cls (where_ orderBy : option string) limit rt
    (vs : list PyVal) :
  limit_values limit = Some vs →
  findAll drv cls where_ None orderBy limit rt
  = select drv
      (join " " (query_parts cls where_ orderBy
                 ++ ["limit"%string; limit_placeholders limit]))
      vs None (set_list rt (fresh (dom (heap rt))) vs).
Proof.
  intros Hvs.
  assert (∀ l, alter (λ ys, ys ++ vs) l (<[l := []]> (heap rt))
               = <[l := vs]> (heap rt)) as Halter.
  { intros l. apply map_eq. intros k. destruct (decide (l = k)) as [<-|Hne].
    - by rewrite lookup_alter_eq, !lookup_insert_eq.
    - by rewrite lookup_alter_ne, !lookup_insert_ne. }
  unfold findAll, query_parts, limit_values, limit_placeholders, set_list in *.
  destruct (opt_truthy where_), (opt_truthy orderBy);
    destruct limit as [| | | | |[|a [|b [|c items]]]| |]; simpl in Hvs; try done;
    injection Hvs as <-;
    unfold bind, ret, new_list, list_extend, list_items, modify, gets; simpl;
    rewrite Halter, lookup_insert_eq;
    by destruct (select _ _ _ _ _) as [[e|rs] rt'].
Qed.

(** A limit of any other shape is refused before anything is logged, sent
    to the driver or appended to a list of the caller. *)
Lemma findAll_invalid_limit drv cls (where_ orderBy : option string)
    (args : option nat) limit rt :
  limit ≠ VNone →
  limit_values limit = None →
  (findAll drv cls where_ args orderBy limit rt).1
  = inl (ValueError "Invalid limit value: %s" limit)
  ∧ trace (findAll drv cls where_ args orderBy limit rt).2 = trace rt
  ∧ heap (findAll drv cls where_ args orderBy limit rt).2
    = match args with
      | Some _ => heap rt
      | None => <[fresh (dom (heap rt)) := []]> (heap rt)
      end.
Proof.
  intros Hnone Hvs. unfold findAll, limit_values in *.
  destruct args as [l|];
    destruct limit as [| | | | |[|a [|b [|c items]]]| |]; simpl in Hvs; done.
Qed.

End FindAll.

(** C8. With a limit other than [None], [findAll] appends one placeholder and
    the limit itself when the limit is an integer, the placeholder pair and
    both components when it is a 2-tuple, and raises [ValueError] for every
    other shape, with nothing logged and nothing sent to the driver. *)
Theorem findAll_limit_shapes (drv : Driver) (cls : Schema)
    (where_ : option string) (args : option nat) (orderBy : option string)
    (limit : PyVal) (rt : Runtime) :
  limit ≠ VNone →
  (∀ l, args = Some l → is_Some (heap rt !! l)) →
  let obj := from_option id (fresh (dom (heap rt))) args in
  let xs := from_option id [] (args ≫= λ l, heap rt !! l) in
  let parts := query_parts cls where_ orderBy in
  let run := findAll drv cls where_ args orderBy limit rt in
  (is_int limit = true →
   run = select drv (join " " (parts ++ ["limit"; "?"]%string))
           (xs ++ [limit]) None (set_list rt obj (xs ++ [limit])))
  ∧ (∀ a b, limit = VTuple [a; b] →
     run = select drv (join " " (parts ++ ["limit"; "?,?"]%string))
             (xs ++ [a; b]) None (set_list rt obj (xs ++ [a; b])))
  ∧ (is_int limit = false → is_pair limit = false →
     run.1 = inl (ValueError "Invalid limit value: %s" limit)
     ∧ trace run.2 = trace rt).
Proof.
  intros Hnone Hargs obj xs parts run.
  assert (∀ vs, limit_values limit = Some vs →
            run = select drv
                    (join " " (parts ++ ["limit"%string; limit_placeholders limit]))
                    (xs ++ vs) None (set_list rt obj (xs ++ vs))) as Hrun.
  { intros vs Hvs. unfold run, obj, xs. destruct args as [l|]; simpl.
    - destruct (Hargs l eq_refl) as [ys Hys]. rewrite Hys. simpl.
      by apply findAll_limited.
    - by apply findAll_limited_fresh. }
  split; [|split].
  - intros Hint. rewrite (Hrun [limit]).
    + unfold limit_placeholders. by rewrite Hint.
    + unfold limit_values. by rewrite Hint.
  - intros a b ->. by rewrite (Hrun [a; b]).
  - intros Hint Hpair.
    destruct (findAll_invalid_limit drv cls where_ orderBy args limit rt Hnone)
      as (Hres & Htrace & _); [|done].
    unfold limit_values. rewrite Hint.
    by destruct limit as [| | | | |[|a [|b [|c items]]]| |].
Qed.

Lemma findAll_limit_shapes_witness :
  (VTuple [VInt 20; VInt 10] ≠ VNone
   ∧ ∀ l, Some 7%nat = Some l → is_Some (heap sample_runtime !! l))
  ∧ findAll (steady_driver 0) sample_schema (Some "email=?"%string) (Some 7%nat)
      (Some "created_at desc"%string) (VTuple [VInt 20; VInt 10]) sample_runtime
    = select (steady_driver 0)
        "select `id`,`email`,`admin`,`name` from `users` where email=? order by created_at desc limit ?,?"
        [VStr "hi@example.com"; VInt 20; VInt 10] None
        (set_list sample_runtime 7 [VStr "hi@example.com"; VInt 20; VInt 10]).
Proof.
  assert (VTuple [VInt 20; VInt 10] ≠ VNone) as H1 by discriminate.
  assert (∀ l, Some 7%nat = Some l → is_Some (heap sample_runtime !! l)) as H2.
  { intros l [= <-]. by eexists. }
  split; [by split|].
  destruct (findAll_limit_shapes (steady_driver 0) sample_schema
              (Some "email=?"%string) (Some 7%nat) (Some "created_at desc"%string)
              (VTuple [VInt 20; VInt 10]) sample_runtime H1 H2)
    as (_ & Hpair & _).
  exact (Hpair (VInt 20) (VInt 10) eq_refl).
Defined.

(** C10. Called with a list of the caller and a well-formed limit, [findAll]
    extends that very list by the limit values before the query runs, and the
    list stays extended afterwards; no other list is touched and none is
    created. Called with [None], it puts the values into a new list and leaves
    every existing list as it was. *)
Theorem findAll_appends_to_callers_list (drv : Driver) (cls : Schema)
    (where_ orderBy : option string) (limit : PyVal) (rt : Runtime)
    (l : nat) (xs vs : list PyVal) :
  heap rt !! l = Some xs →
  limit_values limit = Some vs →
  let run := findAll drv cls where_ (Some l) orderBy limit rt in
  let run_None := findAll drv cls where_ None orderBy limit rt in
  (∃ sql, run = select drv sql (xs ++ vs) None (set_list rt l (xs ++ vs)))
  ∧ heap run.2 = <[l := xs ++ vs]> (heap rt)
  ∧ (∃ sql, run_None
            = select drv sql vs None (set_list rt (fresh (dom (heap rt))) vs))
  ∧ heap run_None.2 = <[fresh (dom (heap rt)) := vs]> (heap rt)
  ∧ (∀ l' ys, heap rt !! l' = Some ys → heap run_None.2 !! l' = Some ys).
Proof.
  intros Hl Hvs run run_None.
  pose proof (findAll_limited drv cls where_ orderBy limit rt l xs vs Hvs Hl) as Hrun.
  pose proof (findAll_limited_fresh drv cls where_ orderBy limit rt vs Hvs) as HrunN.
  fold run in Hrun. fold run_None in HrunN.
  assert (heap run_None.2 = <[fresh (dom (heap rt)) := vs]> (heap rt)) as Hheap.
  { rewrite HrunN. by rewrite select_frame. }
  split; [eauto|]. split; [rewrite Hrun; by rewrite select_frame|].
  split; [eauto|]. split; [exact Hheap|].
  intros l' ys Hys. rewrite Hheap, lookup_insert_ne; [done|].
  intros <-. pose proof (is_fresh (dom (heap rt))) as Hfresh.
  apply Hfresh, elem_of_dom. eauto.
Qed.

Lemma findAll_appends_to_callers_list_witness :
  (heap sample_runtime !! 7%nat = Some [VStr "hi@example.com"]
   ∧ limit_values (VInt 5) = Some [VInt 5])
  ∧ heap (findAll lost_connection sample_schema (Some "email=?"%string)
            (Some 7%nat) None (VInt 5) sample_runtime).2
    = <[7%nat := [VStr "hi@example.com"; VInt 5]]> (heap sample_runtime).
Proof.
  split; [by split|].
  apply (findAll_appends_to_callers_list lost_connection sample_schema
           (Some "email=?"%string) None (VInt 5) sample_runtime 7
           [VStr "hi@example.com"] [VInt 5] eq_refl eq_refl).
Defined.

(** ** Route binding *)

Import WebFrame.

Section Binder.

Implicit Types (h : RequestHandler) (kw copy : gmap string KwVal)
  (names : list string).

Lemma keep_named_lookup names kw (k : string) :
  keep_named names kw !! k = if decide (k ∈ names) then kw !! k else None.
Proof.
  unfold keep_named.
  assert (∀ copy,
            fold_left (λ copy name, match kw !! name with
                                    | Some v => <[name := v]> copy
                                    | None => copy
                                    end) names copy !! k
            = if decide (k ∈ names)
              then match kw !! k with Some v => Some v | None => copy !! k end
              else copy !! k) as Hgen.
  { induction names as [|n names IH]; intros copy; simpl.
    - reflexivity.
    - rewrite IH. destruct (decide (n = k)) as [->|Hne].
      + rewrite (decide_True (P := k ∈ k :: names)) by (by left).
        destruct (kw !! k) as [v|] eqn:Hk.
        * rewrite lookup_insert_eq. by destruct (decide (k ∈ names)).
        * by destruct (decide (k ∈ names)).
      + assert ((match kw !! n with
                 | Some v => <[n := v]> copy
                 | None => copy
                 end) !! k = copy !! k) as ->.
        { destruct (kw !! n); [by rewrite lookup_insert_ne|done]. }
        destruct (decide (k ∈ names)) as [Hin|Hnin].
        * rewrite decide_True; [done|by right].
        * rewrite decide_False; [done|].
          intros Hin. apply elem_of_cons in Hin as [?|?]; congruence. }
  rewrite Hgen, lookup_empty. by destruct (decide (k ∈ names)), (kw !! k).
Qed.

Lemma keep_named_dom names kw :
  dom (keep_named names kw) = dom kw ∩ list_to_set names.
Proof.
  apply set_eq. intros k.
  rewrite elem_of_intersection, !elem_of_dom, elem_of_list_to_set,
    keep_named_lookup.
  destruct (decide (k ∈ names)) as [Hin|Hnin]; [naive_solver|].
  split; [by intros [? ?]|naive_solver].
Qed.

Lemma kw_update_lookup_other {V} (inj : V → KwVal) (items : list (string * V))
    kw (k : string) :
  k ∉ items.*1 → kw_update inj items kw !! k = kw !! k.
Proof.
  unfold kw_update. revert kw.
  induction items as [|[n v] items IH]; intros kw Hk; simpl; [done|].
  apply not_elem_of_cons in Hk as [Hne Hk].
  rewrite IH by done. by rewrite lookup_insert_ne.
Qed.

Lemma kw_update_dom {V} (inj : V → KwVal) (items : list (string * V)) kw :
  dom (kw_update inj items kw) = dom kw ∪ list_to_set items.*1.
Proof.
  unfold kw_update. revert kw.
  induction items as [|[n v] items IH]; intros kw; simpl.
  - set_solver.
  - rewrite IH, dom_insert_L. set_solver.
Qed.

(** The required-argument loop stops at the first name that is not a key. *)
Lemma check_required_missing (pre post : list string) (name : string) kw :
  (∀ n, n ∈ pre → n ∈ dom kw) →
  name ∉ dom kw →
  check_required (pre ++ name :: post) kw = Some name.
Proof.
  intros Hpre Hname. induction pre as [|n pre IH]; simpl.
  - apply not_elem_of_dom in Hname. by rewrite Hname.
  - destruct (kw !! n) eqn:Hn.
    + apply IH. intros m Hm. apply Hpre. by right.
    + exfalso. apply (not_elem_of_dom kw n); [done|]. apply Hpre. by left.
Qed.

Lemma check_required_present (required : list string) kw :
  (∀ n, n ∈ required → n ∈ dom kw) → check_required required kw = None.
Proof.
  induction required as [|n required IH]; intros Hall; simpl; [done|].
  assert (n ∈ dom kw) as [v Hv]%elem_of_dom by (apply Hall; by left).
  rewrite Hv.
  apply IH. intros m Hm. apply Hall. by right.
Qed.

(** A parameter without default is in particular a named one. *)
Lemma required_are_named (fn : Fn) (n : string) :
  n ∈ get_required_kw_args fn → n ∈ get_named_kw_args fn.
Proof.
  unfold get_required_kw_args, get_named_kw_args.
  rewrite !list_elem_of_fmap. intros (p & -> & Hp). exists p. split; [done|].
  apply list_elem_of_In, filter_In. apply list_elem_of_In, filter_In in Hp.
  destruct Hp as [Hin Hp]. split; [done|]. by apply andb_prop in Hp as [? _].
Qed.

Lemma RequestHandler_init_fields (fn : Fn) h :
  RequestHandler_init fn = inr h →
  _func h = fn
  ∧ _has_var_kw_arg h = has_var_kw_arg fn
  ∧ _named_kw_args h = get_named_kw_args fn
  ∧ _required_kw_args h = get_required_kw_args fn.
Proof.
  unfold RequestHandler_init. destruct (has_request_arg fn); [done|].
  by intros [= <-].
Qed.

(** The keys the handler is invoked with. *)
Lemma reconcile_dom h (request : Request) (raw : option (gmap string KwVal)) :
  _has_var_kw_arg h = false →
  _named_kw_args h ≠ [] →
  dom (reconcile h request raw)
  = (from_option dom ∅ raw ∩ list_to_set (_named_kw_args h))
    ∪ list_to_set (match_info request).*1
    ∪ (if _has_request_arg h then {["request"%string]} else ∅).
Proof.
  intros Hvar Hnamed. unfold reconcile. rewrite Hvar. simpl.
  destruct (_named_kw_args h) as [|n names] eqn:Hn; [done|]. simpl.
  destruct raw as [kw|]; simpl;
    destruct (_has_request_arg h);
    rewrite ?dom_insert_L, !kw_update_dom, ?keep_named_dom, ?dom_empty_L;
    set_solver.
Qed.

(** A raw value under a named parameter reaches the handler, unless a path
    placeholder or the request takes its key. *)
Lemma reconcile_lookup_named h (request : Request) kw (k : string) :
  _has_var_kw_arg h = false →
  _named_kw_args h ≠ [] →
  k ∈ _named_kw_args h →
  k ∉ (match_info request).*1 →
  k ≠ "request"%string →
  reconcile h request (Some kw) !! k = kw !! k.
Proof.
  intros Hvar Hnamed Hk Hpath Hreq. unfold reconcile. rewrite Hvar. simpl.
  destruct (_named_kw_args h) as [|n names] eqn:Hn; [done|]. simpl.
  assert (kw_update (λ v, KwV (VStr v)) (match_info request)
            (keep_named (n :: names) kw) !! k = kw !! k) as Hlookup.
  { rewrite kw_update_lookup_other by done.
    rewrite keep_named_lookup. by rewrite decide_True. }
  destruct (_has_request_arg h); [by rewrite lookup_insert_ne|done].
Qed.

End Binder.

(** C6 does not hold of the code. For a handler with required keyword
    parameters and no variadic keywords, once the request has been parsed:
    the keys the handler is invoked with are the raw keys that are named
    keyword parameters (every other raw key is dropped), the path
    placeholders and, when the handler declares it, [request]; a raw value
    under a named parameter is passed on as it is. When all required
    parameters are among these keys the handler is invoked with exactly these
    keys. When one is not, the handler is not invoked, but no client error
    comes back: the dispatcher calls [web.HTTPBadRequest] with the message
    naming the first such parameter as a positional argument, the constructor
    takes keyword arguments only, and [__call__] raises [TypeError]. *)
Theorem binding_of_required_keywords (fn : Fn) (h : RequestHandler)
    (request : Request) (raw : option (gmap string KwVal)) :
  RequestHandler_init fn = inr h →
  _required_kw_args h ≠ [] →
  _has_var_kw_arg h = false →
  parse_request h request = inr (inr raw) →
  let kw := reconcile h request raw in
  dom kw
  = (from_option dom ∅ raw ∩ list_to_set (_named_kw_args h))
    ∪ list_to_set (match_info request).*1
    ∪ (if _has_request_arg h then {["request"%string]} else ∅)
  ∧ (∀ rawkw k, raw = Some rawkw → k ∈ _named_kw_args h →
       k ∉ (match_info request).*1 → k ≠ "request"%string →
       kw !! k = rawkw !! k)
  ∧ (∀ pre name post, _required_kw_args h = pre ++ name :: post →
       (∀ n, n ∈ pre → n ∈ dom kw) → name ∉ dom kw →
       bind_arguments h request = bad_request ("Missing argument: " +:+ name)
       ∧ RequestHandler_call h request
         = inl (TypeError "__init__() takes 1 positional argument but more were given"))
  ∧ ((∀ n, n ∈ _required_kw_args h → n ∈ dom kw) →
     bind_arguments h request = inr (inr kw)
     ∧ RequestHandler_call h request = handler_outcome h kw).
Proof.
  intros Hinit Hreq Hvar Hparse kw.
  destruct (RequestHandler_init_fields fn h Hinit) as (_ & _ & Hnamed_eq & Hreq_eq).
  assert (_named_kw_args h ≠ []) as Hnamed.
  { destruct (_required_kw_args h) as [|n ns] eqn:Hn; [done|].
    assert (n ∈ _named_kw_args h) as Hin.
    { rewrite Hnamed_eq. apply required_are_named. rewrite <- Hreq_eq. by left. }
    intros Hnil. rewrite Hnil in Hin. by apply elem_of_nil in Hin. }
  split; [by apply reconcile_dom|]. split; [|split].
  - intros rawkw k -> Hk Hpath Hne. by apply reconcile_lookup_named.
  - intros pre name post Hsplit Hpre Hname.
    assert (bind_arguments h request = bad_request ("Missing argument: " +:+ name))
      as Hbind.
    { unfold bind_arguments. rewrite Hparse. fold kw. rewrite Hsplit.
      by rewrite (check_required_missing pre post name kw Hpre Hname). }
    split; [exact Hbind|]. unfold RequestHandler_call. by rewrite Hbind.
  - intros Hall.
    assert (bind_arguments h request = inr (inr kw)) as Hbind.
    { unfold bind_arguments. rewrite Hparse. fold kw.
      by rewrite (check_required_present _ kw Hall). }
    split; [exact Hbind|].
    unfold RequestHandler_call, handler_outcome. by rewrite Hbind.
Qed.

Lemma binding_of_required_keywords_witness :
  (RequestHandler_init api_create_comment = inr create_comment_handler
   ∧ _required_kw_args create_comment_handler ≠ []
   ∧ _has_var_kw_arg create_comment_handler = false
   ∧ parse_request create_comment_handler create_comment_request
     = inr (inr (Some {[ "content"%string := KwV (VStr "hi");
                         "extra"%string := KwV (VStr "x") ]})))
  ∧ dom (reconcile create_comment_handler create_comment_request
           (Some {[ "content"%string := KwV (VStr "hi");
                    "extra"%string := KwV (VStr "x") ]}))
    = (dom ({[ "content"%string := KwV (VStr "hi");
               "extra"%string := KwV (VStr "x") ]} : gmap string KwVal)
       ∩ list_to_set (_named_kw_args create_comment_handler))
      ∪ list_to_set (match_info create_comment_request).*1
      ∪ {["request"%string]}.
Proof.
  assert (RequestHandler_init api_create_comment = inr create_comment_handler)
    as H1 by reflexivity.
  assert (_required_kw_args create_comment_handler ≠ []) as H2 by discriminate.
  assert (_has_var_kw_arg create_comment_handler = false) as H3 by reflexivity.
  assert (parse_request create_comment_handler create_comment_request
          = inr (inr (Some {[ "content"%string := KwV (VStr "hi");
                              "extra"%string := KwV (VStr "x") ]})))
    as H4 by (vm_compute; reflexivity).
  split; [by repeat split|].
  destruct (binding_of_required_keywords api_create_comment create_comment_handler
              create_comment_request _ H1 H2 H3 H4) as (Hdom & _).
  exact Hdom.
Defined.

(** The failing input of C6: a comment posted without [content]. The
    dispatcher raises [TypeError] where the specification asks for a client
    error naming [content]. *)
Lemma create_comment_without_content_raises :
  RequestHandler_init api_create_comment = inr create_comment_handler
  ∧ _required_kw_args create_comment_handler = ["content"%string]
  ∧ parse_request create_comment_handler comment_without_content
    = inr (inr (Some {[ "extra"%string := KwV (VStr "x") ]}))
  ∧ ("content"%string
     ∉ dom (reconcile create_comment_handler comment_without_content
              (Some {[ "extra"%string := KwV (VStr "x") ]})))
  ∧ RequestHandler_call create_comment_handler comment_without_content
    = inl (TypeError "__init__() takes 1 positional argument but more were given").
Proof.
  split; [reflexivity|]. split; [reflexivity|].
  split; [vm_compute; reflexivity|]. split; [|vm_compute; reflexivity].
  assert (reconcile create_comment_handler comment_without_content
            (Some {[ "extra"%string := KwV (VStr "x") ]})
          = {[ "id"%string := KwV (VStr "42"); "request"%string := KwRequest ]})
    as -> by (vm_compute; reflexivity).
  rewrite !dom_insert_L. set_solver.
Qed.

(** The handler is also invoked with more than the keyword parameters it
    names: [api_create_comment] names [content] and is invoked with
    [content], the path placeholder [id] and [request]. *)
Lemma create_comment_gets_more_than_named :
  RequestHandler_init api_create_comment = inr create_comment_handler
  ∧ _has_var_kw_arg create_comment_handler = false
  ∧ _required_kw_args create_comment_handler = ["content"%string]
  ∧ ∃ kw,
      bind_arguments create_comment_handler create_comment_request = inr (inr kw)
      ∧ kw = {[ "content"%string := KwV (VStr "hi");
                "id"%string := KwV (VStr "42");
                "request"%string := KwRequest ]}
      ∧ dom kw ≠ list_to_set (_named_kw_args create_comment_handler).
Proof.
  split; [reflexivity|]. split; [reflexivity|]. split; [reflexivity|].
  exists {[ "content"%string := KwV (VStr "hi"); "id"%string := KwV (VStr "42");
            "request"%string := KwRequest ]}.
  split; [vm_compute; reflexivity|]. split; [reflexivity|].
  intros Heq.
  assert ("id"%string ∈ (list_to_set (_named_kw_args create_comment_handler)
                           : gset string)) as Hin.
  { rewrite <- Heq. rewrite !dom_insert_L. set_solver. }
  simpl in Hin. set_solver.
Qed.

(** ** The response middleware *)

(** C7 does not hold of the code. A handler that returns the integer 204
    makes the middleware call [web.Response(204)]: the status is passed
    positionally to a constructor that takes keyword arguments only, so the
    call raises [TypeError] and no response with status 204 is built. The
    branch for a (status, message) pair passes [status=] by keyword and does
    build the response. *)
Theorem response_factory_int_status
    (json_dumps : list (string * PyVal) → string)
    (render : PyVal → list (string * PyVal) → Exn + string)
    (py_str : PyVal → string) (request_user m : PyVal) :
  App.response_factory json_dumps render py_str request_user (RPy (VInt 204))
  = inl (TypeError "__init__() takes 1 positional argument but more were given")
  ∧ App.response_factory json_dumps render py_str request_user
      (RPy (VTuple [VInt 204; m]))
    = inr (Some (Aiohttp.Response 204 (py_str m) "text/plain")).
Proof. split; reflexivity. Qed.

(** * Further properties of the code *)

(** ** The connection and the transaction calls *)

Ltac run_calls drv :=
  unfold execute, select, with_conn, try_except, bind, driver_call, emit, when,
    modify, raise, ret, log, new_events;
  simpl;
  repeat match goal with
         | |- context [on_acquire drv] => destruct (on_acquire drv)
         | |- context [on_begin drv] => destruct (on_begin drv)
         | |- context [on_cursor drv] => destruct (on_cursor drv)
         | |- context [on_execute drv ?s ?a] => destruct (on_execute drv s a)
         | |- context [on_fetch drv ?s ?a] => destruct (on_fetch drv s a)
         | |- context [on_close drv] => destruct (on_close drv)
         | |- context [on_commit drv] => destruct (on_commit drv)
         | |- context [on_rollback drv] => destruct (on_rollback drv)
         end;
  simpl.

Lemma new_events_app (before evs : list Event) :
  drop (length before) (before ++ evs) = evs.
Proof. by rewrite drop_app_length. Qed.

(** Whatever the driver answers, [execute] and [select] hand a connection they
    obtained back to the pool: among the events of a run there is one
    acquisition and one release, and the release comes last. When the pool
    refuses the connection, its exception reaches the caller and nothing is
    released, since nothing was obtained. *)
Theorem connection_always_released (drv : Driver) (sql : string)
    (args : list PyVal) (autocommit : bool) (size : option nat) (rt : Runtime) :
  let written := new_events rt (execute drv sql args autocommit rt).2 in
  let read := new_events rt (select drv sql args size rt).2 in
  (on_acquire drv = None →
   last written = Some EvRelease
   ∧ length (List.filter is_acquire written) = 1%nat
   ∧ length (List.filter is_release written) = 1%nat
   ∧ last read = Some EvRelease
   ∧ length (List.filter is_acquire read) = 1%nat
   ∧ length (List.filter is_release read) = 1%nat)
  ∧ (∀ e, on_acquire drv = Some e →
     (execute drv sql args autocommit rt).1 = inl e
     ∧ (select drv sql args size rt).1 = inl e
     ∧ List.filter is_release written = []
     ∧ List.filter is_release read = []).
Proof.
  intros written read. subst written read. split.
  - intros Hacq. unfold new_events.
    destruct autocommit, size as [[|n]|]; run_calls drv; try discriminate;
      rewrite <- ?app_assoc, ?new_events_app; by repeat split.
  - intros e Hacq. unfold new_events.
    destruct autocommit, size as [[|n]|]; run_calls drv; try discriminate;
      injection Hacq as <-;
      rewrite <- ?app_assoc, ?new_events_app; by repeat split.
Qed.

(** With autocommit on, [execute] never calls begin, commit or rollback, so
    what these would answer does not matter, and an exception of the
    statement reaches the caller as it is. *)
Theorem execute_autocommit_no_transaction (drv : Driver) (sql : string)
    (args : list PyVal) (rt : Runtime) (b c r : option Exn) :
  let run := execute drv sql args true rt in
  run = execute (with_transaction_answers drv b c r) sql args true rt
  ∧ List.filter is_transaction_call (new_events rt run.2) = []
  ∧ (∀ e, on_acquire drv = None → on_cursor drv = None →
       on_execute drv (replace_qmark sql) args = Some e → run.1 = inl e)
  ∧ (on_acquire drv = None → on_cursor drv = None →
     on_execute drv (replace_qmark sql) args = None → on_close drv = None →
     run.1 = inr (rowcount drv (replace_qmark sql) args)).
Proof.
  intros run. subst run. split; [|split; [|split]].
  - unfold with_transaction_answers, execute, with_conn, try_except, bind,
      driver_call, emit, when, modify, raise, ret, log. simpl.
    by destruct (on_acquire drv), (on_cursor drv),
      (on_execute drv (replace_qmark sql) args), (on_close drv).
  - run_calls drv; by rewrite <- ?app_assoc, ?new_events_app.
  - intros e Hacq Hcur Hex. run_calls drv; congruence.
  - intros Hacq Hcur Hex Hclose. run_calls drv; congruence.
Qed.

(** ** Defaults are resolved once *)

(** A resolution that gave a value other than [None] has stored it on the
    instance: resolving the same key again gives the same value and changes
    nothing, so a default generator is not invoked a second time. *)
Theorem getValueOrDefault_cached (cls : Schema) (key : string) (v : PyVal)
    (rt rt1 : Runtime) :
  getValueOrDefault cls key rt = (inr v, rt1) →
  v ≠ VNone →
  self rt1 !! key = Some v
  ∧ getValueOrDefault cls key rt1 = (inr v, rt1).
Proof.
  intros Hrun Hv.
  assert (self rt1 !! key = Some v) as Hstored.
  { revert Hrun. unfold getValueOrDefault, bind, getValue, gets.
    destruct (getattr_or_None (self rt) key) eqn:Hget;
      try (intros [= <- <-]; unfold getattr_or_None in Hget;
           by destruct (self rt !! key) as [w|]; simplify_eq).
    destruct (__mappings__ cls !! key) as [fld|]; [|done].
    destruct (default fld) as [d|g].
    - destruct d; unfold emit, setattr, modify, ret; simpl;
        intros [= <- <-]; try done; simpl; by rewrite lookup_insert_eq.
    - unfold call_default, emit, setattr, modify, ret. simpl.
      intros [= <- <-]. simpl. by rewrite lookup_insert_eq. }
  split; [exact Hstored|].
  unfold getValueOrDefault, bind, getValue, gets, getattr_or_None.
  rewrite Hstored. by destruct v.
Qed.

Lemma getValueOrDefault_cached_witness :
  (getValueOrDefault sample_schema "id" sample_runtime
   = (inr (VInt 0),
      mkRuntime (<["id"%string := VInt 0]> (self sample_runtime)) 1
        (heap sample_runtime) [EvDebug "id" (VInt 0)])
   ∧ VInt 0 ≠ VNone)
  ∧ getValueOrDefault sample_schema "id"
      (mkRuntime (<["id"%string := VInt 0]> (self sample_runtime)) 1
         (heap sample_runtime) [EvDebug "id" (VInt 0)])
    = (inr (VInt 0),
       mkRuntime (<["id"%string := VInt 0]> (self sample_runtime)) 1
         (heap sample_runtime) [EvDebug "id" (VInt 0)]).
Proof.
  assert (getValueOrDefault sample_schema "id" sample_runtime
          = (inr (VInt 0),
             mkRuntime (<["id"%string := VInt 0]> (self sample_runtime)) 1
               (heap sample_runtime) [EvDebug "id" (VInt 0)])) as H1
    by reflexivity.
  assert (VInt 0 ≠ VNone) as H2 by discriminate.
  split; [by split|].
  apply (getValueOrDefault_cached sample_schema "id" (VInt 0) sample_runtime _ H1 H2).
Defined.

(** ** Saving, then updating *)

(** After [save], whatever the driver answered, an [update] of the same
    instance binds the very values [save] bound, the resolved defaults
    included. *)
Theorem update_after_save_binds_saved_values (cname : string) (attrs : Attrs)
    (cls : Schema) (drv drv' : Driver) (rt : Runtime) :
  Forall named attrs →
  NoDup attrs.*1 →
  ModelMetaclass_new cname attrs = inr (ModelClass cls) →
  ∃ args rt1,
    save drv cls rt
    = after_execute "failed to insert record: affected rows: %s"
        (execute drv (__insert__ cls) args true rt1)
    ∧ update drv' cls (save drv cls rt).2
      = after_execute "failed to update by primary key: affected rows: %s"
          (execute drv' (__update__ cls) args true (save drv cls rt).2).
Proof.
  intros Hnamed Hnd Hnew.
  destruct (ModelClass_inv cname attrs cls Hnamed Hnew) as (pk & Hpk & ->).
  destruct (derived_columns cname attrs pk Hnd Hpk) as [Hnodup Hmapped].
  destruct (save_run drv _ rt Hnodup Hmapped) as (rt1 & Hsave & _).
  eexists _, rt1. split; [exact Hsave|].
  rewrite update_run. do 3 f_equal.
  rewrite Hsave.
  destruct (after_execute_frame "failed to insert record: affected rows: %s"
              (execute drv (__insert__ (derived_schema cname attrs pk))
                 (map (getattr_or_None (self rt1))
                    (bound_columns (derived_schema cname attrs pk))) true rt1))
    as (Hs & _).
  destruct (execute_frame drv (__insert__ (derived_schema cname attrs pk))
              (map (getattr_or_None (self rt1))
                 (bound_columns (derived_schema cname attrs pk))) true rt1)
    as (Hs' & _).
  by rewrite Hs, Hs'.
Qed.

Lemma update_after_save_binds_saved_values_witness :
  (Forall named sample_attrs
   ∧ NoDup sample_attrs.*1
   ∧ ModelMetaclass_new "User" sample_attrs = inr (ModelClass sample_schema))
  ∧ ∃ args rt1,
      save lost_connection sample_schema sample_runtime
      = after_execute "failed to insert record: affected rows: %s"
          (execute lost_connection (__insert__ sample_schema) args true rt1)
      ∧ update (steady_driver 1) sample_schema
          (save lost_connection sample_schema sample_runtime).2
        = after_execute "failed to update by primary key: affected rows: %s"
            (execute (steady_driver 1) (__update__ sample_schema) args true
               (save lost_connection sample_schema sample_runtime).2).
Proof.
  assert (Forall named sample_attrs) as H1 by (repeat constructor; discriminate).
  assert (NoDup sample_attrs.*1) as H2 by compute_done.
  assert (ModelMetaclass_new "User" sample_attrs = inr (ModelClass sample_schema))
    as H3 by (vm_compute; reflexivity).
  split; [by repeat split|].
  apply (update_after_save_binds_saved_values "User" sample_attrs sample_schema
           lost_connection (steady_driver 1) sample_runtime H1 H2 H3).
Defined.

(** ** Reading *)

Lemma select_served (drv : Driver) (sql : string) (args : list PyVal)
    (size : option nat) (rows : list Row) (rt : Runtime) :
  serves drv sql args rows →
  select drv sql args size rt
  = (inr (match size with
          | Some (Datatypes.S n) => take (Datatypes.S n) rows
          | _ => rows
          end),
     add_trace rt [EvInfo ("SQL:" +:+ sql); EvAcquire; EvCursor;
                   EvExecute (replace_qmark sql) args; EvFetch size; EvClose;
                   EvInfo "rows returned"; EvRelease]).
Proof.
  intros (Hacq & Hcur & Hex & Hfetch & Hclose).
  unfold select, with_conn, try_except, bind, driver_call, emit, modify, raise,
    ret, log, add_trace. simpl.
  rewrite Hacq, Hcur, Hex, Hfetch, Hclose. simpl.
  destruct size as [[|n]|]; simpl; by rewrite <- !app_assoc.
Qed.

(** [find] asks for the row under the key with one query, bound to the key
    alone, and reads at most one row: when the driver has none it returns
    [None] and raises nothing, otherwise it returns the first row. *)
Theorem find_first_or_None (drv : Driver) (cls : Schema) (pk : PyVal)
    (rows : list Row) (rt : Runtime) :
  let sql := __select__ cls +:+ " where `" +:+ __primary_key__ cls +:+ "`=?" in
  serves drv sql [pk] rows →
  find drv cls pk rt
  = (inr (head rows),
     add_trace rt [EvInfo ("SQL:" +:+ sql); EvAcquire; EvCursor;
                   EvExecute (replace_qmark sql) [pk]; EvFetch (Some 1%nat);
                   EvClose; EvInfo "rows returned"; EvRelease])
  ∧ ((find drv cls pk rt).1 = inr None ↔ rows = []).
Proof.
  intros sql Hserves.
  assert (find drv cls pk rt
          = (inr (head rows),
             add_trace rt [EvInfo ("SQL:" +:+ sql); EvAcquire; EvCursor;
                           EvExecute (replace_qmark sql) [pk];
                           EvFetch (Some 1%nat); EvClose; EvInfo "rows returned";
                           EvRelease])) as Hrun.
  { unfold find. fold sql.
    rewrite (bind_returns _ _ _ _ _
               (select_served drv sql [pk] (Some 1%nat) rows rt Hserves)).
    by destruct rows as [|r rows]. }
  split; [exact Hrun|]. rewrite Hrun. simpl.
  destruct rows; split; intros; simplify_eq; done.
Qed.

Lemma find_first_or_None_witness :
  serves (serving [ {[ "id"%string := VInt 7 ]}; {[ "id"%string := VInt 8 ]} ])
    (__select__ sample_schema +:+ " where `" +:+ __primary_key__ sample_schema
       +:+ "`=?") [VInt 7]
    [ {[ "id"%string := VInt 7 ]}; {[ "id"%string := VInt 8 ]} ]
  ∧ (find (serving [ {[ "id"%string := VInt 7 ]}; {[ "id"%string := VInt 8 ]} ])
       sample_schema (VInt 7) sample_runtime).1
    = inr (Some {[ "id"%string := VInt 7 ]}).
Proof.
  assert (serves (serving [ {[ "id"%string := VInt 7 ]}; {[ "id"%string := VInt 8 ]} ])
            (__select__ sample_schema +:+ " where `"
               +:+ __primary_key__ sample_schema +:+ "`=?") [VInt 7]
            [ {[ "id"%string := VInt 7 ]}; {[ "id"%string := VInt 8 ]} ]) as H1
    by (by repeat split).
  split; [exact H1|].
  destruct (find_first_or_None _ sample_schema (VInt 7) _ sample_runtime H1)
    as [Hrun _].
  by rewrite Hrun.
Defined.

(** [findNumber] reads one row of an aggregate query: no row gives [None], a
    first row with the column [_num_] gives its value, and a first row
    without it raises [KeyError], after the connection has gone back to the
    pool. Without [args] the query is run on no arguments. *)
Theorem findNumber_first_row (drv : Driver) (cls : Schema)
    (selectField : string) (rows : list Row) (rt : Runtime) :
  let sql := "select " +:+ selectField +:+ " _num_ from `" +:+ __table__ cls +:+ "`" in
  let after := add_trace rt [EvInfo ("SQL:" +:+ sql); EvAcquire; EvCursor;
                             EvExecute (replace_qmark sql) []; EvFetch (Some 1%nat);
                             EvClose; EvInfo "rows returned"; EvRelease] in
  serves drv sql [] rows →
  findNumber drv cls selectField None None rt
  = (match rows with
     | [] => inr VNone
     | r :: _ => match r !! "_num_"%string with
                 | Some v => inr v
                 | None => inl (KeyError "_num_")
                 end
     end, after)
  ∧ findNumber drv cls selectField (Some ""%string) None rt
    = findNumber drv cls selectField None None rt.
Proof.
  intros sql after Hserves. split; [|reflexivity].
  unfold findNumber. simpl. fold sql.
  unfold bind at 1. unfold ret at 1.
  rewrite (bind_returns _ _ _ _ _
             (select_served drv sql [] (Some 1%nat) rows rt Hserves)).
  destruct rows as [|r rows]; [reflexivity|]. simpl.
  by destruct (r !! "_num_"%string).
Qed.

Lemma findNumber_first_row_witness :
  serves (serving [ {[ "_num_"%string := VInt 3 ]} ])
    ("select count(id) _num_ from `" +:+ __table__ sample_schema +:+ "`") []
    [ {[ "_num_"%string := VInt 3 ]} ]
  ∧ (findNumber (serving [ {[ "_num_"%string := VInt 3 ]} ]) sample_schema
       "count(id)" None None sample_runtime).1 = inr (VInt 3).
Proof.
  assert (serves (serving [ {[ "_num_"%string := VInt 3 ]} ])
            ("select count(id) _num_ from `" +:+ __table__ sample_schema +:+ "`")
            [] [ {[ "_num_"%string := VInt 3 ]} ]) as H1 by (by repeat split).
  split; [exact H1|].
  destruct (findNumber_first_row _ sample_schema "count(id)" _ sample_runtime H1)
    as [Hrun _].
  by rewrite Hrun.
Defined.

(** ** What the metaclass leaves in the class *)

(** The two list filters, on a predicate and a test that agree on the list. *)
Lemma filter_agree {A} (P : A → Prop) `{!∀ x, Decision (P x)} (b : A → bool)
    (l : list A) :
  (∀ x, x ∈ l → P x ↔ b x = true) → filter P l = List.filter b l.
Proof.
  induction l as [|x l IH]; intros Hl; [reflexivity|].
  rewrite filter_cons. simpl. rewrite IH by (intros y Hy; apply Hl; by right).
  destruct (decide (P x)) as [HP|HP].
  - apply Hl in HP; [|by left]. by rewrite HP.
  - destruct (b x) eqn:Hb; [|done]. exfalso. apply HP, Hl; [by left|done].
Qed.

(** A [dict] binds a name once. *)
Lemma class_body_binds_once (attrs : Attrs) (k : string) (v w : AttrVal) :
  NoDup attrs.*1 → (k, v) ∈ attrs → (k, w) ∈ attrs → v = w.
Proof.
  induction attrs as [|[n u] attrs IH]; intros Hnd Hv Hw;
    [by apply elem_of_nil in Hv|].
  rewrite fmap_cons in Hnd. apply NoDup_cons in Hnd as [Hn Hnd]. simpl in Hn.
  assert (∀ x, (n, x) ∉ attrs) as Hfresh.
  { intros x Hin. apply Hn, list_elem_of_fmap. by exists (n, x). }
  apply elem_of_cons in Hv as [Hv|Hv], Hw as [Hw|Hw]; simplify_eq.
  - done.
  - by apply Hfresh in Hw.
  - by apply Hfresh in Hv.
  - by apply IH.
Qed.

Lemma declared_fields_cons (n : string) (v : AttrVal) (attrs : Attrs)
    (m : gmap string Field) :
  declared_fields ((n, v) :: attrs) m
  = declared_fields attrs match v with
                          | AField f => <[n := f]> m
                          | AObj _ _ => m
                          end.
Proof. reflexivity. Qed.

Lemma declared_fields_lookup (attrs : Attrs) (m : gmap string Field)
    (k : string) (f : Field) :
  NoDup attrs.*1 →
  declared_fields attrs m !! k = Some f
  ↔ (k, AField f) ∈ attrs ∨ ((∀ g, (k, AField g) ∉ attrs) ∧ m !! k = Some f).
Proof.
  revert m. induction attrs as [|[n v] attrs IH]; intros m Hnd.
  - split; [intros Hm; right; split; [intros g; apply not_elem_of_nil|done]|].
    intros [Hin|[_ Hm]]; [by apply elem_of_nil in Hin|done].
  - rewrite fmap_cons in Hnd. apply NoDup_cons in Hnd as [Hn Hnd]. simpl in Hn.
    assert (∀ w, (n, w) ∉ attrs) as Hfresh.
    { intros w Hin. apply Hn, list_elem_of_fmap. by exists (n, w). }
    rewrite declared_fields_cons, IH by done.
    destruct v as [g|t s].
    + split.
      * intros [Hin|[Hk Hm]]; [left; by right|].
        destruct (decide (n = k)) as [->|Hne].
        -- rewrite lookup_insert_eq in Hm. injection Hm as ->. left. by left.
        -- rewrite lookup_insert_ne in Hm by done. right. split; [|done].
           intros g' Hin. apply elem_of_cons in Hin as [Heq|Hin];
             [congruence|by apply (Hk g')].
      * intros [Hin|[Hk Hm]].
        -- apply elem_of_cons in Hin as [Heq|Hin]; [|by left].
           injection Heq as -> ->. right.
           split; [intros g'; apply Hfresh|by rewrite lookup_insert_eq].
        -- assert (n ≠ k) as Hne.
           { intros ->. apply (Hk g). by left. }
           right. split; [|by rewrite lookup_insert_ne].
           intros g' Hin. apply (Hk g'). by right.
    + split.
      * intros [Hin|[Hk Hm]]; [left; by right|].
        right. split; [|done]. intros g' Hin.
        apply elem_of_cons in Hin as [Heq|Hin]; [done|by apply (Hk g')].
      * intros [Hin|[Hk Hm]].
        -- apply elem_of_cons in Hin as [Heq|Hin]; [done|by left].
        -- right. split; [|done]. intros g' Hin. apply (Hk g'). by right.
Qed.

(** For a class body with distinct names the derived class maps exactly the
    declared fields, these are the columns its statements bind, and what is
    left among the class attributes is every other attribute in its order:
    no field stays behind to shadow an instance value. *)
Theorem derived_class_namespace (cname : string) (attrs : Attrs) (cls : Schema) :
  Forall named attrs →
  NoDup attrs.*1 →
  ModelMetaclass_new cname attrs = inr (ModelClass cls) →
  (∀ k f, __mappings__ cls !! k = Some f ↔ (k, AField f) ∈ attrs)
  ∧ (∀ k, is_Some (__mappings__ cls !! k) ↔ k ∈ bound_columns cls)
  ∧ other_attrs cls = List.filter (λ kv, negb (is_field kv.2)) attrs.
Proof.
  intros Hnamed Hnd Hnew.
  destruct (ModelClass_inv cname attrs cls Hnamed Hnew) as (pk & Hpk & ->).
  assert (∀ k f, declared_fields attrs ∅ !! k = Some f ↔ (k, AField f) ∈ attrs)
    as Hmap.
  { intros k f. rewrite declared_fields_lookup by done. rewrite lookup_empty.
    naive_solver. }
  split; [exact Hmap|]. split.
  - intros k. unfold bound_columns. simpl. rewrite <- Hpk. split.
    + intros [f Hf]. apply Hmap in Hf. apply elem_of_app.
      destruct (primary_key f) eqn:Hflag; [right|left];
        apply list_elem_of_omap; exists (k, AField f); simpl; by rewrite Hflag.
    + intros Hk. apply elem_of_app in Hk as [Hk|Hk].
      * by apply nonkey_names_declared.
      * by apply pk_names_declared.
  - simpl. unfold pop_mapped.
    assert (∀ kv, kv ∈ attrs →
              (declared_fields attrs ∅ !! kv.1 = None ↔ is_field kv.2 = false))
      as Hrest.
    { intros [k v] Hin. simpl. split.
      - intros Hnone. destruct v as [f|]; [|done].
        apply Hmap in Hin. congruence.
      - intros Hv. destruct v as [f|t s]; [done|].
        destruct (declared_fields attrs ∅ !! k) as [g|] eqn:Hg; [|done].
        apply Hmap in Hg.
        by pose proof (class_body_binds_once attrs k _ _ Hnd Hin Hg). }
    apply filter_agree. intros kv Hkv. rewrite (Hrest kv Hkv).
    by destruct (is_field kv.2).
Qed.

Lemma derived_class_namespace_witness :
  (Forall named sample_attrs
   ∧ NoDup sample_attrs.*1
   ∧ ModelMetaclass_new "User" sample_attrs = inr (ModelClass sample_schema))
  ∧ other_attrs sample_schema = [("__table__"%string, AStr "users")].
Proof.
  assert (Forall named sample_attrs) as H1 by (repeat constructor; discriminate).
  assert (NoDup sample_attrs.*1) as H2 by compute_done.
  assert (ModelMetaclass_new "User" sample_attrs = inr (ModelClass sample_schema))
    as H3 by (vm_compute; reflexivity).
  split; [by repeat split|].
  destruct (derived_class_namespace "User" sample_attrs sample_schema H1 H2 H3)
    as (_ & _ & Hrest).
  exact Hrest.
Defined.

(** ** The placeholder translation *)

(** What [execute] and [select] send to the driver contains no portable
    placeholder any more: every ['?'] has become ['%s'], everything else is
    kept, and the translation goes through concatenation, so it does not
    matter whether a statement is translated whole or in parts. *)
Theorem replace_qmark_translates (s1 s2 : string) :
  count_char "?" (replace_qmark s1) = O
  ∧ String.length (replace_qmark s1)
    = (String.length s1 + count_char "?" s1)%nat
  ∧ count_char "%" (replace_qmark s1)
    = (count_char "%" s1 + count_char "?" s1)%nat
  ∧ replace_qmark (s1 +:+ s2) = replace_qmark s1 +:+ replace_qmark s2
  ∧ (qfree s1 → replace_qmark s1 = s1).
Proof.
  split; [|split; [|split; [|split]]].
  - induction s1 as [|c s IH]; simpl; [reflexivity|].
    destruct (Ascii.eqb_spec c "?") as [->|Hc]; simpl; [exact IH|].
    rewrite IH. by destruct (Ascii.eqb_spec c "?").
  - induction s1 as [|c s IH]; simpl; [reflexivity|].
    destruct (Ascii.eqb_spec c "?") as [->|Hc]; simpl; rewrite IH; lia.
  - induction s1 as [|c s IH]; simpl; [reflexivity|].
    destruct (Ascii.eqb_spec c "?") as [->|Hc]; simpl; rewrite IH; lia.
  - induction s1 as [|c s IH]; [reflexivity|].
    rewrite append_cons. simpl.
    destruct (Ascii.eqb c "?"); rewrite IH; reflexivity.
  - unfold qfree. induction s1 as [|c s IH]; simpl; [reflexivity|].
    destruct (Ascii.eqb c "?"); [discriminate|]. intros Hs. by rewrite IH.
Qed.

(** ** Finding without a limit *)

(** Without a limit, [findAll] leaves the list of the caller as it is and
    runs the query on its items; a filter or an ordering that is the empty
    string is left out of the statement like one that is [None]. *)
Theorem findAll_without_limit (drv : Driver) (cls : Schema)
    (where_ orderBy : option string) (rt : Runtime) (l : nat)
    (xs : list PyVal) :
  heap rt !! l = Some xs →
  let run := findAll drv cls where_ (Some l) orderBy VNone rt in
  run = select drv (join " " (query_parts cls where_ orderBy)) xs None rt
  ∧ heap run.2 = heap rt
  ∧ findAll drv cls (Some ""%string) (Some l) (Some ""%string) VNone rt
    = select drv (__select__ cls) xs None rt.
Proof.
  intros Hl run.
  assert (∀ w o, findAll drv cls w (Some l) o VNone rt
                 = select drv (join " " (query_parts cls w o)) xs None rt) as Hrun.
  { intros w o. unfold findAll, query_parts.
    destruct (opt_truthy w), (opt_truthy o);
      unfold bind, ret, list_items, gets; simpl; rewrite Hl;
      by destruct (select _ _ _ _ _) as [[e|rs] rt']. }
  split; [apply Hrun|]. split.
  - unfold run. rewrite Hrun. apply select_frame.
  - by rewrite Hrun.
Qed.

Lemma findAll_without_limit_witness :
  heap sample_runtime !! 7%nat = Some [VStr "hi@example.com"]
  ∧ heap (findAll (serving []) sample_schema (Some "email=?"%string)
            (Some 7%nat) None VNone sample_runtime).2
    = heap sample_runtime.
Proof.
  split; [reflexivity|].
  apply (findAll_without_limit (serving []) sample_schema (Some "email=?"%string)
           None sample_runtime 7 [VStr "hi@example.com"] eq_refl).
Defined.

(** ** Signatures with a [request] parameter *)

Section RequestArg.

Lemma has_request_arg_loop_found (ps : list Param) :
  has_request_arg_loop ps true
  = if existsb (λ p, negb (is_request p) && is_positional p) ps
    then inl (ValueError
                "request parameter must be the last named parameter in function: %s%s"
                VNone)
    else inr true.
Proof.
  induction ps as [|p ps IH]; simpl; [reflexivity|].
  unfold is_request at 1. destruct (String.eqb (pname p) "request"); simpl;
    [exact IH|].
  unfold is_positional, is_kind.
  destruct p as [n [] d]; simpl; first [exact IH | reflexivity].
Qed.

Lemma has_request_arg_loop_seek (pre rest : list Param) :
  Forall (λ p, is_request p = false) pre →
  has_request_arg_loop (pre ++ rest) false = has_request_arg_loop rest false.
Proof.
  induction 1 as [|p pre Hp _ IH]; simpl; [reflexivity|].
  unfold is_request in Hp. by rewrite Hp.
Qed.

(** [has_request_arg] tells whether the function has a parameter named
    [request], and refuses the function with [ValueError] exactly when a named
    positional parameter other than [request] comes after the first one:
    after [request] only [*args], keyword-only parameters and [**kw] may
    follow. A function without [request] is never refused. *)
Theorem has_request_arg_accepts (fn : Fn) :
  (Forall (λ p, is_request p = false) (parameters fn) →
   has_request_arg fn = inr false)
  ∧ (∀ pre r post,
       parameters fn = pre ++ r :: post →
       Forall (λ p, is_request p = false) pre →
       is_request r = true →
       has_request_arg fn
       = if existsb (λ p, negb (is_request p) && is_positional p) post
         then inl (ValueError
                     "request parameter must be the last named parameter in function: %s%s"
                     VNone)
         else inr true).
Proof.
  unfold has_request_arg. split.
  - intros Hnone. rewrite <- (app_nil_r (parameters fn)).
    by rewrite has_request_arg_loop_seek.
  - intros pre r post -> Hpre Hr.
    rewrite has_request_arg_loop_seek by done. simpl.
    unfold is_request in Hr. rewrite Hr. apply has_request_arg_loop_found.
Qed.

End RequestArg.

(** ** More on route binding *)

Section BinderMore.

Implicit Types (h : RequestHandler) (request : Request)
  (kw : gmap string KwVal).

Lemma existsb_filter_nil {A} (f : A → bool) (l : list A) :
  existsb f l = false → List.filter f l = [].
Proof.
  induction l as [|x l IH]; simpl; [done|].
  destruct (f x); simpl; [done|exact IH].
Qed.

(** The last binding of a name in a list of items is what [kw] holds for it
    afterwards. *)
Lemma kw_update_lookup_last {V} (inj : V → KwVal) (pre post : list (string * V))
    (k : string) (v : V) kw :
  k ∉ post.*1 →
  kw_update inj (pre ++ (k, v) :: post) kw !! k = Some (inj v).
Proof.
  intros Hpost. unfold kw_update. rewrite fold_left_app. simpl.
  fold (kw_update inj post
          (<[k := inj v]> (fold_left (λ acc kv, <[kv.1 := inj kv.2]> acc) pre kw))).
  rewrite kw_update_lookup_other by done. apply lookup_insert_eq.
Qed.

(** A handler that declares neither keyword-only parameters nor [**kw] is
    invoked with the path placeholders and, if it declares it, the request:
    the method, the content type, the body and the query string are not
    looked at, so none of them can make the dispatcher refuse the request or
    raise. *)
Theorem positional_handler_ignores_body (fn : Fn) h request :
  RequestHandler_init fn = inr h →
  existsb (is_kind KEYWORD_ONLY) (parameters fn) = false →
  existsb (is_kind VAR_KEYWORD) (parameters fn) = false →
  let kw := kw_update (λ v, KwV (VStr v)) (match_info request) ∅ in
  bind_arguments h request
  = inr (inr (if _has_request_arg h then <["request"%string := KwRequest]> kw
              else kw))
  ∧ RequestHandler_call h request
    = handler_outcome h (if _has_request_arg h
                         then <["request"%string := KwRequest]> kw else kw).
Proof.
  intros Hinit Hkwonly Hvar kw.
  assert (_has_var_kw_arg h = false ∧ _has_named_kw_args h = false
          ∧ _required_kw_args h = []) as (Hv & Hn & Hr).
  { unfold RequestHandler_init in Hinit.
    destruct (has_request_arg fn); [done|]. injection Hinit as <-. simpl.
    split; [exact Hvar|]. split; [exact Hkwonly|].
    unfold get_required_kw_args.
    rewrite (existsb_filter_nil _ (parameters fn)); [done|].
    clear -Hkwonly. induction (parameters fn) as [|p ps IH]; [done|].
    simpl in *. apply orb_false_iff in Hkwonly as [Hp Hps].
    rewrite Hp. simpl. by apply IH. }
  assert (bind_arguments h request
          = inr (inr (if _has_request_arg h
                      then <["request"%string := KwRequest]> kw else kw))) as Hbind.
  { unfold bind_arguments, parse_request, reconcile. rewrite Hv, Hn, Hr. simpl.
    by destruct (_has_request_arg h). }
  split; [exact Hbind|].
  unfold RequestHandler_call, handler_outcome. by rewrite Hbind.
Qed.

Lemma positional_handler_ignores_body_witness :
  (RequestHandler_init api_delete_comments
   = inr (mkRequestHandler api_delete_comments true false false [] [])
   ∧ existsb (is_kind KEYWORD_ONLY) (parameters api_delete_comments) = false
   ∧ existsb (is_kind VAR_KEYWORD) (parameters api_delete_comments) = false)
  ∧ bind_arguments (mkRequestHandler api_delete_comments true false false [] [])
      (mkRequest "POST" "" (inl (DriverError 0)) (inl (DriverError 0)) "" []
         [("id"%string, "42"%string)])
    = inr (inr (<["request"%string := KwRequest]>
                  (kw_update (λ v, KwV (VStr v)) [("id"%string, "42"%string)] ∅))).
Proof.
  split; [by repeat split|].
  apply (positional_handler_ignores_body api_delete_comments _
           (mkRequest "POST" "" (inl (DriverError 0)) (inl (DriverError 0)) "" []
              [("id"%string, "42"%string)]) eq_refl eq_refl eq_refl).
Defined.

(** A handler with [**kw] is handed every raw key: nothing is filtered out,
    and the keys of the invocation are the raw keys, the path placeholders
    and, if declared, [request]. *)
Theorem variadic_handler_keeps_raw_keys h request (raw : gmap string KwVal) :
  _has_var_kw_arg h = true →
  let kw := reconcile h request (Some raw) in
  dom kw
  = dom raw ∪ list_to_set (match_info request).*1
    ∪ (if _has_request_arg h then {["request"%string]} else ∅)
  ∧ (∀ k, k ∉ (match_info request).*1 → k ≠ "request"%string →
          kw !! k = raw !! k).
Proof.
  intros Hvar kw. unfold kw, reconcile. rewrite Hvar. simpl. split.
  - destruct (_has_request_arg h);
      rewrite ?dom_insert_L, !kw_update_dom; set_solver.
  - intros k Hpath Hreq.
    destruct (_has_request_arg h);
      rewrite ?lookup_insert_ne by done; by apply kw_update_lookup_other.
Qed.

Lemma variadic_handler_keeps_raw_keys_witness :
  _has_var_kw_arg (mkRequestHandler api_delete_comments false true false [] [])
  = true
  ∧ reconcile (mkRequestHandler api_delete_comments false true false [] [])
      create_comment_request
      (Some {[ "extra"%string := KwV (VStr "x") ]}) !! "extra"%string
    = ({[ "extra"%string := KwV (VStr "x") ]} : gmap string KwVal) !! "extra"%string.
Proof.
  split; [reflexivity|].
  destruct (variadic_handler_keeps_raw_keys
              (mkRequestHandler api_delete_comments false true false [] [])
              create_comment_request {[ "extra"%string := KwV (VStr "x") ]} eq_refl)
    as [_ Hkeep].
  apply Hkeep.
  - simpl. set_solver.
  - discriminate.
Defined.

(** On a name that is both a body or query key and a path placeholder the
    path wins, and [request], when the handler declares it, is the request
    object whatever the body or the path carry under that name. *)
Theorem path_and_request_win h request (raw : option (gmap string KwVal))
    (pre post : list (string * string)) (k v : string) :
  match_info request = pre ++ (k, v) :: post →
  k ∉ post.*1 →
  let kw := reconcile h request raw in
  (_has_request_arg h = true → kw !! "request"%string = Some KwRequest)
  ∧ (k ≠ "request"%string ∨ _has_request_arg h = false →
     kw !! k = Some (KwV (VStr v))).
Proof.
  intros Hinfo Hpost kw. unfold kw, reconcile. split.
  - intros ->. apply lookup_insert_eq.
  - intros Hk.
    assert (∀ kw0, kw_update (λ v, KwV (VStr v)) (match_info request) kw0 !! k
                   = Some (KwV (VStr v))) as Hpath.
    { intros kw0. rewrite Hinfo.
      by rewrite (kw_update_lookup_last (λ v, KwV (VStr v)) pre post k v kw0 Hpost). }
    destruct (_has_request_arg h) eqn:Hreq.
    + destruct Hk as [Hk|Hk]; [|done].
      rewrite lookup_insert_ne by done. destruct raw; apply Hpath.
    + destruct raw; apply Hpath.
Qed.

Lemma path_and_request_win_witness :
  (match_info create_comment_request = [] ++ ("id"%string, "42"%string) :: []
   ∧ "id"%string ∉ ([] : list (string * string)).*1)
  ∧ reconcile create_comment_handler create_comment_request
      (Some {[ "id"%string := KwV (VStr "from the body");
               "request"%string := KwV (VStr "from the body") ]})
      !! "request"%string = Some KwRequest.
Proof.
  assert ("id"%string ∉ ([] : list (string * string)).*1) as H2
    by apply not_elem_of_nil.
  split; [by split|].
  destruct (path_and_request_win create_comment_handler create_comment_request
              (Some {[ "id"%string := KwV (VStr "from the body");
                       "request"%string := KwV (VStr "from the body") ]})
              [] [] "id" "42" eq_refl H2) as [Hreq _].
  by apply Hreq.
Defined.

End BinderMore.

(** ** Registration of routes *)

Section Registration.

Implicit Types (router : Router) (items : PyModule).

Lemma register_attr_cases (item : string * ModAttr) router :
  if is_route item
  then match route_of item with
       | Some r => register_attr item router = (inr tt, router ++ [r])
       | None => ∃ e, register_attr item router = (inl e, router)
       end
  else register_attr item router = (inr tt, router).
Proof.
  destruct item as [attr [fn|]]; unfold is_route, register_attr, route_of; simpl;
    destruct (startswith attr "_"); simpl; try reflexivity.
  destruct (__method__ fn) as [m|] eqn:Hm, (__route__ fn) as [p|] eqn:Hp; simpl;
    rewrite ?andb_false_r; try reflexivity.
  destruct (str_truthy m && str_truthy p); [|reflexivity].
  unfold add_route. rewrite Hm, Hp.
  destruct (RequestHandler_init (func fn)) as [e|h]; [by exists e|reflexivity].
Qed.

Lemma register_all_cons (item : string * ModAttr) items router :
  register_all (item :: items) router
  = match register_attr item router with
    | (inr _, router') => register_all items router'
    | (inl e, router') => (inl e, router')
    end.
Proof.
  simpl. unfold bind. by destruct (register_attr item router) as [[e|[]] router'].
Qed.

(** [add_routes] only adds to the routes, and what it adds comes from the
    attributes of the module that are callable, do not start with an
    underscore and carry a non-empty method and path, in the order of
    [dir(mod)]. When the handler of each of these is accepted, every one of
    them is registered, with the binding computed from its signature; if
    one is refused, the routes registered before it stay. When the import
    fails nothing is registered. *)
Theorem add_routes_registers_routes (import_ : string → Exn + PyModule)
    (module_name : string) router :
  let run := add_routes import_ module_name router in
  (∀ e, import_ (import_name module_name) = inl e → run = (inl e, router))
  ∧ (∀ items, import_ (import_name module_name) = inr items →
       (∃ added, run.2 = router ++ added
                 ∧ added `prefix_of` omap route_of (List.filter is_route items))
       ∧ (Forall (λ item, is_route item = true → is_Some (route_of item)) items →
          run = (inr tt, router ++ omap route_of (List.filter is_route items)))).
Proof.
  intros run. subst run. unfold add_routes. split.
  - by intros e ->.
  - intros items ->. split.
    + revert router. induction items as [|item items IH]; intros router.
      * exists []. simpl. by rewrite app_nil_r.
      * rewrite register_all_cons.
        pose proof (register_attr_cases item router) as Hcase.
        cbn [List.filter].
        destruct (is_route item) eqn:Hroute.
        -- cbn [omap list_omap]. destruct (route_of item) as [r|] eqn:Hr.
           ++ rewrite Hcase. destruct (IH (router ++ [r])) as (added & Heq & Hpre).
              exists (r :: added). rewrite Heq, <- app_assoc. split; [done|].
              by apply prefix_cons.
           ++ destruct Hcase as [e ->]. exists []. simpl.
              split; [by rewrite app_nil_r|apply prefix_nil].
        -- rewrite Hcase. apply IH.
    + intros Hall. revert router.
      induction Hall as [|item items Hitem _ IH]; intros router.
      * simpl. by rewrite app_nil_r.
      * rewrite register_all_cons.
        pose proof (register_attr_cases item router) as Hcase.
        cbn [List.filter].
        destruct (is_route item) eqn:Hroute.
        -- cbn [omap list_omap]. destruct (Hitem eq_refl) as [r Hr].
           rewrite Hr in Hcase |- *.
           rewrite Hcase, IH. by rewrite <- app_assoc.
        -- rewrite Hcase. apply IH.
Qed.

Lemma rfind_dot_from_dotless (i : nat) (s : string) :
  count_char "." s = O → rfind_dot_from i s = None.
Proof.
  revert i. induction s as [|c s IH]; intros i Hs; simpl in *; [reflexivity|].
  destruct (Ascii.eqb c "."); [discriminate|]. by rewrite IH.
Qed.

Lemma rfind_dot_from_last (i : nat) (m ext : string) :
  count_char "." ext = O →
  rfind_dot_from i (m +:+ "." +:+ ext) = Some (i + String.length m)%nat.
Proof.
  intros Hext. revert i. induction m as [|c m IH]; intros i.
  - change ("" +:+ "." +:+ ext) with (String "."%char ext). simpl.
    rewrite rfind_dot_from_dotless by done. f_equal. lia.
  - rewrite append_cons. simpl. rewrite IH. f_equal. simpl. lia.
Qed.

Lemma take_chars_app (m rest : string) :
  take_chars (String.length m) (m +:+ rest) = m.
Proof.
  induction m as [|c m IH]; [by destruct rest|].
  rewrite append_cons. simpl. by rewrite IH.
Qed.

(** The module [add_routes] imports is the given name up to its last dot: a
    name without a dot is imported as it is, and a name with a last
    component, such as a file name with its extension, loses it. *)
Theorem import_name_drops_last_component (m ext : string) :
  (count_char "." m = O → import_name m = m)
  ∧ (count_char "." ext = O → import_name (m +:+ "." +:+ ext) = m).
Proof.
  unfold import_name. split.
  - intros Hm. by rewrite rfind_dot_from_dotless.
  - intros Hext. rewrite rfind_dot_from_last by done. simpl.
    apply take_chars_app.
Qed.

End Registration.

(** ** Bodies of POST requests *)

(** What the first stage raises leaves [__call__]; the handler is not
    invoked. *)
Lemma parse_failure_propagates (h : RequestHandler) (request : Request) (e : Exn) :
  parse_request h request = inl e → RequestHandler_call h request = inl e.
Proof.
  intros Hparse. unfold RequestHandler_call, bind_arguments. by rewrite Hparse.
Qed.

(** For a handler with keyword parameters, a POST request gets as far as the
    handler only with a JSON body that is an object or with a form body, and
    then all keys of the body are the raw keywords. With an empty content
    type, with a JSON body that is not an object and with any other content
    type the handler is not invoked and no answer is built either: the
    dispatcher calls [web.HTTPBadRequest] with the message as a positional
    argument, and the [TypeError] of that call leaves [__call__]. *)
Theorem post_needs_a_supported_body (h : RequestHandler) (request : Request) :
  _has_var_kw_arg h || _has_named_kw_args h
    || negb (Nat.eqb (length (_required_kw_args h)) 0) = true →
  method request = "POST"%string →
  let ct := lower (content_type request) in
  let is_json := startswith ct "application/json" in
  let is_form := startswith ct "application/x-www-form-urlencoded"
                 || startswith ct "multipart/form-data" in
  (∀ raw, parse_request h request = inr (inr raw) →
     ∃ items, raw = Some (kw_update KwV items ∅)
              ∧ content_type request ≠ ""%string
              ∧ ((is_json = true ∧ json request = inr (VDict items))
                 ∨ (is_json = false ∧ is_form = true
                    ∧ post request = inr items)))
  ∧ (content_type request = ""%string →
     parse_request h request = bad_request "Missing Content-Type."
     ∧ RequestHandler_call h request
       = inl (TypeError "__init__() takes 1 positional argument but more were given"))
  ∧ (∀ v, content_type request ≠ ""%string → is_json = true →
       json request = inr v → (∀ items, v ≠ VDict items) →
       parse_request h request = bad_request "JSON body must be object."
       ∧ RequestHandler_call h request
         = inl (TypeError "__init__() takes 1 positional argument but more were given"))
  ∧ (content_type request ≠ ""%string → is_json = false → is_form = false →
     parse_request h request
     = bad_request ("Unsupported Content-Type: " +:+ content_type request)
     ∧ RequestHandler_call h request
       = inl (TypeError "__init__() takes 1 positional argument but more were given")).
Proof.
  intros Hkw Hpost ct is_json is_form.
  assert (∀ s, str_truthy s = false ↔ s = ""%string) as Hempty.
  { intros s. unfold str_truthy.
    destruct (String.eqb_spec s ""); naive_solver. }
  assert (∀ msg, parse_request h request = bad_request msg →
            parse_request h request = bad_request msg
            ∧ RequestHandler_call h request
              = inl (TypeError "__init__() takes 1 positional argument but more were given"))
    as Hrefused.
  { intros msg Hparse. split; [exact Hparse|].
    apply parse_failure_propagates. by rewrite Hparse. }
  split; [|split; [|split]].
  - intros raw. unfold parse_request. rewrite Hkw, Hpost. simpl. fold ct.
    fold is_json. fold is_form.
    destruct (str_truthy (content_type request)) eqn:Hct; simpl; [|done].
    assert (content_type request ≠ ""%string) as Hne.
    { intros H0. apply Hempty in H0. congruence. }
    destruct is_json.
    + destruct (json request) as [e|[]]; try done.
      intros [= <-]. eexists. by repeat split; eauto.
    + destruct is_form; [|done].
      destruct (post request) as [e|items]; [done|].
      intros [= <-]. exists items. by repeat split; eauto.
  - intros Hct. apply Hrefused. unfold parse_request. rewrite Hkw, Hpost. simpl.
    apply Hempty in Hct. by rewrite Hct.
  - intros v Hct Hj Hv Hobj. apply Hrefused.
    unfold parse_request. rewrite Hkw, Hpost. simpl. fold ct. fold is_json.
    destruct (str_truthy (content_type request)) eqn:Hs;
      [|by apply Hempty in Hs].
    simpl. rewrite Hj, Hv. destruct v; try done. by destruct (Hobj items).
  - intros Hct Hj Hf. apply Hrefused.
    unfold parse_request. rewrite Hkw, Hpost. simpl. fold ct. fold is_json.
    fold is_form.
    destruct (str_truthy (content_type request)) eqn:Hs;
      [|by apply Hempty in Hs].
    simpl. by rewrite Hj, Hf.
Qed.

Lemma post_needs_a_supported_body_witness :
  (_has_var_kw_arg create_comment_handler
     || _has_named_kw_args create_comment_handler
     || negb (Nat.eqb (length (_required_kw_args create_comment_handler)) 0) = true
   ∧ method create_comment_request = "POST"%string)
  ∧ (∃ items,
        parse_request create_comment_handler create_comment_request
        = inr (inr (Some (kw_update KwV items ∅)))
        ∧ json create_comment_request = inr (VDict items))
  ∧ RequestHandler_call create_comment_handler
      (mkRequest "POST" "text/plain" (inr VNone) (inr []) "" []
         [("id"%string, "42"%string)])
    = inl (TypeError "__init__() takes 1 positional argument but more were given").
Proof.
  split; [by split|]. split.
  - destruct (post_needs_a_supported_body create_comment_handler
                create_comment_request eq_refl eq_refl) as (Hok & _).
    destruct (Hok _ eq_refl) as (items & Hraw & _ & [[_ Hjson]|(Hno & _)]);
      [|discriminate Hno].
    exists items. split; [|exact Hjson].
    injection Hjson as <-. reflexivity.
  - assert ("text/plain"%string ≠ ""%string) as Hct by discriminate.
    exact (proj2 (proj2 (proj2 (proj2
             (post_needs_a_supported_body create_comment_handler
                (mkRequest "POST" "text/plain" (inr VNone) (inr []) "" []
                   [("id"%string, "42"%string)]) eq_refl eq_refl)))
             Hct eq_refl eq_refl)).
Defined.

(** ** The helpers of the handlers *)

Import Handlers.

Section Text.

Lemma count_char_replace_other (c d : ascii) (by_ s : string) :
  c ≠ d →
  count_char c (replace_char d by_ s)
  = (count_char c s + count_char d s * count_char c by_)%nat.
Proof.
  intros Hne. induction s as [|x s IH]; simpl; [reflexivity|].
  destruct (Ascii.eqb_spec x d) as [->|Hx].
  - rewrite count_char_app, IH.
    destruct (Ascii.eqb_spec d c) as [?|_]; [congruence|]. lia.
  - simpl. rewrite IH. destruct (Ascii.eqb x c); lia.
Qed.

Lemma count_char_replace_same (d : ascii) (by_ s : string) :
  count_char d (replace_char d by_ s) = (count_char d s * count_char d by_)%nat.
Proof.
  induction s as [|x s IH]; simpl; [reflexivity|].
  destruct (Ascii.eqb_spec x d) as [->|Hx].
  - rewrite count_char_app, IH. lia.
  - simpl. rewrite IH. destruct (Ascii.eqb_spec x d); [congruence|]. lia.
Qed.

Lemma split_on_pieces (sep : ascii) (s : string) :
  split_on sep s ≠ [] ∧ Forall (λ piece, count_char sep piece = O) (split_on sep s).
Proof.
  induction s as [|x s [Hne Hall]]; simpl.
  - split; [done|]. by repeat constructor.
  - destruct (Ascii.eqb_spec x sep) as [->|Hx].
    + split; [done|]. by constructor.
    + destruct (split_on sep s) as [|piece pieces]; [done|]. split; [done|].
      apply Forall_cons in Hall as [Hpiece Hall]. constructor; [|done].
      simpl. by destruct (Ascii.eqb_spec x sep).
Qed.

Lemma split_on_free (sep : ascii) (s : string) :
  count_char sep s = O → split_on sep s = [s].
Proof.
  induction s as [|x s IH]; simpl; [reflexivity|].
  destruct (Ascii.eqb x sep); [discriminate|]. intros Hs. by rewrite IH.
Qed.

Lemma split_on_app (sep : ascii) (a b : string) :
  count_char sep a = O →
  split_on sep (a +:+ String sep b) = a :: split_on sep b.
Proof.
  induction a as [|x a IH]; simpl.
  - intros _. by rewrite Ascii.eqb_refl.
  - destruct (Ascii.eqb x sep); [discriminate|]. intros Ha. by rewrite IH.
Qed.

Lemma escape_line_counts (s : string) :
  count_char "<" (escape_line s) = O
  ∧ count_char ">" (escape_line s) = O
  ∧ count_char "010" (escape_line s) = count_char "010" s.
Proof.
  unfold escape_line. split; [|split].
  - rewrite count_char_replace_other by discriminate.
    rewrite count_char_replace_same. simpl. lia.
  - rewrite count_char_replace_same. simpl. lia.
  - rewrite !count_char_replace_other by discriminate. simpl. lia.
Qed.

(** In the output of [text2html] the only angle brackets are those of the
    paragraph tags, two of each per line that is kept: no tag of the text
    survives the escaping. The output has no line break, and a text of blank
    lines only gives the empty string. *)
Theorem text2html_escapes (is_blank : string → bool) (text : string) :
  let kept := List.filter (λ s, negb (is_blank s)) (split_on "010" text) in
  count_char "<" (text2html is_blank text) = (2 * length kept)%nat
  ∧ count_char ">" (text2html is_blank text) = (2 * length kept)%nat
  ∧ count_char "010" (text2html is_blank text) = O
  ∧ (kept = [] → text2html is_blank text = ""%string).
Proof.
  intros kept. unfold text2html. fold kept.
  assert (Forall (λ piece, count_char "010" piece = O) kept) as Hkept.
  { apply Forall_forall. intros piece Hin.
    apply list_elem_of_In, filter_In in Hin as [Hin _].
    destruct (split_on_pieces "010" text) as [_ Hall].
    rewrite Forall_forall in Hall. by apply Hall, list_elem_of_In. }
  rewrite !count_char_join by reflexivity.
  split; [|split; [|split]].
  - clear Hkept. induction kept as [|s kept IH]; simpl; [reflexivity|].
    rewrite IH, !count_char_app.
    destruct (escape_line_counts s) as (-> & _ & _). simpl. lia.
  - clear Hkept. induction kept as [|s kept IH]; simpl; [reflexivity|].
    rewrite IH, !count_char_app.
    destruct (escape_line_counts s) as (_ & -> & _). simpl. lia.
  - induction Hkept as [|s kept Hs _ IH]; simpl; [reflexivity|].
    rewrite IH, !count_char_app.
    destruct (escape_line_counts s) as (_ & _ & ->). rewrite Hs. reflexivity.
  - by intros ->.
Qed.

(** [get_page_index] never gives a page below 1: text that is no integer and
    integers below 1 give page 1, any other integer is the page. *)
Theorem get_page_index_at_least_1 (py_int : string → option Z) (page_str : string) :
  1 ≤ get_page_index py_int page_str
  ∧ (py_int page_str = None → get_page_index py_int page_str = 1)
  ∧ (∀ n, py_int page_str = Some n → get_page_index py_int page_str = Z.max 1 n).
Proof.
  unfold get_page_index. split; [|split].
  - destruct (py_int page_str) as [n|]; [|done].
    destruct (Z.ltb_spec n 1); lia.
  - by intros ->.
  - intros n ->. destruct (Z.ltb_spec n 1); lia.
Qed.

End Text.

(** ** Session cookies *)

Section Cookies.

Variable py_int : string → option Z.
Variable py_str : PyVal → string.
Variable sha1_hex : string → string.
Variable key : string.
Variable before_now : Z → bool.

Lemma split_on_length (sep : ascii) (s : string) :
  length (split_on sep s) = Datatypes.S (count_char sep s).
Proof.
  induction s as [|x s IH]; simpl; [reflexivity|].
  destruct (Ascii.eqb x sep); simpl; [by rewrite IH|].
  destruct (split_on sep s) as [|piece pieces]; [discriminate|exact IH].
Qed.

Lemma pretty_N_go_dashless (x : N) (s : string) :
  count_char "-" s = O → count_char "-" (pretty_N_go x s) = O.
Proof.
  revert s. induction (N.lt_wf_0 x) as [x _ IH]. intros s Hs.
  destruct (decide (0 < x)%N) as [Hx|Hx].
  - rewrite pretty_N_go_step by done. apply IH.
    + apply N.div_lt; lia.
    + simpl. rewrite Hs.
      destruct (Ascii.eqb_spec (pretty_N_char (x `mod` 10)) "-") as [Hc|_];
        [|reflexivity].
      exfalso. unfold pretty_N_char in Hc. repeat case_match; discriminate.
  - assert (x = 0%N) as -> by lia. by rewrite pretty_N_go_0.
Qed.

(** The decimal text of an integer that is not negative has no dash. *)
Lemma pretty_Z_dashless (n : Z) : 0 ≤ n → count_char "-" (pretty n) = O.
Proof.
  destruct n as [|p|p]; [reflexivity| |lia]. intros _.
  unfold pretty, pretty_Z, pretty, pretty_N.
  destruct (decide (N.pos p = 0%N)); [done|].
  by apply pretty_N_go_dashless.
Qed.

Lemma find_served (drv : Driver) (cls : Schema) (pk : PyVal)
    (rows : list Row) (rt : Runtime) :
  let sql := __select__ cls +:+ " where `" +:+ __primary_key__ cls +:+ "`=?" in
  serves drv sql [pk] rows →
  find drv cls pk rt
  = (inr (head rows),
     add_trace rt [EvInfo ("SQL:" +:+ sql); EvAcquire; EvCursor;
                   EvExecute (replace_qmark sql) [pk]; EvFetch (Some 1%nat);
                   EvClose; EvInfo "rows returned"; EvRelease]).
Proof.
  intros sql Hserves. unfold find. fold sql.
  rewrite (bind_returns _ _ _ _ _
             (select_served drv sql [pk] (Some 1%nat) rows rt Hserves)).
  by destruct rows as [|r rows].
Qed.

Lemma split_on_dash (a b : string) :
  count_char "-" a = O → split_on "-" (a +:+ "-" +:+ b) = a :: split_on "-" b.
Proof. exact (split_on_app "-" a b). Qed.

(** The outcomes of [cookie2user]. What it raises is no [Exception] and was
    raised by the query for the user; a user it returns is the row found
    under the first piece of the cookie, with the password masked. *)
Lemma cookie2user_cases (drv : Driver) (User : Schema)
    (cookie : option string) (rt : Runtime) :
  ∃ r rt',
    cookie2user py_int py_str sha1_hex key before_now drv User cookie rt
    = (r, rt')
    ∧ (∀ e, r = inl e →
         is_Exception e = false
         ∧ ∃ c uid expires sha1 n,
             cookie = Some c
             ∧ split_on "-" c = [uid; expires; sha1]
             ∧ py_int expires = Some n
             ∧ before_now n = false
             ∧ find drv User (VStr uid) rt = (inl e, rt'))
    ∧ ∀ u, r = inr (Some u) →
        ∃ c uid expires sha1 n stored pw,
          cookie = Some c
          ∧ split_on "-" c = [uid; expires; sha1]
          ∧ py_int expires = Some n
          ∧ before_now n = false
          ∧ find drv User (VStr uid) rt = (inr (Some stored), rt')
          ∧ stored !! "passwd"%string = Some pw
          ∧ sha1 = sha1_hex (signed_text key uid (fmt py_str pw) expires)
          ∧ u = <["passwd"%string := VStr "******"]> stored.
Proof.
  assert (∀ rt' : Runtime,
            (∀ e : Exn, @inr Exn (option Instance) None = inl e →
               is_Exception e = false
               ∧ ∃ c uid expires sha1 n,
                   cookie = Some c
                   ∧ split_on "-" c = [uid; expires; sha1]
                   ∧ py_int expires = Some n
                   ∧ before_now n = false
                   ∧ find drv User (VStr uid) rt = (inl e, rt'))
            ∧ ∀ u, @inr Exn (option Instance) None = inr (Some u) →
                ∃ c uid expires sha1 n stored pw,
                  cookie = Some c
                  ∧ split_on "-" c = [uid; expires; sha1]
                  ∧ py_int expires = Some n
                  ∧ before_now n = false
                  ∧ find drv User (VStr uid) rt = (inr (Some stored), rt')
                  ∧ stored !! "passwd"%string = Some pw
                  ∧ sha1 = sha1_hex (signed_text key uid (fmt py_str pw) expires)
                  ∧ u = <["passwd"%string := VStr "******"]> stored) as Hnone.
  { intros rt'. split; [intros e He|intros u Hu]; discriminate. }
  unfold cookie2user.
  destruct cookie as [c|]; [|by exists (inr None), rt].
  destruct (str_truthy c); simpl; [|by exists (inr None), rt].
  unfold except_Exception, cookie2user_body.
  destruct (split_on "-" c) as [|uid [|expires [|sha1 [|? ?]]]] eqn:Hsplit;
    try by exists (inr None), rt.
  destruct (py_int expires) as [n|] eqn:Hint; [|by exists (inr None), rt].
  destruct (before_now n) eqn:Hnow; [by exists (inr None), rt|].
  unfold bind.
  destruct (find drv User (VStr uid) rt) as [[e|[stored|]] rt'] eqn:Hfind;
    [| |by exists (inr None), rt'].
  - destruct (is_Exception e) eqn:He; [by exists (inr None), rt'|].
    exists (inl e), rt'. split; [reflexivity|]. split; [|discriminate].
    intros e' [= <-]. split; [exact He|].
    by exists c, uid, expires, sha1, n.
  - unfold attr. destruct (stored !! "passwd"%string) as [pw|] eqn:Hpw;
      [|by exists (inr None), rt'].
    destruct (String.eqb_spec sha1
                (sha1_hex (signed_text key uid (fmt py_str pw) expires)))
      as [Hsha|Hsha]; simpl; [|by exists (inr None), rt'].
    exists (inr (Some (<["passwd"%string := VStr "******"]> stored))), rt'.
    split; [reflexivity|]. split; [discriminate|]. intros u [= <-].
    by exists c, uid, expires, sha1, n, stored, pw.
Qed.

(** [cookie2user] catches every [Exception]: whatever the cookie holds, it
    raises only what is not an [Exception] and was raised by the query for
    the user, after a cookie of three pieces whose expiry is an integer that
    is not past. A user is returned only for such a cookie whose first piece
    finds a row and whose last piece is the digest of the first piece, the
    password of that row, the expiry and the secret; the user is that row
    with the password replaced by six asterisks. *)
Theorem cookie2user_only_signed (drv : Driver) (User : Schema)
    (cookie : option string) (rt : Runtime) :
  (∀ e,
     (cookie2user py_int py_str sha1_hex key before_now drv User cookie rt).1
     = inl e →
     is_Exception e = false
     ∧ ∃ c uid expires sha1 n,
         cookie = Some c
         ∧ split_on "-" c = [uid; expires; sha1]
         ∧ py_int expires = Some n
         ∧ before_now n = false
         ∧ (find drv User (VStr uid) rt).1 = inl e)
  ∧ ∀ u,
      (cookie2user py_int py_str sha1_hex key before_now drv User cookie rt).1
      = inr (Some u) →
      u !! "passwd"%string = Some (VStr "******")
      ∧ ∃ c uid expires sha1 n stored pw,
          cookie = Some c
          ∧ split_on "-" c = [uid; expires; sha1]
          ∧ py_int expires = Some n
          ∧ before_now n = false
          ∧ (find drv User (VStr uid) rt).1 = inr (Some stored)
          ∧ stored !! "passwd"%string = Some pw
          ∧ sha1 = sha1_hex (signed_text key uid (fmt py_str pw) expires)
          ∧ u = <["passwd"%string := VStr "******"]> stored.
Proof.
  destruct (cookie2user_cases drv User cookie rt)
    as (r & rt' & Hrun & Hraised & Hsome).
  rewrite Hrun. simpl. split.
  - intros e ->.
    destruct (Hraised e eq_refl)
      as (He & c & uid & expires & sha1 & n & ? & ? & ? & ? & Hfind).
    split; [exact He|]. exists c, uid, expires, sha1, n. by rewrite Hfind.
  - intros u ->.
    destruct (Hsome u eq_refl)
      as (c & uid & expires & sha1 & n & stored & pw & ? & ? & ? & ? & Hfind
          & ? & ? & ->).
    split; [by rewrite lookup_insert_eq|].
    exists c, uid, expires, sha1, n, stored, pw. by rewrite Hfind.
Qed.

(** A cookie that has not exactly two dashes, or whose expiry is no integer
    or is past, is turned down before the database is asked: the result is
    [None] and nothing has been done. *)
Theorem cookie2user_rejects_early (drv : Driver) (User : Schema)
    (c : string) (rt : Runtime) :
  (count_char "-" c ≠ 2%nat →
   cookie2user py_int py_str sha1_hex key before_now drv User (Some c) rt
   = (inr None, rt))
  ∧ (∀ uid expires sha1,
       split_on "-" c = [uid; expires; sha1] →
       py_int expires = None ∨ (∃ n, py_int expires = Some n ∧ before_now n = true) →
       cookie2user py_int py_str sha1_hex key before_now drv User (Some c) rt
       = (inr None, rt)).
Proof.
  unfold cookie2user. split.
  - intros Hdashes. destruct (str_truthy c); simpl; [|reflexivity].
    unfold except_Exception, cookie2user_body.
    pose proof (split_on_length "-" c) as Hlen.
    destruct (split_on "-" c) as [|uid [|expires [|sha1 [|? ?]]]];
      try reflexivity.
    simpl in Hlen. congruence.
  - intros uid expires sha1 Hsplit Hexp.
    destruct (str_truthy c); simpl; [|reflexivity].
    unfold except_Exception, cookie2user_body. rewrite Hsplit.
    destruct Hexp as [->|(n & -> & ->)]; reflexivity.
Qed.

(** The cookie [user2cookie] makes for a user is accepted by [cookie2user]
    as long as it has not expired and the row under the user's id still
    holds the same password: the user is then the row with the password
    masked. The id has no dash, the deadline is not negative and [int] reads
    back its decimal text, and the digest has no dash. *)
Theorem cookie_round_trip (drv : Driver) (User : Schema)
    (user stored : Instance) (rows : list Row) (uid : string) (pw pw' : PyVal)
    (deadline : Z) (rt : Runtime) :
  let signature :=
    sha1_hex (signed_text key uid (fmt py_str pw) (pretty deadline)) in
  user !! "id"%string = Some (VStr uid) →
  user !! "passwd"%string = Some pw →
  count_char "-" uid = O →
  0 ≤ deadline →
  py_int (pretty deadline) = Some deadline →
  before_now deadline = false →
  count_char "-" signature = O →
  serves drv
    (__select__ User +:+ " where `" +:+ __primary_key__ User +:+ "`=?")
    [VStr uid] (stored :: rows) →
  stored !! "passwd"%string = Some pw' →
  fmt py_str pw' = fmt py_str pw →
  user2cookie py_str sha1_hex key user deadline
  = inr (uid +:+ "-" +:+ pretty deadline +:+ "-" +:+ signature)
  ∧ (cookie2user py_int py_str sha1_hex key before_now drv User
       (Some (uid +:+ "-" +:+ pretty deadline +:+ "-" +:+ signature)) rt).1
    = inr (Some (<["passwd"%string := VStr "******"]> stored)).
Proof.
  intros signature Hid Hpw Huid Hdeadline Hint Hnow Hsig Hserves Hpw' Hfmt.
  split.
  - unfold user2cookie, attr. rewrite Hid, Hpw. simpl.
    reflexivity.
  - unfold cookie2user.
    assert (str_truthy (uid +:+ "-" +:+ pretty deadline +:+ "-" +:+ signature)
            = true) as ->.
    { destruct uid; reflexivity. }
    simpl. unfold except_Exception, cookie2user_body.
    rewrite (split_on_dash uid _ Huid).
    rewrite (split_on_dash (pretty deadline) _ (pretty_Z_dashless _ Hdeadline)).
    rewrite (split_on_free "-" signature Hsig).
    rewrite Hint, Hnow.
    rewrite (bind_returns _ _ _ _ _
               (find_served drv User (VStr uid) _ rt Hserves)).
    simpl. unfold attr. rewrite Hpw', Hfmt. fold signature.
    by rewrite String.eqb_refl.
Qed.

(** Under [/manage/] the next handler runs only for an administrator: the
    cookie has been accepted by [cookie2user] and the user it gave has a true
    [admin]; the handler is then given that user, whose password is masked.
    In every other case the outcome does not depend on the handler, and when
    the middleware returns at all it returns the redirection to
    [/signin]. *)
Theorem manage_needs_admin (drv : Driver) (User : Schema)
    (cookie : option string) (path : string)
    (handler : option Instance → M Runtime RetVal) (rt : Runtime) :
  startswith path "/manage/" = true →
  (∃ u rt' admin,
     cookie2user py_int py_str sha1_hex key before_now drv User cookie rt
     = (inr (Some u), rt')
     ∧ u !! "admin"%string = Some admin
     ∧ truthy admin = true
     ∧ u !! "passwd"%string = Some (VStr "******")
     ∧ auth py_int py_str sha1_hex key before_now drv User cookie path handler rt
       = handler (Some u) rt')
  ∨ ((∀ handler',
        auth py_int py_str sha1_hex key before_now drv User cookie path handler' rt
        = auth py_int py_str sha1_hex key before_now drv User cookie path handler rt)
     ∧ ∀ r rt',
         auth py_int py_str sha1_hex key before_now drv User cookie path handler rt
         = (inr r, rt') →
         r = RStream (Aiohttp.HTTPFound "/signin")).
Proof.
  intros Hpath. unfold auth, bind. rewrite Hpath.
  destruct (opt_truthy cookie) eqn:Hcookie.
  - destruct (cookie2user_cases drv User cookie rt)
      as (r & rt' & Hrun & _ & Hsome).
    rewrite Hrun. destruct r as [e|[u|]].
    + right. split; [done|]. intros r rt'' H. discriminate H.
    + destruct (Nat.eqb (size u) 0).
      { right. split; [done|]. by intros r rt'' [= <- _]. }
      unfold attr, raise, ret.
      destruct (u !! "email"%string) as [email|].
      * destruct (u !! "admin"%string) as [admin|] eqn:Hadmin.
        -- destruct (truthy admin) eqn:Htruthy.
           ++ left. exists u, rt', admin. repeat split; try done.
              destruct (Hsome u eq_refl)
                as (? & ? & ? & ? & ? & ? & ? & _ & _ & _ & _ & _ & _ & _ & ->).
              by rewrite lookup_insert_eq.
           ++ right. split; [done|]. by intros r rt'' [= <- _].
        -- right. split; [done|]. intros r rt'' H. discriminate H.
      * right. split; [done|]. intros r rt'' H. discriminate H.
    + right. split; [done|]. by intros r rt'' [= <- _].
  - right. split; [done|]. by intros r rt'' [= <- _].
Qed.

End Cookies.

Lemma cookie_round_trip_witness :
  let py_int := λ s : string, if String.eqb s "99" then Some 99 else None in
  let user : Instance :=
    {[ "id"%string := VStr "u1"; "passwd"%string := VStr "pw" ]} in
  serves (serving [user])
    (__select__ sample_schema +:+ " where `" +:+ __primary_key__ sample_schema
       +:+ "`=?") [VStr "u1"] [user]
  ∧ (cookie2user py_int (λ _, "?"%string) (λ _, "abc"%string) "secret"
       (λ n, n <? 50) (serving [user]) sample_schema (Some "u1-99-abc"%string)
       sample_runtime).1
    = inr (Some (<["passwd"%string := VStr "******"]> user)).
Proof.
  intros py_int user.
  assert (serves (serving [user])
            (__select__ sample_schema +:+ " where `"
               +:+ __primary_key__ sample_schema +:+ "`=?") [VStr "u1"] [user])
    as Hserves by (by repeat split).
  split; [exact Hserves|].
  refine (proj2 (cookie_round_trip py_int (λ _, "?"%string) (λ _, "abc"%string)
                   "secret" (λ n, n <? 50) (serving [user]) sample_schema
                   user user [] "u1" (VStr "pw") (VStr "pw") 99 sample_runtime
                   _ _ _ _ _ _ _ Hserves _ _));
    try reflexivity; lia.
Defined.

Lemma manage_needs_admin_witness :
  startswith "/manage/blogs" "/manage/" = true
  ∧ ∀ r rt',
      auth (λ _, None) (λ _, "?"%string) (λ _, "abc"%string) "secret"
        (λ n, n <? 50) (serving []) sample_schema None "/manage/blogs"
        (λ _, ret (RPy VNone)) sample_runtime
      = (inr r, rt') →
      r = RStream (Aiohttp.HTTPFound "/signin").
Proof.
  split; [reflexivity|].
  destruct (manage_needs_admin (λ _, None) (λ _, "?"%string) (λ _, "abc"%string)
              "secret" (λ n, n <? 50) (serving []) sample_schema None
              "/manage/blogs" (λ _, ret (RPy VNone)) sample_runtime eq_refl)
    as [(u & rt' & admin & Hrun & _)|[_ Hredirect]];
    [discriminate Hrun|exact Hredirect].
Defined.

(** ** Instances *)

Lemma connection_always_released_witness :
  on_acquire (serving []) = None
  ∧ last (new_events sample_runtime
            (execute (serving []) "delete from `users` where `id`=?"
               [VInt 7] false sample_runtime).2)
    = Some EvRelease.
Proof.
  split; [reflexivity|].
  exact (proj1 (proj1 (connection_always_released (serving [])
                         "delete from `users` where `id`=?" [VInt 7] false None
                         sample_runtime) eq_refl)).
Defined.

Lemma execute_autocommit_no_transaction_witness :
  on_execute (serving []) (replace_qmark "delete from `users` where `id`=?")
    [VInt 7] = None
  ∧ (execute (serving []) "delete from `users` where `id`=?" [VInt 7] true
       sample_runtime).1
    = inr 0.
Proof.
  split; [reflexivity|].
  exact (proj2 (proj2 (proj2 (execute_autocommit_no_transaction (serving [])
                                "delete from `users` where `id`=?" [VInt 7]
                                sample_runtime None None None)))
           eq_refl eq_refl eq_refl eq_refl).
Defined.

Lemma replace_qmark_translates_witness :
  qfree "select 1" ∧ replace_qmark "select 1" = "select 1"%string.
Proof.
  split; [reflexivity|].
  exact (proj2 (proj2 (proj2 (proj2 (replace_qmark_translates "select 1" ""))))
           eq_refl).
Defined.

Lemma has_request_arg_accepts_witness :
  parameters api_create_comment
  = [mkParam "id" POSITIONAL_OR_KEYWORD false]
    ++ mkParam "request" POSITIONAL_OR_KEYWORD false
       :: [mkParam "content" KEYWORD_ONLY false]
  ∧ has_request_arg api_create_comment = inr true.
Proof.
  split; [reflexivity|].
  refine (proj2 (has_request_arg_accepts api_create_comment)
            [mkParam "id" POSITIONAL_OR_KEYWORD false]
            (mkParam "request" POSITIONAL_OR_KEYWORD false)
            [mkParam "content" KEYWORD_ONLY false] eq_refl _ eq_refl).
  by repeat constructor.
Defined.

Lemma add_routes_registers_routes_witness :
  let handlers : PyModule :=
    [("_RE_SHA1"%string, NotCallable);
     ("api_delete_comments"%string,
      IsCallable (post_ "/api/comments/{id}/delete" (plain api_delete_comments)));
     ("check_admin"%string, IsCallable (plain api_delete_comments))] in
  (add_routes (λ _, inr handlers) "handlers.py" []).2
  = omap route_of (List.filter is_route handlers)
  ∧ length (add_routes (λ _, inr handlers) "handlers.py" []).2 = 1%nat.
Proof.
  intros handlers.
  assert (add_routes (λ _, inr handlers) "handlers.py" []
          = (inr tt, [] ++ omap route_of (List.filter is_route handlers))) as ->.
  { refine (proj2 (proj2 (add_routes_registers_routes (λ _, inr handlers)
                            "handlers.py" []) handlers eq_refl) _).
    repeat first [apply Forall_nil_2 | apply Forall_cons_2]; intros Hroute;
      try discriminate Hroute; by eexists. }
  split; reflexivity.
Defined.

Lemma import_name_drops_last_component_witness :
  count_char "." "py" = O ∧ import_name "handlers.py" = "handlers"%string.
Proof.
  split; [reflexivity|].
  exact (proj2 (import_name_drops_last_component "handlers" "py") eq_refl).
Defined.

Lemma text2html_escapes_witness :
  text2html (λ s, String.eqb s "") (String "010" (String "010" "")) = ""%string.
Proof.
  exact (proj2 (proj2 (proj2 (text2html_escapes (λ s, String.eqb s "")
                                (String "010" (String "010" "")))))
           eq_refl).
Defined.

Lemma get_page_index_at_least_1_witness :
  get_page_index (λ s, if String.eqb s "-3" then Some (-3) else None) "-3" = 1.
Proof.
  exact (proj2 (proj2 (get_page_index_at_least_1
                         (λ s, if String.eqb s "-3" then Some (-3) else None)
                         "-3")) (-3) eq_refl).
Defined.

Lemma cookie2user_only_signed_witness :
  let py_int := λ s : string, if String.eqb s "99" then Some 99 else None in
  let user : Instance :=
    {[ "id"%string := VStr "u1"; "passwd"%string := VStr "pw" ]} in
  (cookie2user py_int (λ _, "?"%string) (λ _, "abc"%string) "secret"
     (λ n, n <? 50) (serving [user]) sample_schema (Some "u1-99-abc"%string)
     sample_runtime).1
  = inr (Some (<["passwd"%string := VStr "******"]> user))
  ∧ (<["passwd"%string := VStr "******"]> user) !! "passwd"%string
    = Some (VStr "******")
  ∧ (cookie2user py_int (λ _, "?"%string) (λ _, "abc"%string) "secret"
       (λ n, n <? 50) closed_while_waiting sample_schema
       (Some "u1-99-abc"%string) sample_runtime).1
    = inl (NonException "GeneratorExit")
  ∧ is_Exception (NonException "GeneratorExit") = false.
Proof.
  intros py_int user.
  assert ((cookie2user py_int (λ _, "?"%string) (λ _, "abc"%string) "secret"
             (λ n, n <? 50) (serving [user]) sample_schema
             (Some "u1-99-abc"%string) sample_runtime).1
          = inr (Some (<["passwd"%string := VStr "******"]> user))) as Hrun
    by reflexivity.
  assert ((cookie2user py_int (λ _, "?"%string) (λ _, "abc"%string) "secret"
             (λ n, n <? 50) closed_while_waiting sample_schema
             (Some "u1-99-abc"%string) sample_runtime).1
          = inl (NonException "GeneratorExit")) as Hraised
    by reflexivity.
  split; [exact Hrun|]. split; [|split; [exact Hraised|]].
  - exact (proj1 (proj2 (cookie2user_only_signed py_int (λ _, "?"%string)
                           (λ _, "abc"%string) "secret" (λ n, n <? 50)
                           (serving [user]) sample_schema
                           (Some "u1-99-abc"%string) sample_runtime) _ Hrun)).
  - exact (proj1 (proj1 (cookie2user_only_signed py_int (λ _, "?"%string)
                           (λ _, "abc"%string) "secret" (λ n, n <? 50)
                           closed_while_waiting sample_schema
                           (Some "u1-99-abc"%string) sample_runtime) _ Hraised)).
Defined.

Lemma cookie2user_rejects_early_witness :
  count_char "-" "u1-99" ≠ 2%nat
  ∧ cookie2user (λ _, None) (λ _, "?"%string) (λ _, "abc"%string) "secret"
      (λ n, n <? 50) (serving []) sample_schema (Some "u1-99"%string)
      sample_runtime
    = (inr None, sample_runtime).
Proof.
  assert (count_char "-" "u1-99" ≠ 2%nat) as Hdashes by discriminate.
  split; [exact Hdashes|].
  exact (proj1 (cookie2user_rejects_early (λ _, None) (λ _, "?"%string)
                  (λ _, "abc"%string) "secret" (λ n, n <? 50) (serving [])
                  sample_schema "u1-99" sample_runtime) Hdashes).
Defined.
